(** * TrustGrid.AI: feature engineering and score explanation

    A shallow embedding of [ml/feature_engineering.py] and [ml/explain.py].

    Numbers.  A number of the raw wallet record is a Python [int] or a
    finite [float] ([number]); the operations the code applies to it raise
    what Python and numpy raise: [TypeError] for an [int] that numpy cannot
    convert, [OverflowError] for an [int] or a power beyond the range of a
    double, [ZeroDivisionError].  Computed numbers are read as exact
    rationals ([Q]), and equality of computed numbers is [Qeq] ([==]): the
    rounding of binary floating point is not part of this development.
    Where the code would go on with an infinity or a NaN, the computation
    ends in [NonFinite].

    Dictionaries.  A feature dictionary ([Dict[str, float]]) is a
    [gmap string Q], which holds a number by its value.  The raw wallet
    dictionary is a record with one optional field per key the code reads
    ([None] = key absent); values of the wrong Python type are excluded by
    the types.  The statements that a method returns are made for records
    in range ([in_range]); the conversions that outlier clipping and
    scikit-learn apply to a raw [int] beyond the doubles are not followed.

    Effects.  Exceptions and [logger] calls are explicit: a computation
    returns the log records it emitted together with either the exception it
    raised or its value.  Methods that assign to [self] return the new
    object as well. *)

From Stdlib Require Import QArith Qabs Qminmax Lqa.
From stdpp Require Import gmap strings list sorting.

Local Open Scope string_scope.
Local Open Scope list_scope.

(** ** Python runtime: exceptions, logging, and the effect monad *)

Module Py.

Inductive exn : Type :=
| ZeroDivisionError
| TypeError
| OverflowError
| KeyError (key : string)
| IndexError
| AttributeError
| FileNotFoundError (path : string)
| ValueError (msg : string)
| ExternalError (msg : string)
(** Not a Python exception: numpy warns and the code goes on with an
    infinity or a NaN, which has no rational reading.  The computation is
    not followed beyond that point. *)
| NonFinite.

Inductive level : Type := DEBUG | INFO | WARNING | ERROR.

(** The payload of a log call; the f-string rendering is not modelled. *)
Inductive event : Type :=
| ScalersNotFitted
| FittedScalers (n : nat)
| ClippedOutlier (feature_name : string) (value clipped_value : Q)
| SavedScalers (filepath : string)
| LoadedScalers (filepath : string)
| ShapFailed (e : exn).

Record LogRecord : Type := { lvl : level; what : event }.

(** Log records emitted so far, then the exception or the value. *)
Definition M (A : Type) : Type := (list LogRecord * (exn + A))%type.

Definition ret {A} (a : A) : M A := ([], inr a).
Definition raise {A} (e : exn) : M A := ([], inl e).
Definition logger (l : level) (ev : event) : M unit :=
  ([ {| lvl := l; what := ev |} ], inr tt).

Definition bind {A B} (m : M A) (k : A -> M B) : M B :=
  match m with
  | (l, inl e) => (l, inl e)
  | (l, inr a) => let '(l', r) := k a in ((l ++ l')%list, r)
  end.

(** [try: body  except Exception as e: handler e] *)
Definition try_except {A} (body : M A) (handler : exn -> M A) : M A :=
  match body with
  | (l, inl e) => let '(l', r) := handler e in ((l ++ l')%list, r)
  | (l, inr a) => (l, inr a)
  end.

Definition result {A} (m : M A) : exn + A := snd m.
Definition emitted {A} (m : M A) : list LogRecord := fst m.

(** [for x in xs: acc = body acc x] *)
Fixpoint for_each {A S} (body : S -> A -> M S) (xs : list A) (acc : S) : M S :=
  match xs with
  | [] => ret acc
  | x :: xs' => bind (body acc x) (for_each body xs')
  end.

(** [ys = [f(x) for x in xs]] *)
Definition collect {A B} (f : A -> M B) (xs : list A) : M (list B) :=
  for_each (fun ys x => bind (f x) (fun y => ret (ys ++ [y]))) xs [].

End Py.

Import Py.

Notation "'do' x <- m ; k" := (bind m (fun x => k))
  (at level 10, x name, m at level 100, k at level 200).
Notation "'run' m ; k" := (bind m (fun _ => k))
  (at level 10, m at level 100, k at level 200).

(** ** Python arithmetic on rationals *)

(** [a > b], [a != b] as booleans. *)
Definition Qgtb (a b : Q) : bool := negb (Qle_bool a b).
Definition Qneb (a b : Q) : bool := negb (Qeq_bool a b).

(** [np.sign] *)
Definition Qsign (x : Q) : Q := inject_Z (Z.sgn (Qnum x)).

(** Python's [/]: raises on a zero divisor. *)
Definition py_div (a b : Q) : M Q :=
  if Qeq_bool b 0 then raise ZeroDivisionError else ret (a / b)%Q.

(** [sum(xs)] *)
Definition py_sum (xs : list Q) : Q := fold_left Qplus xs 0%Q.

(** [(a > 0)] used as the integer 0 or 1 *)
Definition Qof_bool (b : bool) : Q := if b then 1%Q else 0%Q.

(** [len(xs)] as a number *)
Definition Qlen {A} (xs : list A) : Q := inject_Z (Z.of_nat (length xs)).

(** ** Python numbers *)

(** A number as the raw record holds it: an [int] of any size, or a finite
    [float] given by its value. *)
Inductive number : Type :=
| int (n : Z)
| float (x : Q).

Definition as_Q (v : number) : Q :=
  match v with
  | int n => inject_Z n
  | float x => x
  end.

(** The least magnitude that rounds to an infinity: the largest double is
    [2^1024 - 2^971], and from half a unit in the last place above it on
    round-to-nearest leaves the range. *)
Definition float_overflow : Q := inject_Z (2 ^ 1024 - 2 ^ 970).

Definition overflows (q : Q) : bool := Qle_bool float_overflow (Qabs q).

(** The conversion of an operand to [float] that the arithmetic operators
    apply when the other operand is a [float]. *)
Definition as_float (v : number) : M Q :=
  match v with
  | int n => if overflows (inject_Z n) then raise OverflowError else ret (inject_Z n)
  | float x => ret x
  end.

(** Python's [a / b].  On two [int]s the exact quotient is rounded, and one
    beyond the doubles raises.  Otherwise both operands are converted
    first; no quotient of two [float]s of this code leaves the range, its
    divisors being constants, floored at 1, or [1 + v]. *)
Definition truediv (a b : number) : M Q :=
  match a, b with
  | int n, int m =>
      if (m =? 0)%Z then raise ZeroDivisionError
      else if overflows (inject_Z n / inject_Z m) then raise OverflowError
      else ret (inject_Z n / inject_Z m)%Q
  | _, _ =>
      do x <- as_float a;
      do y <- as_float b;
      if Qeq_bool y 0 then raise ZeroDivisionError else ret (x / y)%Q
  end.

(** Python's [a + b]: exact on two [int]s. *)
Definition py_add (a b : number) : M number :=
  match a, b with
  | int n, int m => ret (int (n + m))
  | _, _ =>
      do x <- as_float a;
      do y <- as_float b;
      ret (float (x + y))
  end.

(** [max(a, b)]: the second argument only when it is greater. *)
Definition py_max (a b : number) : number :=
  if Qgtb (as_Q b) (as_Q a) then b else a.

(** [p ** 2] on a [float]: a result beyond the doubles raises. *)
Definition py_pow2 (p : Q) : M Q :=
  if overflows (p ^ 2) then raise OverflowError else ret (p ^ 2)%Q.

(** A [float] sum: beyond the doubles it is an infinity. *)
Definition finite (q : Q) : M Q :=
  if overflows q then raise NonFinite else ret q.

(** ** numpy *)

(** The argument of a numpy function: an [int] is converted through
    [int64] or [uint64]; one that fits neither makes the call raise. *)
Definition np_float64 (v : number) : M Q :=
  match v with
  | int n =>
      if ((- 2 ^ 63 <=? n) && (n <? 2 ^ 64))%Z then ret (inject_Z n) else raise TypeError
  | float x => ret x
  end.

(** The values of [np.log1p] above -1 and of [np.sqrt] from 0 on, which
    have no rational counterpart. *)
Class Numpy : Type := {
  log1p : Q -> Q;
  sqrt : Q -> Q
}.

(** [np.log1p(v)]: minus infinity at -1, NaN below. *)
Definition np_log1p `{Numpy} (v : number) : M Q :=
  do x <- np_float64 v;
  if Qle_bool x (-1) then raise NonFinite else ret (log1p x).

(** [np.sqrt(v)]: NaN below 0. *)
Definition np_sqrt `{Numpy} (v : number) : M Q :=
  do x <- np_float64 v;
  if Qgtb 0 x then raise NonFinite else ret (sqrt x).

(** ** [feature_engineering.py] *)

Module FeatureEngineering.

Record FeatureConfig : Type := {
  use_log_transform : bool;
  use_robust_scaling : bool;
  handle_outliers : bool;
  outlier_threshold : Q;
  min_transactions_threshold : Z
}.

(** The dataclass defaults. *)
Definition default_config : FeatureConfig :=
  {| use_log_transform := true;
     use_robust_scaling := true;
     handle_outliers := true;
     outlier_threshold := 3.0%Q;
     min_transactions_threshold := 5%Z |}.

(** One entry of [wallet_data['top_tokens']]. *)
Record Token : Type := {
  percentage : option number;
  symbol : option string
}.

(** The keys of [wallet_data] that the code reads. *)
Record WalletData : Type := {
  total_transactions : option number;
  contract_interactions : option number;
  unique_contracts_interacted : option number;
  average_transaction_value : option number;
  swap_frequency : option number;
  bridge_transactions : option number;
  portfolio_volatility : option number;
  top_tokens : option (list Token);
  account_age : option number;
  has_ens : option bool;
  farcaster_followers : option number;
  github_contributions : option number
}.

(** [d.get(key, dflt)] *)
Definition get {A} (field : option A) (dflt : A) : A :=
  match field with Some v => v | None => dflt end.

(** A fitted [RobustScaler] / [StandardScaler] on one column:
    [transform] computes [(x - center_) / scale_]. *)
Record Scaler : Type := { center_ : Q; scale_ : Q }.

Definition scaler_transform (s : Scaler) (value : Q) : Q :=
  ((value - center_ s) / scale_ s)%Q.

(** [self.feature_stats]: the five per-column dictionaries.  The empty
    dictionary the constructor assigns is the record of empty maps. *)
Record FeatureStats : Type := {
  stats_mean : gmap string Q;
  stats_std : gmap string Q;
  stats_min : gmap string Q;
  stats_max : gmap string Q;
  stats_median : gmap string Q
}.

Definition no_stats : FeatureStats :=
  {| stats_mean := ∅; stats_std := ∅; stats_min := ∅;
     stats_max := ∅; stats_median := ∅ |}.

Record FeatureEngineer : Type := {
  config : FeatureConfig;
  scalers : gmap string Scaler;
  feature_stats : FeatureStats;
  is_fitted : bool
}.

(** [FeatureEngineer.__init__] *)
Definition new (cfg : option FeatureConfig) : FeatureEngineer :=
  {| config := get cfg default_config;
     scalers := ∅;
     feature_stats := no_stats;
     is_fitted := false |}.

(** What [fit_scalers] delegates to pandas and scikit-learn. *)
Class Fitting : Type := {
  df_columns : list (gmap string Q) -> list string;
  df_column : list (gmap string Q) -> string -> list Q;
  df_stats : list (gmap string Q) -> FeatureStats;
  scaler_fit : bool -> list Q -> Scaler
}.

(** [joblib] files: path to the dumped dictionary. *)
Record Dump : Type := {
  dump_scalers : gmap string Scaler;
  dump_feature_stats : FeatureStats;
  dump_config : option FeatureConfig
}.

Section Methods.
Context `{Numpy}.

(** [np.log1p(v) if self.config.use_log_transform else v] *)
Definition log_transform (self : FeatureEngineer) (v : number) : M Q :=
  if use_log_transform (config self) then np_log1p v else ret (as_Q v).

Definition extract_onchain_features (self : FeatureEngineer)
    (wallet_data : WalletData) : M (gmap string Q) :=
  let features : gmap string Q := ∅ in
  let tx_count := get (total_transactions wallet_data) (int 0) in
  let features := <["tx_count" := as_Q tx_count]> features in
  do tx_count_log <- log_transform self tx_count;
  let features := <["tx_count_log" := tx_count_log]> features in
  let contract_interactions := get (contract_interactions wallet_data) (int 0) in
  let features := <["contract_interactions" := as_Q contract_interactions]> features in
  do ratio <- truediv contract_interactions (py_max tx_count (int 1));
  let features := <["contract_interaction_ratio" := ratio]> features in
  let unique_contracts := get (unique_contracts_interacted wallet_data) (int 0) in
  let features := <["unique_contracts" := as_Q unique_contracts]> features in
  do diversity <- truediv unique_contracts (py_max contract_interactions (int 1));
  let features := <["contract_diversity" := diversity]> features in
  let avg_tx_value := get (average_transaction_value wallet_data) (int 0) in
  let features := <["avg_tx_value" := as_Q avg_tx_value]> features in
  do avg_tx_value_log <- log_transform self avg_tx_value;
  let features := <["avg_tx_value_log" := avg_tx_value_log]> features in
  let swap_frequency := get (swap_frequency wallet_data) (int 0) in
  let features := <["swap_frequency" := as_Q swap_frequency]> features in
  do swap_ratio <- truediv swap_frequency (py_max tx_count (int 1));
  let features := <["swap_ratio" := swap_ratio]> features in
  let bridge_txs := get (bridge_transactions wallet_data) (int 0) in
  let features := <["bridge_transactions" := as_Q bridge_txs]> features in
  do bridge_ratio <- truediv bridge_txs (py_max tx_count (int 1));
  let features := <["bridge_ratio" := bridge_ratio]> features in
  let portfolio_volatility := get (portfolio_volatility wallet_data) (int 0) in
  let features := <["portfolio_volatility" := as_Q portfolio_volatility]> features in
  do divisor <- py_add (int 1) portfolio_volatility;
  do stability <- truediv (int 1) divisor;
  let features := <["portfolio_stability" := stability]> features in
  let top_tokens := get (top_tokens wallet_data) [] in
  let features := <["token_count" := Qlen top_tokens]> features in
  do features <-
    match top_tokens with
    | _ :: _ =>
        do percentages <-
          collect (fun token => truediv (get (percentage token) (int 0)) (int 100))
            top_tokens;
        do squares <- collect py_pow2 percentages;
        do hhi <- finite (py_sum squares);
        ret (<["token_diversity" := (1 - hhi)%Q]>
               (<["token_concentration" := hhi]> features))
    | [] =>
        ret (<["token_diversity" := 0.0%Q]>
               (<["token_concentration" := 1.0%Q]> features))
    end;
  let account_age := get (account_age wallet_data) (int 0) in
  let features := <["account_age" := as_Q account_age]> features in
  do account_age_log <- log_transform self account_age;
  let features := <["account_age_log" := account_age_log]> features in
  do tx_per_day <- truediv tx_count (py_max account_age (int 1));
  let features := <["tx_per_day" := tx_per_day]> features in
  ret features.

(** The dictionary [extract_offchain_features] builds.  Its two
    [np.log1p] calls can fail: see [offchain_log_transforms]. *)
Definition extract_offchain_features (self : FeatureEngineer)
    (wallet_data : WalletData) : gmap string Q :=
  let features : gmap string Q := ∅ in
  let has_ens := get (has_ens wallet_data) false in
  let features := <["has_ens" := if has_ens then 1.0%Q else 0.0%Q]> features in
  let farcaster_followers := as_Q (get (farcaster_followers wallet_data) (int 0)) in
  let features := <["farcaster_followers" := farcaster_followers]> features in
  let features := <["farcaster_followers_log" :=
    if use_log_transform (config self)
    then log1p farcaster_followers else farcaster_followers]> features in
  let features := <["has_farcaster" :=
    if Qgtb farcaster_followers 0 then 1.0%Q else 0.0%Q]> features in
  let github_contributions := as_Q (get (github_contributions wallet_data) (int 0)) in
  let features := <["github_contributions" := github_contributions]> features in
  let features := <["github_contributions_log" :=
    if use_log_transform (config self)
    then log1p github_contributions else github_contributions]> features in
  let features := <["has_github" :=
    if Qgtb github_contributions 0 then 1.0%Q else 0.0%Q]> features in
  let social_signals :=
    (Qof_bool (Qgtb farcaster_followers 0)
     + Qof_bool (Qgtb github_contributions 0)
     + Qof_bool has_ens)%Q in
  let features := <["social_signal_count" := social_signals]> features in
  let features := <["social_presence" := (social_signals / 3.0)%Q]> features in
  features.

(** The calls of [extract_offchain_features] that can fail, in the order
    of the source: [np.log1p] on the follower and contribution counts. *)
Definition offchain_log_transforms (self : FeatureEngineer)
    (wallet_data : WalletData) : M unit :=
  run log_transform self (get (farcaster_followers wallet_data) (int 0));
  run log_transform self (get (github_contributions wallet_data) (int 0));
  ret tt.

(** The operations of [create_composite_features] that can fail on the raw
    numbers the onchain dictionary passes on, in the order of the source:
    [np.sqrt(tx_count)], [account_age / 365] and
    [portfolio_volatility / 2.0]. *)
Definition composite_conversions (wallet_data : WalletData) : M unit :=
  run np_sqrt (get (total_transactions wallet_data) (int 0));
  run truediv (get (account_age wallet_data) (int 0)) (int 365);
  run truediv (get (portfolio_volatility wallet_data) (int 0)) (float 2.0);
  ret tt.

(** The dictionary [create_composite_features] builds; see
    [composite_conversions] for what can fail on the way. *)
Definition create_composite_features (self : FeatureEngineer)
    (onchain_features offchain_features : gmap string Q) : gmap string Q :=
  let features : gmap string Q := ∅ in
  let tx_count := get (onchain_features !! "tx_count") 0%Q in
  let social_presence := get (offchain_features !! "social_presence") 0%Q in
  let features := <["activity_social_score" :=
    (sqrt tx_count * (1 + social_presence))%Q]> features in
  let has_ens := get (offchain_features !! "has_ens") 0%Q in
  let contract_diversity := get (onchain_features !! "contract_diversity") 0%Q in
  let account_age := get (onchain_features !! "account_age") 0%Q in
  let features := <["trust_indicators" :=
    (has_ens * 0.3
     + Qmin contract_diversity 1.0 * 0.4
     + Qmin (account_age / 365) 1.0 * 0.3)%Q]> features in
  let portfolio_volatility := get (onchain_features !! "portfolio_volatility") 0%Q in
  let tx_per_day := get (onchain_features !! "tx_per_day") 0%Q in
  let high_frequency_risk := if Qgtb tx_per_day 10 then 1.0%Q else 0.0%Q in
  let volatility_risk := Qmin (portfolio_volatility / 2.0) 1.0 in
  let features := <["risk_indicators" :=
    (high_frequency_risk * 0.6 + volatility_risk * 0.4)%Q]> features in
  features.

Definition continuous_features : list string :=
  [ "tx_count"; "contract_interactions"; "avg_tx_value";
    "swap_frequency"; "portfolio_volatility"; "account_age";
    "farcaster_followers"; "github_contributions" ].

(** [d[key]] on a statistics dictionary *)
Definition subscript (d : gmap string Q) (key : string) : M Q :=
  match d !! key with
  | Some v => ret v
  | None => raise (KeyError key)
  end.

(** One iteration of the loop of [_handle_outliers]. *)
Definition clip_feature (self : FeatureEngineer)
    (handled_features : gmap string Q) (feature_name : string)
    : M (gmap string Q) :=
  match handled_features !! feature_name with
  | None => ret handled_features
  | Some value =>
      if is_fitted self
         && bool_decide (is_Some (stats_mean (feature_stats self) !! feature_name))
      then
        do mean <- subscript (stats_mean (feature_stats self)) feature_name;
        do std <- subscript (stats_std (feature_stats self)) feature_name;
        if Qgtb (Qabs (value - mean)) (outlier_threshold (config self) * std)
        then
          let clipped_value :=
            (mean + Qsign (value - mean) * outlier_threshold (config self) * std)%Q in
          let handled_features := <[feature_name := clipped_value]> handled_features in
          run logger DEBUG (ClippedOutlier feature_name value clipped_value);
          ret handled_features
        else ret handled_features
      else ret handled_features
  end.

Definition _handle_outliers (self : FeatureEngineer)
    (features : gmap string Q) : M (gmap string Q) :=
  let handled_features := features in
  for_each (clip_feature self) continuous_features handled_features.

Definition engineer_features (self : FeatureEngineer)
    (wallet_data : WalletData) : M (gmap string Q) :=
  do onchain_features <- extract_onchain_features self wallet_data;
  run offchain_log_transforms self wallet_data;
  let offchain_features := extract_offchain_features self wallet_data in
  run composite_conversions wallet_data;
  let composite_features :=
    create_composite_features self onchain_features offchain_features in
  (* {**onchain, **offchain, **composite}: the later dictionary wins *)
  let all_features : gmap string Q :=
    composite_features ∪ (offchain_features ∪ onchain_features) in
  if handle_outliers (config self)
  then _handle_outliers self all_features
  else ret all_features.

Definition transform_features (self : FeatureEngineer)
    (features : gmap string Q) : M (gmap string Q) :=
  if negb (is_fitted self) then
    run logger WARNING ScalersNotFitted;
    ret features
  else
    ret (map_imap (fun feature_name value =>
           match scalers self !! feature_name with
           | Some scaler => Some (scaler_transform scaler value)
           | None => Some value
           end) features).

Definition get_feature_importance_weights (self : FeatureEngineer)
    : gmap string Q :=
  list_to_map
    [ ("tx_count_log", 0.15%Q);
      ("contract_interaction_ratio", 0.12%Q);
      ("unique_contracts", 0.10%Q);
      ("account_age_log", 0.10%Q);
      ("swap_ratio", 0.08%Q);
      ("portfolio_stability", 0.08%Q);
      ("token_diversity", 0.06%Q);
      ("has_ens", 0.05%Q);
      ("social_presence", 0.05%Q);
      ("trust_indicators", 0.08%Q);
      ("activity_social_score", 0.06%Q);
      ("bridge_ratio", 0.04%Q);
      ("risk_indicators", (-0.03)%Q) ].

End Methods.

(** Methods that assign to [self] or write a file return the new object
    or the new file system next to their outcome. *)
Section Stateful.
Context `{Fitting}.

Definition fit_scalers (self : FeatureEngineer)
    (feature_data : list (gmap string Q)) : FeatureEngineer * M unit :=
  match feature_data with
  | [] => (self, raise (ValueError "No feature data provided for fitting scalers"))
  | _ :: _ =>
      let new_stats := df_stats feature_data in
      let new_scalers :=
        fold_left (fun acc column =>
            <[column := scaler_fit (use_robust_scaling (config self))
                          (df_column feature_data column)]> acc)
          (df_columns feature_data) (scalers self) in
      ({| config := config self;
          scalers := new_scalers;
          feature_stats := new_stats;
          is_fitted := true |},
       logger INFO (FittedScalers (size new_scalers)))
  end.

Definition save_scalers (self : FeatureEngineer) (filepath : string)
    (files : gmap string Dump) : gmap string Dump * M unit :=
  if is_fitted self then
    (<[filepath := {| dump_scalers := scalers self;
                      dump_feature_stats := feature_stats self;
                      dump_config := Some (config self) |}]> files,
     logger INFO (SavedScalers filepath))
  else (files, ret tt).

Definition load_scalers (self : FeatureEngineer) (filepath : string)
    (files : gmap string Dump) : FeatureEngineer * M unit :=
  match files !! filepath with
  | None => (self, raise (FileNotFoundError filepath))
  | Some data =>
      ({| config := get (dump_config data) default_config;
          scalers := dump_scalers data;
          feature_stats := dump_feature_stats data;
          is_fitted := true |},
       logger INFO (LoadedScalers filepath))
  end.

End Stateful.

End FeatureEngineering.

(** ** [explain.py] *)

Module Explain.
Import FeatureEngineering.

Record FeatureContribution : Type := {
  feature_name : string;
  value : Q;
  contribution : Q;
  importance : Q;
  description : string
}.

(** [explanation_text] is rendered from the score and the leading factors
    of each sign; the rendering is left out of this record. *)
Record TrustScoreExplanation : Type := {
  predicted_score : Q;
  base_score : Q;
  feature_contributions : list FeatureContribution;
  top_positive_factors : list FeatureContribution;
  top_negative_factors : list FeatureContribution;
  confidence : Q
}.

(** What [explainer.shap_values] returns: a vector, or a matrix with one
    row per sample. *)
Inductive ShapValues : Type :=
| Shap1D (row : list Q)
| Shap2D (rows : list (list Q)).

Record TrustScoreExplainer : Type := {
(** [float(self.model.predict(feature_vector)[0])] *)
model : list Q -> Q;
feature_engineer : FeatureEngineer;
feature_names : list string;
(** [self.explainer]; [None] when no SHAP explainer was initialised.
    A call either raises or returns the SHAP values. *)
explainer : option (list Q -> exn + ShapValues)
}.

Definition feature_descriptions : gmap string string :=
  list_to_map
    [ ("tx_count_log", "Transaction history depth");
      ("contract_interaction_ratio", "Smart contract usage frequency");
      ("unique_contracts", "Diversity of contract interactions");
      ("account_age_log", "Account maturity");
      ("swap_ratio", "DeFi trading activity");
      ("portfolio_stability", "Portfolio risk management");
      ("token_diversity", "Asset diversification");
      ("has_ens", "ENS domain ownership");
      ("social_presence", "Social media engagement");
      ("trust_indicators", "Overall trust signals");
      ("activity_social_score", "Activity-social composite");
      ("bridge_ratio", "Cross-chain activity");
      ("risk_indicators", "Risk factors");
      ("avg_tx_value_log", "Transaction size patterns");
      ("contract_diversity", "Contract interaction diversity");
      ("farcaster_followers_log", "Farcaster social presence");
      ("github_contributions_log", "Developer activity") ].

(** [contrib.contribution *= factor] *)
Definition scale_contribution (factor : Q) (c : FeatureContribution)
    : FeatureContribution :=
  {| feature_name := feature_name c;
     value := value c;
     contribution := (contribution c * factor)%Q;
     importance := importance c;
     description := description c |}.

(** [xs[i]] on an array *)
Definition index (xs : list Q) (i : nat) : M Q :=
  match xs !! i with
  | Some x => ret x
  | None => raise IndexError
  end.

(** [list.sort(key=...)]: a stable insertion sort; [before x y] tells
    whether [x] may stay in front of [y]. *)
Fixpoint insert_sorted {A} (before : A -> A -> bool) (x : A) (l : list A) : list A :=
  match l with
  | [] => [x]
  | y :: l' => if before x y then x :: y :: l' else y :: insert_sorted before x l'
  end.

Definition sort_by {A} (before : A -> A -> bool) (l : list A) : list A :=
  fold_right (insert_sorted before) [] l.

Definition quality_features : list string :=
  [ "tx_count_log"; "account_age_log"; "contract_interaction_ratio";
    "has_ens"; "social_presence" ].

Section Methods.
Context `{Numpy}.

(** The body of the first loop of [_get_deterministic_contributions]. *)
Definition weigh (feature_weights scaled_features : gmap string Q)
    (acc : list FeatureContribution * Q) (feature_name : string)
    : list FeatureContribution * Q :=
  let '(contributions, total_weighted_contribution) := acc in
  let value := get (scaled_features !! feature_name) 0%Q in
  let weight := get (feature_weights !! feature_name) 0.01%Q in
  let raw_contribution := (value * weight * 100)%Q in
  (contributions ++
     [ {| feature_name := feature_name;
          value := value;
          contribution := raw_contribution;
          importance := Qabs raw_contribution;
          description := get (feature_descriptions !! feature_name) feature_name |} ],
   (total_weighted_contribution + Qabs raw_contribution)%Q).

Definition _get_deterministic_contributions (self : TrustScoreExplainer)
    (scaled_features : gmap string Q) (predicted_score : Q)
    : list FeatureContribution :=
  let feature_weights := get_feature_importance_weights (feature_engineer self) in
  let '(contributions, total_weighted_contribution) :=
    fold_left (weigh feature_weights scaled_features)
      (feature_names self) ([], 0%Q) in
  if Qgtb total_weighted_contribution 0 then
    let base_score := 50.0%Q in
    let score_deviation := (predicted_score - base_score)%Q in
    (* the division is guarded by the test on its divisor *)
    let normalization_factor :=
      if Qneb total_weighted_contribution 0
      then (score_deviation / total_weighted_contribution)%Q else 1%Q in
    map (scale_contribution normalization_factor) contributions
  else contributions.

(** The [try] block of [_get_shap_contributions]. *)
Definition shap_attempt (self : TrustScoreExplainer)
    (feature_vector : list Q) (scaled_features : gmap string Q)
    : M (list FeatureContribution) :=
  match explainer self with
  | None => raise AttributeError
  | Some shap =>
      do shap_values <- ([], shap feature_vector);
      do shap_values <-
        match shap_values with
        | Shap1D row => ret row
        | Shap2D [] => raise IndexError
        | Shap2D (row :: _) => ret row
        end;
      for_each (fun contributions '(i, feature_name) =>
          do contribution <- index shap_values i;
          let value := get (scaled_features !! feature_name) 0%Q in
          ret (contributions ++
                 [ {| feature_name := feature_name;
                      value := value;
                      contribution := contribution;
                      importance := Qabs contribution;
                      description :=
                        get (feature_descriptions !! feature_name) feature_name |} ]))
        (zip (seq 0 (length (feature_names self))) (feature_names self)) []
  end.

Definition _get_shap_contributions (self : TrustScoreExplainer)
    (feature_vector : list Q) (scaled_features : gmap string Q)
    : M (list FeatureContribution) :=
  try_except (shap_attempt self feature_vector scaled_features)
    (fun e =>
       run logger WARNING (ShapFailed e);
       ret (_get_deterministic_contributions self scaled_features 50.0%Q)).

(** [sum(1 for name in names if test(scaled_features.get(name, 0)))] *)
Definition count_features (test : Q -> bool) (scaled_features : gmap string Q)
    (names : list string) : Q :=
  py_sum (map (fun _ => 1%Q)
            (filter (fun name => Is_true (test (get (scaled_features !! name) 0%Q)))
               names)).

Definition _calculate_confidence (self : TrustScoreExplainer)
    (scaled_features : gmap string Q)
    (contributions : list FeatureContribution) : M Q :=
  let confidence := 0.0%Q in
  let available_features :=
    count_features (fun v => Qneb v 0) scaled_features (feature_names self) in
  do feature_availability <-
    py_div available_features (Qlen (feature_names self));
  let confidence := (confidence + feature_availability * 40)%Q in
  let total_importance := py_sum (map importance contributions) in
  let confidence :=
    if Qgtb total_importance 0 then
      let importance_confidence := (Qmin (total_importance / 20) 1.0 * 30)%Q in
      (confidence + importance_confidence)%Q
    else confidence in
  let quality_score :=
    count_features (fun v => Qgtb v 0) scaled_features quality_features in
  let confidence :=
    (confidence + (quality_score / Qlen quality_features) * 30)%Q in
  ret (Qmin confidence 100.0).

Definition explain_prediction (self : TrustScoreExplainer)
    (wallet_data : WalletData) : M TrustScoreExplanation :=
  do features <- engineer_features (feature_engineer self) wallet_data;
  do scaled_features <- transform_features (feature_engineer self) features;
  let feature_vector :=
    map (fun name => get (scaled_features !! name) 0%Q) (feature_names self) in
  let predicted_score := model self feature_vector in
  do contributions <-
    match explainer self with
    | Some _ => _get_shap_contributions self feature_vector scaled_features
    | None => ret (_get_deterministic_contributions self scaled_features predicted_score)
    end;
  let base_score := 50.0%Q in
  let positive_factors :=
    filter (fun c => Is_true (Qgtb (contribution c) 0)) contributions in
  let negative_factors :=
    filter (fun c => Is_true (Qgtb 0 (contribution c))) contributions in
  let positive_factors :=
    sort_by (fun x y => Qle_bool (contribution y) (contribution x)) positive_factors in
  let negative_factors :=
    sort_by (fun x y => Qle_bool (contribution x) (contribution y)) negative_factors in
  do confidence <- _calculate_confidence self scaled_features contributions;
  ret {| predicted_score := predicted_score;
         base_score := base_score;
         feature_contributions := contributions;
         top_positive_factors := take 5 positive_factors;
         top_negative_factors := take 5 negative_factors;
         confidence := confidence |}.

End Methods.

End Explain.

(** ** [feature_engineering.py], module level *)

Module FeatureVector.
Import FeatureEngineering Explain.

(** [sorted(d.keys())].  The keys are distinct strings, so any sorting
    algorithm returns the same list; [String.leb] compares byte by byte,
    which on UTF-8 text is Python's code point order. *)
Definition sorted_keys (d : gmap string Q) : list string :=
  sort_by String.leb (elements (dom d)).

Section Methods.
Context `{Numpy}.

Definition create_feature_vector (wallet_data : WalletData)
    (feature_engineer : FeatureEngineer) : M (list Q * list string) :=
  do features <- engineer_features feature_engineer wallet_data;
  do scaled_features <- transform_features feature_engineer features;
  let feature_names := sorted_keys scaled_features in
  do feature_vector <-
    for_each (fun vector name =>
        do v <- subscript scaled_features name;
        ret (vector ++ [v]))
      feature_names [];
  ret (feature_vector, feature_names).

End Methods.

End FeatureVector.

(** ** [explain.py]: explanation text and batches *)

Module ExplainText.
Import FeatureEngineering Explain.

(** String operations of Python the text is built with: the [:.0f]
    rendering of a number and [str.lower]. *)
Class PyStr : Type := {
  format_0f : Q -> string;
  lower : string -> string
}.

(** [sep.join(xs)] *)
Fixpoint join (sep : string) (xs : list string) : string :=
  match xs with
  | [] => ""
  | [x] => x
  | x :: xs' => String.append x (String.append sep (join sep xs'))
  end.

(** The [if]/[elif] chain on the score. *)
Definition score_category (predicted_score : Q) : string * string :=
  if Qle_bool 80 predicted_score then ("excellent", "highly trusted")
  else if Qle_bool 60 predicted_score then ("good", "trusted")
  else if Qle_bool 40 predicted_score then ("moderate", "moderately trusted")
  else ("low", "low trust").

Section Text.
Context `{PyStr}.

Definition _generate_explanation_text (predicted_score : Q)
    (top_positive top_negative : list FeatureContribution) : string :=
  let '(score_category, trust_level) := score_category predicted_score in
  let explanation :=
    String.concat ""
      [ "This wallet has a "; score_category; " trust score of ";
        format_0f predicted_score; "/100, indicating it is "; trust_level; ". " ] in
  let explanation :=
    match top_positive with
    | [] => explanation
    | _ :: _ =>
        let positive_descriptions := map description top_positive in
        match positive_descriptions with
        | [d] =>
            String.append explanation
              (String.concat "" [ "The main positive factor is "; lower d; ". " ])
        | [d0; d1] =>
            String.append explanation
              (String.concat ""
                 [ "Key positive factors include "; lower d0; " and "; lower d1; ". " ])
        | _ =>
            String.append explanation
              (String.concat ""
                 [ "Key positive factors include ";
                   lower (join ", " (removelast positive_descriptions)); ", and ";
                   lower (List.last positive_descriptions ""); ". " ])
        end
    end in
  let explanation :=
    match top_negative with
    | [] => explanation
    | _ :: _ =>
        let negative_descriptions := map description top_negative in
        match negative_descriptions with
        | [d] =>
            String.append explanation
              (String.concat "" [ "The main concern is "; lower d; ". " ])
        | [d0; d1] =>
            String.append explanation
              (String.concat ""
                 [ "Areas of concern include "; lower d0; " and "; lower d1; ". " ])
        | _ =>
            String.append explanation
              (String.concat ""
                 [ "Areas of concern include ";
                   lower (join ", " (removelast negative_descriptions)); ", and ";
                   lower (List.last negative_descriptions ""); ". " ])
        end
    end in
  explanation.

(** The text [explain_prediction] stores in [explanation_text]: the three
    leading factors of each sign. *)
Definition explanation_text_of (explanation : TrustScoreExplanation) : string :=
  _generate_explanation_text (predicted_score explanation)
    (take 3 (top_positive_factors explanation))
    (take 3 (top_negative_factors explanation)).

End Text.

Section Batch.
Context `{Numpy}.

Definition batch_explain (self : TrustScoreExplainer)
    (wallet_data_list : list WalletData) : M (list TrustScoreExplanation) :=
  for_each (fun explanations wallet_data =>
      do explanation <- explain_prediction self wallet_data;
      ret (explanations ++ [explanation]))
    wallet_data_list [].

End Batch.

End ExplainText.

(** ** Vocabulary of the statements *)

Module Vocabulary.
Import FeatureEngineering Explain.

(** The shares [percentage / 100] of a token list. *)
Definition shares (tokens : list Token) : list Q :=
  map (fun token => (as_Q (get (percentage token) (int 0)) / as_Q (int 100))%Q) tokens.

(** [sum(p**2 for p in percentages)] with [p = percentage / 100]. *)
Definition herfindahl_sum (tokens : list Token) : Q :=
  py_sum (map (fun p => (p ^ 2)%Q) (shares tokens)).

Definition onchain_feature_names : gset string :=
  list_to_set
    [ "tx_count"; "tx_count_log"; "contract_interactions";
      "contract_interaction_ratio"; "unique_contracts"; "contract_diversity";
      "avg_tx_value"; "avg_tx_value_log"; "swap_frequency"; "swap_ratio";
      "bridge_transactions"; "bridge_ratio"; "portfolio_volatility";
      "portfolio_stability"; "token_count"; "token_concentration";
      "token_diversity"; "account_age"; "account_age_log"; "tx_per_day" ].

Definition offchain_feature_names : gset string :=
  list_to_set
    [ "has_ens"; "farcaster_followers"; "farcaster_followers_log";
      "has_farcaster"; "github_contributions"; "github_contributions_log";
      "has_github"; "social_signal_count"; "social_presence" ].

Definition composite_feature_names : gset string :=
  list_to_set [ "activity_social_score"; "trust_indicators"; "risk_indicators" ].

(** Every feature name the pipeline produces. *)
Definition all_feature_names : gset string :=
  onchain_feature_names ∪ offchain_feature_names ∪ composite_feature_names.

(** A signal that is absent, or present and not negative. *)
Definition nonneg_signal (field : option number) : Prop :=
  match field with Some v => (0 <= as_Q v)%Q | None => True end.

Definition nonneg_signals (w : WalletData) : Prop :=
  nonneg_signal (total_transactions w)
  /\ nonneg_signal (contract_interactions w)
  /\ nonneg_signal (unique_contracts_interacted w)
  /\ nonneg_signal (average_transaction_value w)
  /\ nonneg_signal (swap_frequency w)
  /\ nonneg_signal (bridge_transactions w)
  /\ nonneg_signal (portfolio_volatility w)
  /\ nonneg_signal (account_age w)
  /\ nonneg_signal (farcaster_followers w)
  /\ nonneg_signal (github_contributions w)
  /\ Forall (fun token => nonneg_signal (percentage token))
       (get (top_tokens w) []).

(** [2^53]: up to there an [int] and a [float] hold the same whole
    numbers. *)
Definition exact_bound : Q := 9007199254740992.

(** A count or an amount that is absent, or present, not negative and
    below [2^53]. *)
Definition count_signal (field : option number) : Prop :=
  match field with
  | Some v => (0 <= as_Q v)%Q /\ (as_Q v < exact_bound)%Q
  | None => True
  end.

(** A signal of either sign that is absent, or below [2^53] in
    magnitude. *)
Definition bounded_signal (field : option number) : Prop :=
  match field with
  | Some v => (- exact_bound < as_Q v)%Q /\ (as_Q v < exact_bound)%Q
  | None => True
  end.

(** [sum(token.get('percentage', 0) for token in tokens)] *)
Definition total_percentage (tokens : list Token) : Q :=
  py_sum (map (fun token => as_Q (get (percentage token) (int 0))) tokens).

(** Percentages that are shares of one portfolio: none is negative and
    together they make at most 100. *)
Definition portfolio_shares (tokens : list Token) : Prop :=
  Forall (fun token => nonneg_signal (percentage token)) tokens
  /\ (total_percentage tokens <= 100)%Q.

(** The records on which nothing but the volatility can make the pipeline
    fail: counts and amounts are not negative and below [2^53], the
    volatility is below [2^53] in magnitude, and the token percentages are
    shares of one portfolio. *)
Definition in_range (w : WalletData) : Prop :=
  count_signal (total_transactions w)
  /\ count_signal (contract_interactions w)
  /\ count_signal (unique_contracts_interacted w)
  /\ count_signal (average_transaction_value w)
  /\ count_signal (swap_frequency w)
  /\ count_signal (bridge_transactions w)
  /\ bounded_signal (portfolio_volatility w)
  /\ count_signal (account_age w)
  /\ count_signal (farcaster_followers w)
  /\ count_signal (github_contributions w)
  /\ portfolio_shares (get (top_tokens w) []).

(** What [a + b] returns when it returns. *)
Definition sum_of (a b : number) : number :=
  match a, b with
  | int n, int m => int (n + m)
  | _, _ => float (as_Q a + as_Q b)
  end.

(** A divisor floored at 1: [max(v, 1)]. *)
Definition floored (v : number) : Q := as_Q (py_max v (int 1)).

(** What [log_transform] returns when it returns. *)
Definition log_value `{Numpy} (self : FeatureEngineer) (v : number) : Q :=
  if use_log_transform (config self) then log1p (as_Q v) else as_Q v.

(** The dictionary [extract_onchain_features] returns when none of its
    operations fails. *)
Definition onchain_dictionary `{Numpy} (self : FeatureEngineer)
    (w : WalletData) : gmap string Q :=
  let tx_count := get (total_transactions w) (int 0) in
  let contract_interactions := get (contract_interactions w) (int 0) in
  let unique_contracts := get (unique_contracts_interacted w) (int 0) in
  let avg_tx_value := get (average_transaction_value w) (int 0) in
  let swap_frequency := get (swap_frequency w) (int 0) in
  let bridge_txs := get (bridge_transactions w) (int 0) in
  let portfolio_volatility := get (portfolio_volatility w) (int 0) in
  let top_tokens := get (top_tokens w) [] in
  let account_age := get (account_age w) (int 0) in
  let hhi := py_sum (map (fun p => (p ^ 2)%Q) (shares top_tokens)) in
  <["tx_per_day" := (as_Q tx_count / floored account_age)%Q]>
  (<["account_age_log" := log_value self account_age]>
  (<["account_age" := as_Q account_age]>
  (<["token_diversity" :=
       match top_tokens with [] => 0.0%Q | _ :: _ => (1 - hhi)%Q end]>
  (<["token_concentration" :=
       match top_tokens with [] => 1.0%Q | _ :: _ => hhi end]>
  (<["token_count" := Qlen top_tokens]>
  (<["portfolio_stability" :=
       (as_Q (int 1) / as_Q (sum_of (int 1) portfolio_volatility))%Q]>
  (<["portfolio_volatility" := as_Q portfolio_volatility]>
  (<["bridge_ratio" := (as_Q bridge_txs / floored tx_count)%Q]>
  (<["bridge_transactions" := as_Q bridge_txs]>
  (<["swap_ratio" := (as_Q swap_frequency / floored tx_count)%Q]>
  (<["swap_frequency" := as_Q swap_frequency]>
  (<["avg_tx_value_log" := log_value self avg_tx_value]>
  (<["avg_tx_value" := as_Q avg_tx_value]>
  (<["contract_diversity" :=
       (as_Q unique_contracts / floored contract_interactions)%Q]>
  (<["unique_contracts" := as_Q unique_contracts]>
  (<["contract_interaction_ratio" :=
       (as_Q contract_interactions / floored tx_count)%Q]>
  (<["contract_interactions" := as_Q contract_interactions]>
  (<["tx_count_log" := log_value self tx_count]>
  (<["tx_count" := as_Q tx_count]> ∅))))))))))))))))))).

(** [{**onchain_features, **offchain_features, **composite_features}] as
    [engineer_features] builds it when none of its steps fails. *)
Definition combined_features `{Numpy} (self : FeatureEngineer)
    (w : WalletData) : gmap string Q :=
  create_composite_features self (onchain_dictionary self w)
    (extract_offchain_features self w)
  ∪ (extract_offchain_features self w ∪ onchain_dictionary self w).

(** The record with no key at all: [{}]. *)
Definition empty_record : WalletData :=
  {| total_transactions := None; contract_interactions := None;
     unique_contracts_interacted := None; average_transaction_value := None;
     swap_frequency := None; bridge_transactions := None;
     portfolio_volatility := None; top_tokens := None; account_age := None;
     has_ens := None; farcaster_followers := None;
     github_contributions := None |}.

(** The sample record of the module's [__main__] block. *)
Definition sample_wallet_data : WalletData :=
  {| total_transactions := Some (int 150);
     contract_interactions := Some (int 45);
     unique_contracts_interacted := Some (int 12);
     average_transaction_value := Some (float 0.5);
     swap_frequency := Some (int 20);
     bridge_transactions := Some (int 3);
     portfolio_volatility := Some (float 0.8);
     top_tokens := Some
       [ {| percentage := Some (int 60); symbol := Some "USDC" |};
         {| percentage := Some (int 30); symbol := Some "ETH" |};
         {| percentage := Some (int 10); symbol := Some "ARB" |} ];
     account_age := Some (int 180);
     has_ens := Some true;
     farcaster_followers := Some (int 50);
     github_contributions := Some (int 25) |}.

(** A wallet that swapped, bridged and called contracts, with no
    [total_transactions] recorded. *)
Definition uncounted_wallet : WalletData :=
  {| total_transactions := None;
     contract_interactions := Some (int 2);
     unique_contracts_interacted := Some (int 5);
     average_transaction_value := None;
     swap_frequency := Some (int 20);
     bridge_transactions := Some (int 3);
     portfolio_volatility := None; top_tokens := None; account_age := None;
     has_ens := None; farcaster_followers := None;
     github_contributions := None |}.

(** The record with every absent key written out with the default the
    code reads it with. *)
Definition fill_defaults (w : WalletData) : WalletData :=
  {| total_transactions := Some (get (total_transactions w) (int 0));
     contract_interactions := Some (get (contract_interactions w) (int 0));
     unique_contracts_interacted :=
       Some (get (unique_contracts_interacted w) (int 0));
     average_transaction_value := Some (get (average_transaction_value w) (int 0));
     swap_frequency := Some (get (swap_frequency w) (int 0));
     bridge_transactions := Some (get (bridge_transactions w) (int 0));
     portfolio_volatility := Some (get (portfolio_volatility w) (int 0));
     top_tokens := Some (get (top_tokens w) []);
     account_age := Some (get (account_age w) (int 0));
     has_ens := Some (get (has_ens w) false);
     farcaster_followers := Some (get (farcaster_followers w) (int 0));
     github_contributions := Some (get (github_contributions w) (int 0)) |}.

(** A record whose volatility makes [1 + portfolio_volatility] zero. *)
Definition inverse_volatility_wallet : WalletData :=
  {| total_transactions := Some (int 10); contract_interactions := None;
     unique_contracts_interacted := None; average_transaction_value := None;
     swap_frequency := None; bridge_transactions := None;
     portfolio_volatility := Some (int (-1)); top_tokens := None;
     account_age := None; has_ens := None; farcaster_followers := None;
     github_contributions := None |}.

(** A record with a transaction count that fits no 64-bit integer. *)
Definition huge_count_wallet : WalletData :=
  {| total_transactions := Some (int (2 ^ 64)); contract_interactions := None;
     unique_contracts_interacted := None; average_transaction_value := None;
     swap_frequency := None; bridge_transactions := None;
     portfolio_volatility := None; top_tokens := None;
     account_age := None; has_ens := None; farcaster_followers := None;
     github_contributions := None |}.

(** A record with one token whose percentage is beyond any share: its
    square leaves the range of a double. *)
Definition huge_share_wallet : WalletData :=
  {| total_transactions := None; contract_interactions := None;
     unique_contracts_interacted := None; average_transaction_value := None;
     swap_frequency := None; bridge_transactions := None;
     portfolio_volatility := None;
     top_tokens := Some [ {| percentage := Some (int (10 ^ 200)); symbol := None |} ];
     account_age := None; has_ens := None; farcaster_followers := None;
     github_contributions := None |}.

(** What one pass of the outlier loop makes of the value [v] of [name]. *)
Definition clip_value (self : FeatureEngineer) (name : string) (v : Q) : Q :=
  match stats_mean (feature_stats self) !! name,
        stats_std (feature_stats self) !! name with
  | Some mean, Some std =>
      if is_fitted self
         && Qgtb (Qabs (v - mean)) (outlier_threshold (config self) * std)
      then (mean + Qsign (v - mean) * outlier_threshold (config self) * std)%Q
      else v
  | _, _ => v
  end.

(** Fitted statistics as [fit_scalers] leaves them: a standard deviation
    for every feature that has a mean. *)
Definition stats_consistent (self : FeatureEngineer) : Prop :=
  is_fitted self = true ->
  forall name, is_Some (stats_mean (feature_stats self) !! name) ->
               is_Some (stats_std (feature_stats self) !! name).

(** An engineer fitted on transaction counts of mean 10 and standard
    deviation 2. *)
Definition fitted_engineer : FeatureEngineer :=
  {| config := default_config;
     scalers := ∅;
     feature_stats :=
       {| stats_mean := {[ "tx_count" := 10%Q ]};
          stats_std := {[ "tx_count" := 2%Q ]};
          stats_min := {[ "tx_count" := 6%Q ]};
          stats_max := {[ "tx_count" := 14%Q ]};
          stats_median := {[ "tx_count" := 10%Q ]} |};
     is_fitted := true |}.

(** The value a returned dictionary holds for [name], reduced to lowest
    terms; [None] when the computation raised or the key is missing. *)
Definition returned_feature (outcome : M (gmap string Q)) (name : string)
    : option Q :=
  match result outcome with
  | inr features => Qred <$> features !! name
  | inl _ => None
  end.

(** What a computation returned; [None] when it raised. *)
Definition returned {A} (outcome : M A) : option A :=
  match result outcome with
  | inr a => Some a
  | inl _ => None
  end.

(** A computation that emits nothing and, when it returns, returns [v]. *)
Definition settles {A} (m : M A) (v : A) : Prop :=
  m = ret v \/ exists e, m = raise e.

(** The share of [names] whose scaled value passes [test]. *)
Definition fraction_of (test : Q -> bool) (scaled_features : gmap string Q)
    (names : list string) : Q :=
  (Qlen (filter (fun name => Is_true (test (get (scaled_features !! name) 0%Q))) names)
   / Qlen names)%Q.

(** The three components of the confidence score, as the specification
    words them. *)
Definition availability_component (names : list string)
    (scaled_features : gmap string Q) : Q :=
  (fraction_of (fun v => Qneb v 0) scaled_features names * 40)%Q.

Definition magnitude_component (contributions : list FeatureContribution) : Q :=
  let total_importance := py_sum (map importance contributions) in
  if Qgtb total_importance 0
  then (Qmin (total_importance / 20) 1.0 * 30)%Q
  else 0%Q.

Definition quality_component (scaled_features : gmap string Q) : Q :=
  (fraction_of (fun v => Qgtb v 0) scaled_features
     [ "tx_count_log"; "account_age_log"; "contract_interaction_ratio";
       "has_ens"; "social_presence" ] * 30)%Q.

(** [value * weight * 100] for one feature name. *)
Definition raw_contribution (self : TrustScoreExplainer)
    (scaled_features : gmap string Q) (name : string) : Q :=
  (get (scaled_features !! name) 0
   * get (get_feature_importance_weights (feature_engineer self) !! name) 0.01
   * 100)%Q.

(** The entry the first loop of the deterministic path appends. *)
Definition raw_entry (self : TrustScoreExplainer)
    (scaled_features : gmap string Q) (name : string) : FeatureContribution :=
  {| feature_name := name;
     value := get (scaled_features !! name) 0%Q;
     contribution := raw_contribution self scaled_features name;
     importance := Qabs (raw_contribution self scaled_features name);
     description := get (feature_descriptions !! name) name |}.

(** The sum of [|raw_contribution|] over the declared feature names. *)
Definition normalization_base (self : TrustScoreExplainer)
    (scaled_features : gmap string Q) : Q :=
  py_sum (map (fun name => Qabs (raw_contribution self scaled_features name))
            (feature_names self)).

Definition sum_contributions (contributions : list FeatureContribution) : Q :=
  py_sum (map contribution contributions).

(** The scaled dictionary [explain_prediction] works on. *)
Definition scaled_features_of `{Numpy} (self : TrustScoreExplainer)
    (wallet_data : WalletData) : M (gmap string Q) :=
  do features <- engineer_features (feature_engineer self) wallet_data;
  transform_features (feature_engineer self) features.

(** An ENS holder trading twenty times a day with volatility 2. *)
Definition volatile_ens_wallet : WalletData :=
  {| total_transactions := Some (int 100); contract_interactions := None;
     unique_contracts_interacted := None; average_transaction_value := None;
     swap_frequency := None; bridge_transactions := None;
     portfolio_volatility := Some (int 2); top_tokens := None;
     account_age := Some (int 5); has_ens := Some true;
     farcaster_followers := None; github_contributions := None |}.

(** No SHAP explainer; the model scores every wallet 60. *)
Definition fallback_explainer : TrustScoreExplainer :=
  {| model := fun _ => 60%Q;
     feature_engineer := new None;
     feature_names := [ "has_ens"; "risk_indicators" ];
     explainer := None |}.

(** A SHAP explainer that raises on every call; the model scores every
    wallet 60. *)
Definition failing_explainer : TrustScoreExplainer :=
  {| model := fun _ => 60%Q;
     feature_engineer := new None;
     feature_names := [ "has_ens" ];
     explainer := Some (fun _ => inl (ExternalError "shap_values failed")) |}.

(** The engineers that have seen nothing but failed calls of [fit_scalers]
    since they were constructed. *)
Inductive unfitted_history `{Fitting} : FeatureEngineer -> Prop :=
| history_new (cfg : option FeatureConfig) : unfitted_history (new cfg)
| history_failed_fit (self : FeatureEngineer) (feature_data : list (gmap string Q))
    (e : exn) :
    unfitted_history self ->
    result (snd (fit_scalers self feature_data)) = inl e ->
    unfitted_history (fst (fit_scalers self feature_data)).

(** A pandas / scikit-learn stand-in for closed examples: no column, no
    statistics, the identity scaler. *)
Definition constant_fitting : Fitting :=
  {| df_columns := fun _ => [];
     df_column := fun _ _ => [];
     df_stats := fun _ => no_stats;
     scaler_fit := fun _ _ => {| center_ := 0; scale_ := 1 |} |}.

(** Scaled values with raw contributions of one sign: an ENS holder with
    full social presence. *)
Definition social_explainer : TrustScoreExplainer :=
  {| model := fun _ => 40%Q;
     feature_engineer := new None;
     feature_names := [ "has_ens"; "social_presence" ];
     explainer := None |}.

(** The sample the SHAP path reads: the vector itself, or the first row of
    a matrix. *)
Definition first_sample (shap_values : ShapValues) : option (list Q) :=
  match shap_values with
  | Shap1D row => Some row
  | Shap2D [] => None
  | Shap2D (row :: _) => Some row
  end.

(** The entry the SHAP loop appends for one name and its SHAP value. *)
Definition shap_entry (scaled_features : gmap string Q) (name : string)
    (shap_value : Q) : FeatureContribution :=
  {| feature_name := name;
     value := get (scaled_features !! name) 0%Q;
     contribution := shap_value;
     importance := Qabs shap_value;
     description := get (feature_descriptions !! name) name |}.

(** A SHAP explainer that answers with fixed values. *)
Definition constant_shap_explainer (values : ShapValues) : TrustScoreExplainer :=
  {| model := fun _ => 60%Q;
     feature_engineer := new None;
     feature_names := [ "has_ens"; "risk_indicators" ];
     explainer := Some (fun _ => inr values) |}.

(** [list.sort(key=contribution, reverse=True)] and
    [list.sort(key=contribution)] as orders on entries. *)
Definition descending (x y : FeatureContribution) : Prop :=
  (contribution y <= contribution x)%Q.
Definition ascending (x y : FeatureContribution) : Prop :=
  (contribution x <= contribution y)%Q.

(** The entries of positive and of negative contribution. *)
Definition positive_entries (contributions : list FeatureContribution)
    : list FeatureContribution :=
  filter (fun c => Is_true (Qgtb (contribution c) 0)) contributions.
Definition negative_entries (contributions : list FeatureContribution)
    : list FeatureContribution :=
  filter (fun c => Is_true (Qgtb 0 (contribution c))) contributions.

(** An explainer with no declared feature name. *)
Definition nameless_explainer : TrustScoreExplainer :=
  {| model := fun _ => 60%Q;
     feature_engineer := new None;
     feature_names := [];
     explainer := None |}.

(** A fitted engineer with statistics and a scaler for the transaction
    count: mean 10, standard deviation 2, a scaler centred on 10 with
    scale 2. *)
Definition trained_engineer : FeatureEngineer :=
  {| config := default_config;
     scalers := {[ "tx_count" := {| center_ := 10%Q; scale_ := 2%Q |} ]};
     feature_stats := feature_stats fitted_engineer;
     is_fitted := true |}.

(** Explainers on the trained engineer: two declared names, and none. *)
Definition trained_explainer : TrustScoreExplainer :=
  {| model := fun _ => 60%Q;
     feature_engineer := trained_engineer;
     feature_names := [ "has_ens"; "risk_indicators" ];
     explainer := None |}.

Definition trained_nameless_explainer : TrustScoreExplainer :=
  {| model := fun _ => 60%Q;
     feature_engineer := trained_engineer;
     feature_names := [];
     explainer := None |}.

(** A stand-in for Python's string rendering in closed examples. *)
Definition plain_strings : ExplainText.PyStr :=
  {| ExplainText.format_0f := fun _ => "80"; ExplainText.lower := fun s => s |}.

(** Statements hold for every [Numpy] instance; closed examples are
    evaluated at this one, and none of them depends on its values. *)
Definition sample_numpy : Numpy :=
  {| log1p := fun x => x; sqrt := fun x => x |}.

(** A pandas / scikit-learn stand-in with columns: the keys of the first
    row, the values present in each row, and a scaler centred on the first
    value. *)
Definition first_row_fitting : Fitting :=
  {| df_columns := fun rows =>
       match rows with [] => [] | row :: _ => elements (dom row) end;
     df_column := fun rows column => omap (fun row : gmap string Q => row !! column) rows;
     df_stats := fun _ => no_stats;
     scaler_fit := fun _ values =>
       {| center_ := match values with [] => 0%Q | v :: _ => v end;
          scale_ := 1%Q |} |}.

(** A fitted engineer with one scaler, centred on 10 with scale 2. *)
Definition scaling_engineer : FeatureEngineer :=
  {| config := default_config;
     scalers := {[ "tx_count" := {| center_ := 10%Q; scale_ := 2%Q |} ]};
     feature_stats := no_stats;
     is_fitted := true |}.

(** Fitted spreads that are not negative once multiplied by the
    threshold. *)
Definition nonneg_spread (self : FeatureEngineer) : Prop :=
  forall name std,
    stats_std (feature_stats self) !! name = Some std ->
    (0 <= outlier_threshold (config self) * std)%Q.

(** The same engineer with [config.handle_outliers] set to [b]. *)
Definition with_handle_outliers (b : bool) (self : FeatureEngineer) : FeatureEngineer :=
  {| config :=
       {| use_log_transform := use_log_transform (config self);
          use_robust_scaling := use_robust_scaling (config self);
          handle_outliers := b;
          outlier_threshold := outlier_threshold (config self);
          min_transactions_threshold := min_transactions_threshold (config self) |};
     scalers := scalers self;
     feature_stats := feature_stats self;
     is_fitted := is_fitted self |}.

(** The scaled dictionary [create_feature_vector] orders. *)
Definition scaled_features_for `{Numpy} (feature_engineer : FeatureEngineer)
    (wallet_data : WalletData) : M (gmap string Q) :=
  do features <- engineer_features feature_engineer wallet_data;
  transform_features feature_engineer features.

(** The thirty-two feature names in ascending order. *)
Definition feature_order : list string :=
  [ "account_age"; "account_age_log"; "activity_social_score";
    "avg_tx_value"; "avg_tx_value_log"; "bridge_ratio"; "bridge_transactions";
    "contract_diversity"; "contract_interaction_ratio"; "contract_interactions";
    "farcaster_followers"; "farcaster_followers_log"; "github_contributions";
    "github_contributions_log"; "has_ens"; "has_farcaster"; "has_github";
    "portfolio_stability"; "portfolio_volatility"; "risk_indicators";
    "social_presence"; "social_signal_count"; "swap_frequency"; "swap_ratio";
    "token_concentration"; "token_count"; "token_diversity";
    "trust_indicators"; "tx_count"; "tx_count_log"; "tx_per_day";
    "unique_contracts" ].

End Vocabulary.

Import Vocabulary.

(** * Properties *)

(** ** The effect monad and rational tests *)

Module PyFacts.

Lemma bind_ret_l {A B} (a : A) (k : A -> M B) : bind (ret a) k = k a.
Proof. unfold bind, ret. destruct (k a) as [l r]. reflexivity. Qed.

Lemma bind_raise {A B} (e : exn) (k : A -> M B) : bind (raise e) k = raise e.
Proof. reflexivity. Qed.

Lemma bind_inr {A B} (m : M A) (k : A -> M B) l b :
  bind m k = (l, inr b) ->
  exists l1 a l2, m = (l1, inr a) /\ k a = (l2, inr b) /\ l = l1 ++ l2.
Proof.
  destruct m as [l1 [e | a]]; simpl; [discriminate |].
  destruct (k a) as [l2 r] eqn:Hk. intros [= <- ->].
  exists l1, a, l2. rewrite Hk. auto.
Qed.

Lemma Qgtb_true (a b : Q) : Qgtb a b = true <-> (b < a)%Q.
Proof.
  unfold Qgtb. rewrite negb_true_iff, <- not_true_iff_false, Qle_bool_iff.
  split; [apply Qnot_le_lt | apply Qlt_not_le].
Qed.

Lemma Qgtb_false (a b : Q) : Qgtb a b = false <-> (a <= b)%Q.
Proof. unfold Qgtb. rewrite negb_false_iff. apply Qle_bool_iff. Qed.

Lemma Qneb_true (a b : Q) : Qneb a b = true <-> ~ (a == b)%Q.
Proof.
  unfold Qneb. rewrite negb_true_iff, <- not_true_iff_false, Qeq_bool_iff.
  reflexivity.
Qed.

Lemma Qsign_pos (x : Q) : (0 < x)%Q -> Qsign x = 1%Q.
Proof.
  destruct x as [[| p | p] d]; unfold Qlt; simpl; intros Hx; try lia. reflexivity.
Qed.

Lemma Qsign_neg (x : Q) : (x < 0)%Q -> Qsign x = (-1)%Q.
Proof.
  destruct x as [[| p | p] d]; unfold Qlt; simpl; intros Hx; try lia. reflexivity.
Qed.

Lemma Qsign_zero (x : Q) : (x == 0)%Q -> Qsign x = 0%Q.
Proof.
  destruct x as [[| p | p] d]; unfold Qeq; simpl; intros Hx; try lia. reflexivity.
Qed.

Lemma py_div_nonzero (a b : Q) : ~ (b == 0)%Q -> py_div a b = ret (a / b)%Q.
Proof.
  intros Hb. unfold py_div. destruct (Qeq_bool b 0) eqn:E; [| reflexivity].
  apply Qeq_bool_iff in E. contradiction.
Qed.

Lemma py_div_zero (a b : Q) : (b == 0)%Q -> py_div a b = raise ZeroDivisionError.
Proof.
  intros Hb. unfold py_div. apply Qeq_bool_iff in Hb. rewrite Hb. reflexivity.
Qed.

Lemma Qmax_1_pos (b : Q) : (1 <= Qmax b 1)%Q.
Proof. apply Q.le_max_r. Qed.

(** A denominator floored at 1 never raises. *)
Lemma py_div_floor (a b : Q) : py_div a (Qmax b 1) = ret (a / Qmax b 1)%Q.
Proof.
  apply py_div_nonzero. pose proof (Qmax_1_pos b). intros E. rewrite E in *. lra.
Qed.

(** [sum] adds from the left, starting at 0. *)
Lemma fold_left_Qplus (xs : list Q) (a : Q) :
  (fold_left Qplus xs a == a + fold_right Qplus 0 xs)%Q.
Proof.
  revert a. induction xs as [| x xs IH]; intros a; simpl.
  - ring.
  - rewrite IH. ring.
Qed.

Lemma py_sum_cons (x : Q) (xs : list Q) : (py_sum (x :: xs) == x + py_sum xs)%Q.
Proof.
  unfold py_sum. simpl. rewrite (fold_left_Qplus xs (0 + x)), (fold_left_Qplus xs 0).
  ring.
Qed.

Lemma py_sum_nil : py_sum [] = 0%Q.
Proof. reflexivity. Qed.

(** *** Numbers *)

Lemma exact_bound_below_overflow : (exact_bound < float_overflow)%Q.
Proof. vm_compute. reflexivity. Qed.

Lemma overflows_within (b q : Q) :
  (b < float_overflow)%Q -> (- b < q)%Q -> (q < b)%Q -> overflows q = false.
Proof.
  intros Hb Hlo Hhi. unfold overflows.
  destruct (Qle_bool float_overflow (Qabs q)) eqn:E; [| reflexivity].
  apply Qle_bool_iff in E.
  assert (Habs : (Qabs q < b)%Q).
  { apply Qabs_case; intros _; lra. }
  lra.
Qed.

Lemma overflows_false (q : Q) :
  (- exact_bound < q)%Q -> (q < exact_bound)%Q -> overflows q = false.
Proof. apply overflows_within, exact_bound_below_overflow. Qed.

Lemma as_float_within (b : Q) (v : number) :
  (b < float_overflow)%Q -> (- b < as_Q v)%Q -> (as_Q v < b)%Q ->
  as_float v = ret (as_Q v).
Proof.
  intros Hb Hlo Hhi. destruct v as [n | x]; [| reflexivity].
  cbn [as_float as_Q] in *. rewrite (overflows_within b) by assumption. reflexivity.
Qed.

Lemma overflows_true (q : Q) : (float_overflow <= Qabs q)%Q -> overflows q = true.
Proof. intros Hq. unfold overflows. apply Qle_bool_iff, Hq. Qed.

Lemma as_float_returns (v : number) :
  (- exact_bound < as_Q v)%Q -> (as_Q v < exact_bound)%Q ->
  as_float v = ret (as_Q v).
Proof.
  intros Hlo Hhi. destruct v as [n | x]; [| reflexivity].
  cbn [as_float as_Q] in *. rewrite overflows_false by assumption. reflexivity.
Qed.

Lemma inject_Z_nonzero (m : Z) : (m =? 0)%Z = false <-> ~ (inject_Z m == 0)%Q.
Proof.
  rewrite Z.eqb_neq. unfold Qeq. cbn [Qnum Qden inject_Z]. lia.
Qed.

(** A division whose operands convert and whose quotient stays in range
    returns the quotient. *)
Lemma truediv_returns (a b : number) :
  as_float a = ret (as_Q a) ->
  as_float b = ret (as_Q b) ->
  ~ (as_Q b == 0)%Q ->
  overflows (as_Q a / as_Q b) = false ->
  truediv a b = ret (as_Q a / as_Q b)%Q.
Proof.
  intros Ha Hb Hnz Hfin.
  assert (Hz : Qeq_bool (as_Q b) 0 = false).
  { destruct (Qeq_bool (as_Q b) 0) eqn:E; [| reflexivity].
    apply Qeq_bool_iff in E. contradiction. }
  destruct a as [n | x], b as [m | y]; unfold truediv.
  - cbn [as_Q] in *. apply inject_Z_nonzero in Hnz. rewrite Hnz, Hfin. reflexivity.
  - rewrite Ha, bind_ret_l, Hb, bind_ret_l, Hz. reflexivity.
  - rewrite Ha, bind_ret_l, Hb, bind_ret_l, Hz. reflexivity.
  - rewrite Ha, bind_ret_l, Hb, bind_ret_l, Hz. reflexivity.
Qed.

Lemma truediv_zero (a b : number) :
  as_float a = ret (as_Q a) ->
  as_float b = ret (as_Q b) ->
  (as_Q b == 0)%Q ->
  truediv a b = raise ZeroDivisionError.
Proof.
  intros Ha Hb Hz.
  assert (Hz' : Qeq_bool (as_Q b) 0 = true) by (apply Qeq_bool_iff, Hz).
  destruct a as [n | x], b as [m | y]; unfold truediv.
  - cbn [as_Q] in *.
    destruct (m =? 0)%Z eqn:E; [reflexivity |].
    apply inject_Z_nonzero in E. contradiction.
  - rewrite Ha, bind_ret_l, Hb, bind_ret_l, Hz'. reflexivity.
  - rewrite Ha, bind_ret_l, Hb, bind_ret_l, Hz'. reflexivity.
  - rewrite Ha, bind_ret_l, Hb, bind_ret_l, Hz'. reflexivity.
Qed.

(** The inverse of a whole number other than 0 is within [-1, 1]. *)
Lemma Qinv_int_bounds (m : Z) :
  ~ (inject_Z m == 0)%Q -> (-1 <= 1 / inject_Z m <= 1)%Q.
Proof.
  intros Hnz.
  assert (Hcases : (1 <= inject_Z m)%Q \/ (inject_Z m <= -1)%Q).
  { destruct (Z_lt_le_dec m 1) as [Hlt | Hge].
    - right. change (-1)%Q with (inject_Z (-1)). rewrite <- Zle_Qle.
      assert (m <> 0%Z) by (intros ->; apply Hnz; reflexivity). lia.
    - left. change 1%Q with (inject_Z 1). rewrite <- Zle_Qle. exact Hge. }
  destruct Hcases as [Hpos | Hneg].
  - split.
    + apply Qle_trans with 0%Q; [discriminate |]. apply Qle_shift_div_l; lra.
    + apply Qle_shift_div_r; lra.
  - assert (E : (1 / inject_Z m == - (1 / - inject_Z m))%Q) by (field; lra).
    assert (H0 : (0 <= 1 / - inject_Z m)%Q) by (apply Qle_shift_div_l; lra).
    assert (H1 : (1 / - inject_Z m <= 1)%Q) by (apply Qle_shift_div_r; lra).
    rewrite E. split; lra.
Qed.

(** [1 / d] never overflows: an [int] divisor is at least 1 in
    magnitude. *)
Lemma truediv_one (d : number) :
  as_float d = ret (as_Q d) ->
  ~ (as_Q d == 0)%Q ->
  truediv (int 1) d = ret (as_Q (int 1) / as_Q d)%Q.
Proof.
  intros Hd Hnz.
  destruct d as [m | y].
  - apply truediv_returns; [reflexivity | exact Hd | exact Hnz |].
    cbn [as_Q] in *. destruct (Qinv_int_bounds m Hnz) as [Hlo Hhi].
    change (inject_Z 1) with 1%Q.
    assert (Hb : (1 < exact_bound)%Q) by (vm_compute; reflexivity).
    apply overflows_false; lra.
  - unfold truediv. cbn [as_float as_Q] in *.
    replace (overflows (inject_Z 1)) with false by (vm_compute; reflexivity).
    rewrite !bind_ret_l.
    destruct (Qeq_bool y 0) eqn:E; [| reflexivity].
    apply Qeq_bool_iff in E. contradiction.
Qed.

Lemma py_add_one (v : number) : py_add (int 1) v = ret (sum_of (int 1) v).
Proof. destruct v; reflexivity. Qed.

Lemma as_Q_sum_of_one (v : number) : (as_Q (sum_of (int 1) v) == 1 + as_Q v)%Q.
Proof.
  destruct v as [n | x]; cbn [sum_of as_Q]; [| reflexivity].
  rewrite inject_Z_plus. reflexivity.
Qed.

(** [max(v, 1)] is [v] or [1], and at least 1. *)
Lemma floored_ge_1 (v : number) : (1 <= floored v)%Q.
Proof.
  unfold floored, py_max. destruct (Qgtb (as_Q (int 1)) (as_Q v)) eqn:E.
  - apply Qle_refl.
  - apply Qgtb_false in E. exact E.
Qed.

Lemma floored_Qmax (v : number) : (floored v == Qmax (as_Q v) 1)%Q.
Proof.
  unfold floored, py_max. destruct (Qgtb (as_Q (int 1)) (as_Q v)) eqn:E.
  - apply Qgtb_true in E. symmetry. apply Q.max_r. apply Qlt_le_weak, E.
  - apply Qgtb_false in E. symmetry. apply Q.max_l, E.
Qed.

Lemma floored_bounds (v : number) :
  (as_Q v < exact_bound)%Q -> (floored v < exact_bound)%Q.
Proof.
  intros Hv. unfold floored, py_max.
  destruct (Qgtb (as_Q (int 1)) (as_Q v)); [vm_compute; reflexivity | exact Hv].
Qed.

(** A quotient by a divisor floored at 1: nothing fails in range, and
    the quotient is no larger than the dividend. *)
Lemma Qdiv_floor_le (a d : Q) :
  (0 <= a)%Q -> (1 <= d)%Q -> (0 <= a / d)%Q /\ (a / d <= a)%Q.
Proof.
  intros Ha Hd. split.
  - apply Qle_shift_div_l; lra.
  - apply Qle_shift_div_r; [lra |]. nra.
Qed.

Lemma truediv_floored (a b : number) :
  (0 <= as_Q a)%Q -> (as_Q a < exact_bound)%Q ->
  (as_Q b < exact_bound)%Q ->
  truediv a (py_max b (int 1)) = ret (as_Q a / floored b)%Q.
Proof.
  intros Ha0 Ha Hb.
  pose proof (floored_ge_1 b) as H1. pose proof (floored_bounds b Hb) as H2.
  assert (Hpos : (0 < exact_bound)%Q) by (vm_compute; reflexivity).
  destruct (Qdiv_floor_le (as_Q a) (floored b) Ha0 H1) as [Hq0 Hq].
  apply truediv_returns.
  - apply as_float_returns; lra.
  - apply as_float_returns; fold (floored b); lra.
  - fold (floored b). lra.
  - fold (floored b). apply overflows_false; lra.
Qed.

(** *** numpy *)

Lemma np_float64_returns (v : number) :
  (0 <= as_Q v)%Q -> (as_Q v < exact_bound)%Q -> np_float64 v = ret (as_Q v).
Proof.
  intros Hlo Hhi. destruct v as [n | x]; [| reflexivity].
  unfold np_float64. cbn [as_Q] in *.
  assert (Hn : (0 <= n < 9007199254740992)%Z).
  { unfold Qle, Qlt in *. cbn [Qnum Qden inject_Z exact_bound] in *. lia. }
  assert (E63 : (- 2 ^ 63 = -9223372036854775808)%Z) by reflexivity.
  assert (E64 : (2 ^ 64 = 18446744073709551616)%Z) by reflexivity.
  rewrite E63, E64.
  destruct (Z.leb_spec (-9223372036854775808) n); [| lia].
  destruct (Z.ltb_spec n 18446744073709551616); [| lia].
  reflexivity.
Qed.

Section NumpyCalls.
Context `{Numpy}.

Lemma np_log1p_returns (v : number) :
  (0 <= as_Q v)%Q -> (as_Q v < exact_bound)%Q -> np_log1p v = ret (log1p (as_Q v)).
Proof.
  intros Hlo Hhi. unfold np_log1p.
  rewrite np_float64_returns, bind_ret_l by assumption.
  destruct (Qle_bool (as_Q v) (-1)) eqn:E; [| reflexivity].
  apply Qle_bool_iff in E. lra.
Qed.

Lemma np_sqrt_returns (v : number) :
  (0 <= as_Q v)%Q -> (as_Q v < exact_bound)%Q -> np_sqrt v = ret (sqrt (as_Q v)).
Proof.
  intros Hlo Hhi. unfold np_sqrt.
  rewrite np_float64_returns, bind_ret_l by assumption.
  destruct (Qgtb 0 (as_Q v)) eqn:E; [| reflexivity].
  apply Qgtb_true in E. lra.
Qed.

End NumpyCalls.

(** *** Computations that emit nothing *)

Lemma settles_ret {A} (v : A) : settles (ret v) v.
Proof. left. reflexivity. Qed.

Lemma settles_raise {A} (e : exn) (v : A) : settles (raise e) v.
Proof. right. exists e. reflexivity. Qed.

Lemma settles_bind {A B} (m : M A) (k : A -> M B) (a : A) (b : B) :
  settles m a -> settles (k a) b -> settles (bind m k) b.
Proof.
  intros [-> | [e ->]] Hk.
  - rewrite bind_ret_l. exact Hk.
  - right. exists e. reflexivity.
Qed.

Lemma settles_inr {A} (m : M A) (v : A) l a :
  settles m v -> m = (l, inr a) -> l = [] /\ a = v.
Proof.
  intros [-> | [e ->]]; unfold ret, raise; intros [= <- <-]; auto.
Qed.

Lemma settles_emitted {A} (m : M A) (v : A) : settles m v -> emitted m = [].
Proof. intros [-> | [e ->]]; reflexivity. Qed.

Lemma settles_if {A} (b : bool) (m1 m2 : M A) (v : A) :
  settles m1 v -> settles m2 v -> settles (if b then m1 else m2) v.
Proof. destruct b; auto. Qed.

Lemma as_float_settles (v : number) : settles (as_float v) (as_Q v).
Proof.
  destruct v as [n | x]; cbn [as_float as_Q]; [| apply settles_ret].
  apply settles_if; [apply settles_raise | apply settles_ret].
Qed.

Lemma truediv_settles (a b : number) :
  settles (truediv a b) (as_Q a / as_Q b)%Q.
Proof.
  assert (Hmixed : settles (do x <- as_float a; do y <- as_float b;
                            if Qeq_bool y 0 then raise ZeroDivisionError
                            else ret (x / y)%Q)
                     (as_Q a / as_Q b)%Q).
  { eapply settles_bind; [apply as_float_settles |].
    eapply settles_bind; [apply as_float_settles |].
    apply settles_if; [apply settles_raise | apply settles_ret]. }
  destruct a as [n | x], b as [m | y]; unfold truediv; try exact Hmixed.
  apply settles_if; [apply settles_raise |].
  apply settles_if; [apply settles_raise | apply settles_ret].
Qed.

Lemma py_add_settles (a b : number) : settles (py_add a b) (sum_of a b).
Proof.
  assert (Hmixed : settles (do x <- as_float a; do y <- as_float b;
                            ret (float (x + y)))
                     (float (as_Q a + as_Q b))).
  { eapply settles_bind; [apply as_float_settles |].
    eapply settles_bind; [apply as_float_settles |].
    apply settles_ret. }
  destruct a as [n | x], b as [m | y]; unfold py_add, sum_of; try exact Hmixed.
  apply settles_ret.
Qed.

Lemma py_pow2_settles (p : Q) : settles (py_pow2 p) (p ^ 2)%Q.
Proof. apply settles_if; [apply settles_raise | apply settles_ret]. Qed.

Lemma finite_settles (q : Q) : settles (finite q) q.
Proof. apply settles_if; [apply settles_raise | apply settles_ret]. Qed.

Lemma np_float64_settles (v : number) : settles (np_float64 v) (as_Q v).
Proof.
  destruct v as [n | x]; cbn [np_float64 as_Q]; [| apply settles_ret].
  apply settles_if; [apply settles_ret | apply settles_raise].
Qed.

Lemma np_log1p_settles `{Numpy} (v : number) :
  settles (np_log1p v) (log1p (as_Q v)).
Proof.
  eapply settles_bind; [apply np_float64_settles |].
  apply settles_if; [apply settles_raise | apply settles_ret].
Qed.

Lemma np_sqrt_settles `{Numpy} (v : number) :
  settles (np_sqrt v) (sqrt (as_Q v)).
Proof.
  eapply settles_bind; [apply np_float64_settles |].
  apply settles_if; [apply settles_raise | apply settles_ret].
Qed.

Lemma for_each_collect_settles {A B} (f : A -> M B) (g : A -> B) (xs : list A) :
  (forall x, settles (f x) (g x)) ->
  forall acc,
    settles (for_each (fun ys x => bind (f x) (fun y => ret (ys ++ [y]))) xs acc)
      (acc ++ map g xs).
Proof.
  intros Hf. induction xs as [| x xs IH]; intros acc; cbn [for_each map].
  - rewrite app_nil_r. apply settles_ret.
  - eapply settles_bind.
    + eapply settles_bind; [apply Hf | apply settles_ret].
    + replace (acc ++ g x :: map g xs) with ((acc ++ [g x]) ++ map g xs)
        by (rewrite <- app_assoc; reflexivity).
      apply IH.
Qed.

Lemma collect_settles {A B} (f : A -> M B) (g : A -> B) (xs : list A) :
  (forall x, settles (f x) (g x)) -> settles (collect f xs) (map g xs).
Proof. intros Hf. apply (for_each_collect_settles f g xs Hf []). Qed.

Lemma for_each_collect_returns {A B} (f : A -> M B) (g : A -> B) (xs : list A) :
  Forall (fun x => f x = ret (g x)) xs ->
  forall acc,
    for_each (fun ys x => bind (f x) (fun y => ret (ys ++ [y]))) xs acc
    = ret (acc ++ map g xs).
Proof.
  induction 1 as [| x xs Hx _ IH]; intros acc; cbn [for_each map].
  - rewrite app_nil_r. reflexivity.
  - rewrite Hx, !bind_ret_l, IH, <- app_assoc. reflexivity.
Qed.

Lemma collect_returns {A B} (f : A -> M B) (g : A -> B) (xs : list A) :
  Forall (fun x => f x = ret (g x)) xs -> collect f xs = ret (map g xs).
Proof. intros Hf. apply (for_each_collect_returns f g xs Hf []). Qed.


End PyFacts.

Import PyFacts.

(** ** Feature engineering *)

Module FeatureEngineeringFacts.
Import FeatureEngineering.

(** *** Scaler fitting, scaling and persistence *)

(** C7.  Fitting on an empty batch raises the [ValueError] of
    [fit_scalers] (the configuration error of the specification), emits
    nothing, and leaves the engineer as it was: no scaler is added and
    the fitted flag keeps its value.  The empty batch is the only one on
    which fitting fails. *)
Theorem fit_scalers_empty_batch `{Fitting} (self : FeatureEngineer) :
  fit_scalers self [] =
    (self, ([], inl (ValueError "No feature data provided for fitting scalers")))
  /\ forall feature_data e,
       result (snd (fit_scalers self feature_data)) = inl e ->
       feature_data = []
       /\ fst (fit_scalers self feature_data) = self
       /\ scalers (fst (fit_scalers self feature_data)) = scalers self
       /\ is_fitted (fst (fit_scalers self feature_data)) = is_fitted self.
Proof.
  split; [reflexivity |].
  intros feature_data e Hfail.
  destruct feature_data as [| row rows].
  - repeat split.
  - discriminate Hfail.
Qed.

Lemma fit_scalers_empty_batch_fresh :
  @fit_scalers constant_fitting (new None) [] =
    (new None, ([], inl (ValueError "No feature data provided for fitting scalers")))
  /\ scalers (fst (@fit_scalers constant_fitting (new None) [])) = ∅
  /\ is_fitted (fst (@fit_scalers constant_fitting (new None) [])) = false.
Proof.
  destruct (@fit_scalers_empty_batch constant_fitting (new None)) as [Hraise Honly].
  destruct (Honly [] (ValueError "No feature data provided for fitting scalers"))
    as (_ & _ & Hscalers & Hfitted); [reflexivity |].
  split; [exact Hraise |]. split; [exact Hscalers | exact Hfitted].
Defined.

(** Failed fits leave an engineer unfitted and without scalers. *)
Lemma unfitted_history_spec `{Fitting} (self : FeatureEngineer) :
  unfitted_history self -> is_fitted self = false /\ scalers self = ∅.
Proof.
  induction 1 as [cfg | self feature_data e _ IH Hfail].
  - split; reflexivity.
  - destruct feature_data as [| row rows]; [exact IH | discriminate Hfail].
Qed.

Lemma fit_scalers_nonempty `{Fitting} (self : FeatureEngineer)
    (row : gmap string Q) (rows : list (gmap string Q)) :
  let '(self', outcome) := fit_scalers self (row :: rows) in
  result outcome = inr tt /\ is_fitted self' = true.
Proof. simpl. split; reflexivity. Qed.

(** C8.  Before the scalers are fitted, [transform_features] raises
    nothing and returns the very dictionary it was given; all it emits is
    one warning. *)
Theorem transform_before_fit (self : FeatureEngineer)
    (features : gmap string Q) :
  is_fitted self = false ->
  transform_features self features =
    ([ {| lvl := WARNING; what := ScalersNotFitted |} ], inr features).
Proof.
  intros Hfit. unfold transform_features. rewrite Hfit. reflexivity.
Qed.

Lemma transform_after_failed_fits `{Fitting} (self : FeatureEngineer)
    (features : gmap string Q) :
  unfitted_history self ->
  result (transform_features self features) = inr features.
Proof.
  intros Hhist. apply unfitted_history_spec in Hhist as [Hfit _].
  unfold transform_features. rewrite Hfit. reflexivity.
Qed.

Lemma transform_before_fit_fresh :
  transform_features (new None) {[ "tx_count" := 150%Q ]}
  = ([ {| lvl := WARNING; what := ScalersNotFitted |} ],
     inr {[ "tx_count" := 150%Q ]}).
Proof. apply (transform_before_fit (new None)). reflexivity. Defined.

(** C10.  On an unfitted engineer [save_scalers] raises nothing, emits
    nothing and leaves every file as it was; its outcome is the one a
    save that did write gives, whatever the engineer. *)
Theorem save_scalers_unfitted_silent (self : FeatureEngineer)
    (filepath : string) (files : gmap string Dump) :
  is_fitted self = false ->
  save_scalers self filepath files = (files, ([], inr tt))
  /\ forall other : FeatureEngineer,
       result (snd (save_scalers other filepath files))
       = result (snd (save_scalers self filepath files)).
Proof.
  intros Hfit. unfold save_scalers. rewrite Hfit. split; [reflexivity |].
  intros other. destruct (is_fitted other); reflexivity.
Qed.

Lemma save_scalers_unfitted_fresh :
  save_scalers (new None) "scalers.pkl" ∅ = (∅, ([], inr tt))
  /\ result (snd (save_scalers fitted_engineer "scalers.pkl" ∅))
     = result (snd (save_scalers (new None) "scalers.pkl" ∅)).
Proof.
  destruct (save_scalers_unfitted_silent (new None) "scalers.pkl" ∅) as [Hsame Hany].
  - reflexivity.
  - split; [exact Hsame | exact (Hany fitted_engineer)].
Defined.

(** A fitted engineer does write the file. *)
Lemma save_scalers_fitted_writes (self : FeatureEngineer) (filepath : string)
    (files : gmap string Dump) :
  is_fitted self = true ->
  is_Some (fst (save_scalers self filepath files) !! filepath).
Proof.
  intros Hfit. unfold save_scalers. rewrite Hfit. cbn [fst].
  rewrite lookup_insert_eq. eauto.
Qed.

(** *** Outlier handling *)

Section Outliers.
Variable self : FeatureEngineer.

Let clip_all (m : gmap string Q) (names : list string) : gmap string Q :=
  fold_left (fun m name => alter (clip_value self name) name m) names m.

Lemma alter_absent (f : Q -> Q) (name : string) (m : gmap string Q) :
  m !! name = None -> alter f name m = m.
Proof.
  intros Hnone. apply map_eq. intros j. rewrite lookup_alter.
  case_decide; [subst; rewrite Hnone; reflexivity | reflexivity].
Qed.

Lemma alter_present (f : Q -> Q) (name : string) (m : gmap string Q) (v : Q) :
  m !! name = Some v -> alter f name m = <[name := f v]> m.
Proof.
  intros Hsome. apply map_eq. intros j. rewrite lookup_alter, lookup_insert.
  case_decide; [subst; rewrite Hsome; reflexivity | reflexivity].
Qed.

(** One iteration either raises [KeyError] or rewrites the one entry. *)
Lemma clip_feature_inr (m : gmap string Q) (name : string) l out :
  clip_feature self m name = (l, inr out) ->
  out = alter (clip_value self name) name m.
Proof.
  unfold clip_feature, clip_value.
  destruct (m !! name) as [v |] eqn:Hv.
  2:{ intros [= <- <-]. symmetry. apply alter_absent, Hv. }
  rewrite (alter_present _ _ _ _ Hv).
  destruct (is_fitted self); cbn [andb].
  - destruct (stats_mean (feature_stats self) !! name) as [mean |] eqn:Hm.
    + rewrite bool_decide_eq_true_2 by eauto.
      unfold subscript. rewrite Hm, bind_ret_l.
      destruct (stats_std (feature_stats self) !! name) as [std |];
        [| rewrite bind_raise; discriminate].
      rewrite bind_ret_l.
      destruct (Qgtb _ _).
      * unfold bind, logger, ret. intros [= <- <-]. reflexivity.
      * intros [= <- <-]. symmetry. apply insert_id, Hv.
    + rewrite bool_decide_eq_false_2 by (intros [? ?]; discriminate).
      intros [= <- <-]. symmetry. apply insert_id, Hv.
  - intros [= <- <-].
    destruct (stats_mean (feature_stats self) !! name);
      [destruct (stats_std (feature_stats self) !! name) |];
      symmetry; apply insert_id, Hv.
Qed.

Lemma clip_feature_total (m : gmap string Q) (name : string) :
  stats_consistent self ->
  exists l, clip_feature self m name = (l, inr (alter (clip_value self name) name m)).
Proof.
  intros Hcons.
  destruct (clip_feature self m name) as [l [e | out]] eqn:Hclip.
  2:{ exists l. rewrite (clip_feature_inr _ _ _ _ Hclip). reflexivity. }
  exfalso. revert Hclip. unfold clip_feature.
  destruct (m !! name) as [v |]; [| discriminate].
  destruct (is_fitted self) eqn:Hfit; cbn [andb]; [| discriminate].
  destruct (stats_mean (feature_stats self) !! name) as [mean |] eqn:Hm.
  2:{ rewrite bool_decide_eq_false_2 by (intros [? ?]; discriminate).
      discriminate. }
  rewrite bool_decide_eq_true_2 by eauto.
  destruct (Hcons Hfit name) as [std Hs]; [rewrite Hm; eauto |].
  unfold subscript. rewrite Hm, Hs, !bind_ret_l.
  destruct (Qgtb _ _); discriminate.
Qed.

Lemma clip_feature_unfitted (m : gmap string Q) (name : string) :
  is_fitted self = false -> clip_feature self m name = ret m.
Proof.
  intros Hfit. unfold clip_feature. rewrite Hfit.
  destruct (m !! name); reflexivity.
Qed.

Lemma for_each_clip_inr (names : list string) :
  forall m l out,
    for_each (clip_feature self) names m = (l, inr out) ->
    out = clip_all m names.
Proof.
  induction names as [| name names IH]; intros m l out; simpl.
  - intros [= <- <-]. reflexivity.
  - intros Hrun. apply bind_inr in Hrun as (l1 & m1 & l2 & H1 & H2 & _).
    apply clip_feature_inr in H1 as ->. exact (IH _ _ _ H2).
Qed.

Lemma for_each_clip_total (names : list string) :
  stats_consistent self ->
  forall m, exists l,
    for_each (clip_feature self) names m = (l, inr (clip_all m names)).
Proof.
  intros Hcons. induction names as [| name names IH]; intros m; simpl.
  - exists []. reflexivity.
  - destruct (clip_feature_total m name Hcons) as [l1 H1].
    destruct (IH (alter (clip_value self name) name m)) as [l2 H2].
    exists (l1 ++ l2). rewrite H1. simpl. rewrite H2. reflexivity.
Qed.

Lemma for_each_clip_unfitted (names : list string) (m : gmap string Q) :
  is_fitted self = false ->
  for_each (clip_feature self) names m = ret m.
Proof.
  intros Hfit. induction names as [| name names IH]; simpl; [reflexivity |].
  rewrite clip_feature_unfitted, bind_ret_l by exact Hfit. exact IH.
Qed.

Lemma clip_all_lookup (names : list string) :
  NoDup names ->
  forall m j,
    clip_all m names !! j =
      if decide (j ∈ names) then clip_value self j <$> m !! j else m !! j.
Proof.
  unfold clip_all.
  induction 1 as [| name names Hnotin Hnodup IH]; intros m j; simpl.
  - destruct (decide (j ∈ [])) as [Hin |]; [inversion Hin | reflexivity].
  - rewrite IH, lookup_alter.
    destruct (decide (j ∈ names)) as [Hin | Hnin].
    + destruct (decide (j ∈ name :: names)) as [_ | Hn]; [| exfalso; set_solver].
      case_decide; [subst; contradiction | reflexivity].
    + destruct (decide (name = j)) as [-> | Hne].
      * destruct (decide (j ∈ j :: names)) as [_ | Hn]; [| exfalso; set_solver].
        reflexivity.
      * destruct (decide (j ∈ name :: names)) as [Hmem | _];
          [apply elem_of_cons in Hmem as [-> | Hmem];
             [elim Hne; reflexivity | contradiction] |].
        reflexivity.
Qed.

Lemma clip_all_dom (names : list string) (m : gmap string Q) :
  dom (clip_all m names) = dom m.
Proof.
  unfold clip_all. revert m.
  induction names as [| name names IH]; intros m; simpl; [reflexivity |].
  rewrite IH. apply dom_alter_L.
Qed.

Lemma continuous_features_NoDup : NoDup continuous_features.
Proof. compute_done. Qed.

(** C9.  Outlier handling is the identity before fitting; when it
    returns (it does when every mean comes with a standard deviation),
    every feature other than [tx_count], [contract_interactions],
    [avg_tx_value], [swap_frequency], [portfolio_volatility],
    [account_age], [farcaster_followers] and [github_contributions] keeps
    its entry, no entry is created, and the value [v] of one of these
    eight differs in the result only if the engineer is fitted and
    [|v - mean|] exceeds [outlier_threshold * std], in which case the new
    value is [mean + outlier_threshold * std * sign (v - mean)]. *)
Theorem handle_outliers_frame (features : gmap string Q) :
  (is_fitted self = false -> _handle_outliers self features = ret features)
  /\ (stats_consistent self ->
      exists out, result (_handle_outliers self features) = inr out)
  /\ forall out,
      result (_handle_outliers self features) = inr out ->
      (forall name,
         name ∉ [ "tx_count"; "contract_interactions"; "avg_tx_value";
                  "swap_frequency"; "portfolio_volatility"; "account_age";
                  "farcaster_followers"; "github_contributions" ] ->
         out !! name = features !! name)
      /\ (forall name, features !! name = None -> out !! name = None)
      /\ (forall name v,
            name ∈ [ "tx_count"; "contract_interactions"; "avg_tx_value";
                     "swap_frequency"; "portfolio_volatility"; "account_age";
                     "farcaster_followers"; "github_contributions" ] ->
            features !! name = Some v ->
            exists v',
              out !! name = Some v'
              /\ (v' <> v ->
                  is_fitted self = true
                  /\ exists mean std,
                       stats_mean (feature_stats self) !! name = Some mean
                       /\ stats_std (feature_stats self) !! name = Some std
                       /\ (outlier_threshold (config self) * std
                            < Qabs (v - mean))%Q)
              /\ (forall mean std,
                    is_fitted self = true ->
                    stats_mean (feature_stats self) !! name = Some mean ->
                    stats_std (feature_stats self) !! name = Some std ->
                    (outlier_threshold (config self) * std < Qabs (v - mean))%Q ->
                    (v' == mean + outlier_threshold (config self) * std
                                  * Qsign (v - mean))%Q)).
Proof.
  unfold _handle_outliers. fold continuous_features. split; [| split].
  - apply for_each_clip_unfitted.
  - intros Hcons.
    destruct (for_each_clip_total continuous_features Hcons features) as [l Hrun].
    rewrite Hrun. eauto.
  - intros out Hres.
    destruct (for_each (clip_feature self) continuous_features features)
      as [l [e | out']] eqn:Hrun; [discriminate |].
    injection Hres as ->.
    apply for_each_clip_inr in Hrun. subst out.
    pose proof (clip_all_lookup continuous_features continuous_features_NoDup features)
      as Hlook.
    split; [| split].
    + intros name Hout. rewrite Hlook, decide_False by exact Hout. reflexivity.
    + intros name Hnone. rewrite Hlook, Hnone. case_decide; reflexivity.
    + intros name v Hin Hv. rewrite Hlook, decide_True, Hv by exact Hin.
      exists (clip_value self name v). split; [reflexivity |].
      unfold clip_value.
      destruct (stats_mean (feature_stats self) !! name) as [mean |];
        [| split; [congruence | discriminate]].
      destruct (stats_std (feature_stats self) !! name) as [std |];
        [| split; [congruence | discriminate]].
      destruct (is_fitted self); cbn [andb];
        [| split; [congruence | discriminate]].
      destruct (Qgtb _ _) eqn:Hgt.
      * apply Qgtb_true in Hgt. split.
        -- intros _. split; [reflexivity |]. exists mean, std. auto.
        -- intros mean' std' _ [= <-] [= <-] _. ring.
      * apply Qgtb_false in Hgt. split; [congruence |].
        intros mean' std' _ [= <-] [= <-] Hlt. lra.
Qed.

End Outliers.

(** *** Onchain extraction *)

(** The Herfindahl sum adds one squared share per token. *)
Lemma herfindahl_sum_nil : herfindahl_sum [] = 0%Q.
Proof. reflexivity. Qed.

Lemma herfindahl_sum_cons (token : Token) (tokens : list Token) :
  (herfindahl_sum (token :: tokens)
   == (as_Q (get (percentage token) (int 0)) / 100) ^ 2 + herfindahl_sum tokens)%Q.
Proof. unfold herfindahl_sum, shares. cbn [map]. apply py_sum_cons. Qed.

Lemma total_percentage_cons (token : Token) (tokens : list Token) :
  (total_percentage (token :: tokens)
   == as_Q (get (percentage token) (int 0)) + total_percentage tokens)%Q.
Proof. unfold total_percentage. cbn [map]. apply py_sum_cons. Qed.

Lemma nonneg_signal_get (field : option number) :
  nonneg_signal field -> (0 <= as_Q (get field (int 0)))%Q.
Proof. destruct field; simpl; [auto | intros _; apply Qle_refl]. Qed.

Lemma count_signal_get (field : option number) :
  count_signal field ->
  (0 <= as_Q (get field (int 0)))%Q /\ (as_Q (get field (int 0)) < exact_bound)%Q.
Proof.
  destruct field; simpl; [auto | intros _].
  split; [apply Qle_refl | vm_compute; reflexivity].
Qed.

Lemma bounded_signal_get (field : option number) :
  bounded_signal field ->
  (- exact_bound < as_Q (get field (int 0)))%Q
  /\ (as_Q (get field (int 0)) < exact_bound)%Q.
Proof.
  destruct field; simpl; [auto | intros _].
  split; vm_compute; reflexivity.
Qed.

(** Shares of one portfolio: each percentage is at most 100, and the
    squared shares add up to at most 1. *)
Lemma portfolio_shares_bounds (tokens : list Token) :
  portfolio_shares tokens ->
  (0 <= total_percentage tokens)%Q
  /\ (0 <= herfindahl_sum tokens)%Q
  /\ (100 * herfindahl_sum tokens <= total_percentage tokens)%Q
  /\ Forall (fun token => (0 <= as_Q (get (percentage token) (int 0)) <= 100)%Q) tokens.
Proof.
  intros [Hnn Hsum]. revert Hsum.
  induction Hnn as [| token tokens Htoken Htail IH].
  - intros _. rewrite herfindahl_sum_nil.
    change (total_percentage []) with 0%Q.
    repeat split; try apply Qle_refl; constructor.
  - rewrite total_percentage_cons, herfindahl_sum_cons.
    apply nonneg_signal_get in Htoken.
    set (pct := as_Q (get (percentage token) (int 0))) in *.
    intros Hsum.
    assert (Hrest : (0 <= total_percentage tokens)%Q).
    { clear IH Hsum. unfold total_percentage.
      induction Htail as [| t ts Ht _ IHts]; [apply Qle_refl |].
      cbn [map]. rewrite py_sum_cons.
      apply nonneg_signal_get in Ht. lra. }
    destruct IH as (_ & Hh0 & Hh & Hall); [lra |].
    assert (Hpct : (pct <= 100)%Q) by lra.
    assert (Hsq : (100 * (pct / 100) ^ 2 <= pct)%Q).
    { assert (E : (100 * (pct / 100) ^ 2 == pct * pct / 100)%Q) by (field).
      rewrite E. apply Qle_shift_div_r; [lra |]. nra. }
    assert (Hsq0 : (0 <= (pct / 100) ^ 2)%Q).
    { assert (E : ((pct / 100) ^ 2 == (pct / 100) * (pct / 100))%Q) by ring.
      assert (Hx : (0 <= pct / 100)%Q) by (apply Qle_shift_div_l; lra).
      rewrite E. apply Qmult_le_0_compat; exact Hx. }
    repeat split; try lra.
    constructor; [cbv beta; fold pct; split; lra | exact Hall].
Qed.

(** On shares nothing fails in the token block. *)
Lemma shares_return (tokens : list Token) :
  portfolio_shares tokens ->
  collect (fun token => truediv (get (percentage token) (int 0)) (int 100)) tokens
  = ret (shares tokens)
  /\ collect py_pow2 (shares tokens) = ret (map (fun p => (p ^ 2)%Q) (shares tokens))
  /\ finite (herfindahl_sum tokens) = ret (herfindahl_sum tokens).
Proof.
  intros Hshares.
  destruct (portfolio_shares_bounds tokens Hshares) as (Ht0 & Hh0 & Hh & Hall).
  destruct Hshares as [_ Hsum].
  assert (Hpos : (100 < exact_bound)%Q) by (vm_compute; reflexivity).
  assert (Hshare : Forall (fun token =>
            (0 <= as_Q (get (percentage token) (int 0)) / as_Q (int 100) <= 1)%Q) tokens).
  { eapply Forall_impl; [exact Hall |]. cbv beta. intros token [H0 H100].
    change (as_Q (int 100)) with 100%Q. split.
    - apply Qle_shift_div_l; lra.
    - apply Qle_shift_div_r; lra. }
  split; [| split].
  - unfold shares. apply collect_returns.
    rewrite Forall_forall in Hall, Hshare. apply Forall_forall. intros token Hin.
    destruct (Hall token Hin) as [H0 H100]. destruct (Hshare token Hin) as [Hs0 Hs1].
    apply truediv_returns.
    + apply as_float_returns; lra.
    + reflexivity.
    + vm_compute. discriminate.
    + apply overflows_false; lra.
  - apply collect_returns. unfold shares. apply Forall_map.
    eapply Forall_impl; [exact Hshare |]. cbv beta. intros token [Hs0 Hs1].
    unfold py_pow2. rewrite overflows_false; [reflexivity | |].
    + assert (E : forall p : Q, (p ^ 2 == p * p)%Q) by (intros; ring).
      rewrite E. nra.
    + assert (E : forall p : Q, (p ^ 2 == p * p)%Q) by (intros; ring).
      rewrite E. nra.
  - unfold finite. rewrite overflows_false; [reflexivity | lra | lra].
Qed.

Section Onchain.
Context `{Numpy}.
Variable self : FeatureEngineer.
Variable w : WalletData.

Let tx_count := as_Q (get (total_transactions w) (int 0)).
Let interactions := as_Q (get (contract_interactions w) (int 0)).
Let unique := as_Q (get (unique_contracts_interacted w) (int 0)).
Let swaps := as_Q (get (swap_frequency w) (int 0)).
Let bridges := as_Q (get (bridge_transactions w) (int 0)).
Let volatility := as_Q (get (portfolio_volatility w) (int 0)).
Let tokens := get (top_tokens w) [].

Lemma log_transform_settles (v : number) :
  settles (log_transform self v) (log_value self v).
Proof.
  unfold log_transform, log_value. destruct (use_log_transform (config self)).
  - apply np_log1p_settles.
  - apply settles_ret.
Qed.

Lemma log_transform_returns (v : number) :
  (0 <= as_Q v)%Q -> (as_Q v < exact_bound)%Q ->
  log_transform self v = ret (log_value self v).
Proof.
  intros Hlo Hhi. unfold log_transform, log_value.
  destruct (use_log_transform (config self)); [| reflexivity].
  apply np_log1p_returns; assumption.
Qed.

Ltac settle :=
  first
    [ apply settles_ret | apply log_transform_settles | apply truediv_settles
    | apply py_add_settles | apply py_pow2_settles | apply finite_settles
    | (eapply collect_settles; intros ?; apply truediv_settles)
    | (eapply collect_settles; intros ?; apply py_pow2_settles)
    | (eapply settles_bind; [settle | cbv beta; settle]) ].

(** Extraction emits nothing, and whatever it returns is the dictionary
    of the values its operations return. *)
Lemma extract_onchain_settles :
  settles (extract_onchain_features self w) (onchain_dictionary self w).
Proof.
  unfold extract_onchain_features, onchain_dictionary. cbv zeta.
  destruct (get (top_tokens w) []) as [| t ts]; settle.
Qed.

Lemma extract_onchain_inr l features :
  extract_onchain_features self w = (l, inr features) ->
  l = [] /\ features = onchain_dictionary self w.
Proof. apply settles_inr, extract_onchain_settles. Qed.

Lemma extract_onchain_silent : emitted (extract_onchain_features self w) = [].
Proof. exact (settles_emitted _ _ extract_onchain_settles). Qed.

Lemma onchain_dictionary_dom : dom (onchain_dictionary self w) = onchain_feature_names.
Proof.
  unfold onchain_dictionary. cbv zeta.
  rewrite !dom_insert_L, dom_empty_L. compute_done.
Qed.

(** In range, everything up to the division by [1 + portfolio_volatility]
    returns. *)
Lemma extract_onchain_raises :
  in_range w ->
  (volatility == -1)%Q ->
  extract_onchain_features self w = raise ZeroDivisionError.
Proof.
  intros (Htx & Hci & Huc & Havg & Hsw & Hbr & Hvol & Hage & _) Hv.
  apply count_signal_get in Htx as [Htx0 Htx], Hci as [Hci0 Hci], Huc as [Huc0 Huc],
    Havg as [Havg0 Havg], Hsw as [Hsw0 Hsw], Hbr as [Hbr0 Hbr].
  unfold extract_onchain_features. cbv zeta.
  rewrite (log_transform_returns _ Htx0 Htx), bind_ret_l.
  rewrite (truediv_floored _ _ Hci0 Hci Htx), bind_ret_l.
  rewrite (truediv_floored _ _ Huc0 Huc Hci), bind_ret_l.
  rewrite (log_transform_returns _ Havg0 Havg), bind_ret_l.
  rewrite (truediv_floored _ _ Hsw0 Hsw Htx), bind_ret_l.
  rewrite (truediv_floored _ _ Hbr0 Hbr Htx), bind_ret_l.
  rewrite py_add_one, bind_ret_l.
  rewrite truediv_zero; [reflexivity | reflexivity | |].
  - apply as_float_returns; rewrite as_Q_sum_of_one; fold volatility;
      rewrite Hv; vm_compute; reflexivity.
  - rewrite as_Q_sum_of_one. fold volatility. rewrite Hv. reflexivity.
Qed.

Lemma extract_onchain_returns :
  in_range w ->
  ~ (volatility == -1)%Q ->
  extract_onchain_features self w = ret (onchain_dictionary self w).
Proof.
  intros (Htx & Hci & Huc & Havg & Hsw & Hbr & Hvol & Hage & _ & _ & Hshares) Hv.
  destruct extract_onchain_settles as [Hret | [e He]]; [exact Hret | exfalso].
  revert He.
  apply count_signal_get in Htx as [Htx0 Htx], Hci as [Hci0 Hci], Huc as [Huc0 Huc],
    Havg as [Havg0 Havg], Hsw as [Hsw0 Hsw], Hbr as [Hbr0 Hbr], Hage as [Hage0 Hage].
  apply bounded_signal_get in Hvol as [Hvol0 Hvol].
  unfold extract_onchain_features. cbv zeta.
  rewrite (log_transform_returns _ Htx0 Htx), bind_ret_l.
  rewrite (truediv_floored _ _ Hci0 Hci Htx), bind_ret_l.
  rewrite (truediv_floored _ _ Huc0 Huc Hci), bind_ret_l.
  rewrite (log_transform_returns _ Havg0 Havg), bind_ret_l.
  rewrite (truediv_floored _ _ Hsw0 Hsw Htx), bind_ret_l.
  rewrite (truediv_floored _ _ Hbr0 Hbr Htx), bind_ret_l.
  rewrite py_add_one, bind_ret_l.
  pose proof (as_Q_sum_of_one (get (portfolio_volatility w) (int 0))) as Hone.
  fold volatility in Hone, Hvol0, Hvol.
  assert (Hb : (exact_bound == 9007199254740992)%Q) by reflexivity.
  rewrite truediv_one, bind_ret_l.
  2:{ apply (as_float_within (exact_bound + 1));
        [vm_compute; reflexivity | rewrite Hone; lra | rewrite Hone; lra]. }
  2:{ rewrite Hone. intros E. apply Hv. lra. }
  fold tokens in Hshares |- *.
  destruct (shares_return tokens Hshares) as (Hp & Hq & Hf).
  destruct tokens as [| t ts].
  - rewrite bind_ret_l.
    rewrite (log_transform_returns _ Hage0 Hage), bind_ret_l.
    rewrite (truediv_floored _ _ Htx0 Htx Hage), bind_ret_l.
    discriminate.
  - rewrite Hp, bind_ret_l, Hq, bind_ret_l.
    fold (herfindahl_sum (t :: ts)). rewrite Hf, !bind_ret_l.
    rewrite (log_transform_returns _ Hage0 Hage), bind_ret_l.
    rewrite (truediv_floored _ _ Htx0 Htx Hage), bind_ret_l.
    discriminate.
Qed.

Lemma onchain_dictionary_lookup :
  let d := onchain_dictionary self w in
  d !! "contract_interaction_ratio"
    = Some (interactions / floored (get (total_transactions w) (int 0)))%Q
  /\ d !! "contract_diversity"
    = Some (unique / floored (get (contract_interactions w) (int 0)))%Q
  /\ d !! "swap_ratio" = Some (swaps / floored (get (total_transactions w) (int 0)))%Q
  /\ d !! "bridge_ratio" = Some (bridges / floored (get (total_transactions w) (int 0)))%Q
  /\ d !! "token_concentration"
       = Some (match tokens with
               | [] => 1.0%Q
               | _ :: _ => herfindahl_sum tokens
               end)
  /\ d !! "token_diversity"
       = Some (match tokens with
               | [] => 0.0%Q
               | _ :: _ => (1 - herfindahl_sum tokens)%Q
               end).
Proof.
  cbv zeta. unfold onchain_dictionary. cbv zeta.
  repeat split; simplify_map_eq; reflexivity.
Qed.

Lemma floored_ratio_bounds (a : Q) (b : number) :
  (0 <= a)%Q ->
  (0 <= a / floored b)%Q
  /\ ((a <= Qmax (as_Q b) 1)%Q -> (a / floored b <= 1)%Q)
  /\ ((Qmax (as_Q b) 1 <= a)%Q -> (1 <= a / floored b)%Q).
Proof.
  intros Ha. pose proof (floored_ge_1 b) as Hd. pose proof (floored_Qmax b) as Hmax.
  split; [apply Qle_shift_div_l; lra |].
  split; intros Hle.
  - apply Qle_shift_div_r; lra.
  - apply Qle_shift_div_l; lra.
Qed.



End Onchain.

Lemma sample_wallet_in_range : in_range sample_wallet_data.
Proof.
  unfold in_range, sample_wallet_data, count_signal, bounded_signal,
    portfolio_shares; cbn [total_transactions contract_interactions
    unique_contracts_interacted average_transaction_value swap_frequency
    bridge_transactions portfolio_volatility account_age farcaster_followers
    github_contributions top_tokens get].
  repeat split; try (vm_compute; reflexivity); try (vm_compute; discriminate).
  repeat constructor; vm_compute; discriminate.
Qed.

Lemma sample_wallet_nonneg : nonneg_signals sample_wallet_data.
Proof.
  unfold nonneg_signals, sample_wallet_data; simpl.
  repeat split; try (vm_compute; discriminate).
  repeat constructor; vm_compute; discriminate.
Qed.

Lemma empty_record_in_range : in_range empty_record.
Proof.
  unfold in_range, empty_record, portfolio_shares; simpl.
  repeat split; try constructor. vm_compute. discriminate.
Qed.

Lemma inverse_volatility_in_range : in_range inverse_volatility_wallet.
Proof.
  unfold in_range, inverse_volatility_wallet, portfolio_shares; simpl.
  repeat split; try constructor; try (vm_compute; reflexivity);
    try (vm_compute; discriminate).
Qed.

Lemma volatile_ens_in_range : in_range volatile_ens_wallet.
Proof.
  unfold in_range, volatile_ens_wallet, portfolio_shares; simpl.
  repeat split; try constructor; try (vm_compute; reflexivity);
    try (vm_compute; discriminate).
Qed.

(** *** The whole pipeline *)

Lemma fitted_engineer_consistent : stats_consistent fitted_engineer.
Proof.
  intros _ name [mean Hmean]. cbn in Hmean |- *.
  apply lookup_singleton_Some in Hmean as [<- _]. exists 2%Q. reflexivity.
Qed.

Lemma trained_engineer_consistent : stats_consistent trained_engineer.
Proof. exact fitted_engineer_consistent. Qed.

Lemma new_stats_consistent (cfg : option FeatureConfig) : stats_consistent (new cfg).
Proof. intros Hfit. discriminate. Qed.

Section Engineer.
Context `{Numpy}.
Variable self : FeatureEngineer.
Variable w : WalletData.

Lemma extract_offchain_dom :
  dom (extract_offchain_features self w) = offchain_feature_names.
Proof.
  unfold extract_offchain_features. cbv zeta.
  rewrite !dom_insert_L, dom_empty_L. compute_done.
Qed.

Lemma create_composite_dom (onchain offchain : gmap string Q) :
  dom (create_composite_features self onchain offchain) = composite_feature_names.
Proof.
  unfold create_composite_features. cbv zeta.
  rewrite !dom_insert_L, dom_empty_L. compute_done.
Qed.

Lemma all_feature_names_union :
  composite_feature_names ∪ (offchain_feature_names ∪ onchain_feature_names)
  = all_feature_names.
Proof. compute_done. Qed.

Lemma combined_features_dom : dom (combined_features self w) = all_feature_names.
Proof.
  unfold combined_features.
  rewrite !dom_union_L, create_composite_dom, extract_offchain_dom,
    onchain_dictionary_dom.
  apply all_feature_names_union.
Qed.

(** The calls that stand for the failures of the offchain and composite
    steps emit nothing and return nothing. *)
Lemma offchain_log_transforms_settles :
  settles (offchain_log_transforms self w) tt.
Proof.
  unfold offchain_log_transforms.
  eapply settles_bind; [apply log_transform_settles |].
  eapply settles_bind; [apply log_transform_settles | apply settles_ret].
Qed.

Lemma composite_conversions_settles : settles (composite_conversions w) tt.
Proof.
  unfold composite_conversions.
  eapply settles_bind; [apply np_sqrt_settles |].
  eapply settles_bind; [apply truediv_settles |].
  eapply settles_bind; [apply truediv_settles | apply settles_ret].
Qed.

Lemma offchain_log_transforms_returns :
  in_range w -> offchain_log_transforms self w = ret tt.
Proof.
  intros (_ & _ & _ & _ & _ & _ & _ & _ & Hfol & Hgit & _).
  apply count_signal_get in Hfol as [Hfol0 Hfol], Hgit as [Hgit0 Hgit].
  unfold offchain_log_transforms.
  rewrite !log_transform_returns, !bind_ret_l by assumption. reflexivity.
Qed.

Lemma composite_conversions_returns :
  in_range w -> composite_conversions w = ret tt.
Proof.
  intros (Htx & _ & _ & _ & _ & _ & Hvol & Hage & _).
  apply count_signal_get in Htx as [Htx0 Htx], Hage as [Hage0 Hage].
  apply bounded_signal_get in Hvol as [Hvol0 Hvol].
  assert (Hb : (0 < exact_bound)%Q) by (vm_compute; reflexivity).
  unfold composite_conversions.
  rewrite np_sqrt_returns, bind_ret_l by assumption.
  rewrite truediv_returns, bind_ret_l.
  - rewrite truediv_returns, bind_ret_l; [reflexivity | | reflexivity | |].
    + apply as_float_returns; assumption.
    + vm_compute. discriminate.
    + set (v := as_Q (get (portfolio_volatility w) (int 0))) in *.
      cbn [as_Q].
      assert (H2 : (0 < 2.0)%Q) by reflexivity.
      apply overflows_false.
      * apply Qlt_shift_div_l; [exact H2 |].
        apply Qlt_trans with (- exact_bound)%Q; [| exact Hvol0].
        vm_compute. reflexivity.
      * apply Qlt_shift_div_r; [exact H2 |].
        apply Qlt_trans with exact_bound; [exact Hvol |].
        vm_compute. reflexivity.
  - apply as_float_returns; lra.
  - reflexivity.
  - vm_compute. discriminate.
  - set (a := as_Q (get (account_age w) (int 0))) in *.
    change (as_Q (int 365)) with 365%Q.
    apply overflows_false.
    + apply Qlt_le_trans with 0%Q; [lra |]. apply Qle_shift_div_l; lra.
    + apply Qlt_shift_div_r; lra.
Qed.

(** What a run of [engineer_features] that returns went through. *)
Lemma engineer_features_inr l out :
  engineer_features self w = (l, inr out) ->
  extract_onchain_features self w = ret (onchain_dictionary self w)
  /\ (if handle_outliers (config self)
      then _handle_outliers self (combined_features self w)
      else ret (combined_features self w)) = (l, inr out).
Proof.
  unfold engineer_features.
  destruct (extract_onchain_settles self w) as [-> | [e ->]]; [| discriminate].
  rewrite bind_ret_l.
  destruct offchain_log_transforms_settles as [-> | [e ->]]; [| discriminate].
  rewrite bind_ret_l.
  destruct composite_conversions_settles as [-> | [e ->]]; [| discriminate].
  rewrite bind_ret_l. fold (combined_features self w).
  intros Hrun. split; [reflexivity | exact Hrun].
Qed.

Lemma engineer_features_in_range :
  in_range w ->
  ~ (as_Q (get (portfolio_volatility w) (int 0)) == -1)%Q ->
  engineer_features self w
  = if handle_outliers (config self)
    then _handle_outliers self (combined_features self w)
    else ret (combined_features self w).
Proof.
  intros Hrange Hv. unfold engineer_features.
  rewrite (extract_onchain_returns self w Hrange Hv), bind_ret_l.
  rewrite (offchain_log_transforms_returns Hrange), bind_ret_l.
  rewrite (composite_conversions_returns Hrange), bind_ret_l.
  reflexivity.
Qed.

Lemma engineer_features_volatility :
  in_range w ->
  (as_Q (get (portfolio_volatility w) (int 0)) == -1)%Q ->
  engineer_features self w = raise ZeroDivisionError.
Proof.
  intros Hrange Hv. unfold engineer_features.
  rewrite (extract_onchain_raises self w Hrange Hv). reflexivity.
Qed.

(** Reading an absent key gives what reading its default gives. *)
Lemma engineer_features_fill_defaults :
  engineer_features self (fill_defaults w) = engineer_features self w.
Proof. reflexivity. Qed.

(** C4, as the code has it.  On every record in range whose
    [portfolio_volatility] is not -1, and an engineer whose statistics
    hold a standard deviation for every mean, [engineer_features]
    returns.  Every dictionary it returns, for whatever record, has
    exactly the thirty-two feature names as its keys, and it is the
    dictionary returned for the record with each absent key set to its
    default. *)
Theorem engineer_features_key_set :
  (in_range w ->
   ~ (as_Q (get (portfolio_volatility w) (int 0)) == -1)%Q ->
   stats_consistent self ->
   exists features, result (engineer_features self w) = inr features)
  /\ (forall features,
        result (engineer_features self w) = inr features ->
        dom features = all_feature_names)
  /\ engineer_features self (fill_defaults w) = engineer_features self w.
Proof.
  split; [| split; [| apply engineer_features_fill_defaults]].
  - intros Hrange Hv Hcons. rewrite (engineer_features_in_range Hrange Hv).
    destruct (handle_outliers (config self)); [| eexists; reflexivity].
    unfold _handle_outliers.
    destruct (for_each_clip_total self continuous_features Hcons
                (combined_features self w)) as [l Hrun].
    rewrite Hrun. eexists. reflexivity.
  - intros features Hres.
    destruct (engineer_features self w) as [l r] eqn:Hrun.
    cbn [result snd] in Hres. subst r.
    apply engineer_features_inr in Hrun as [_ Hrun].
    destruct (handle_outliers (config self)).
    + unfold _handle_outliers in Hrun. apply for_each_clip_inr in Hrun as ->.
      rewrite clip_all_dom. apply combined_features_dom.
    + injection Hrun as _ <-. apply combined_features_dom.
Qed.

End Engineer.

(** C4, as stated, fails: a record with [portfolio_volatility = -1] makes
    [1 / (1 + portfolio_volatility)] raise, and no dictionary is returned. *)
Lemma engineer_features_raises :
  result (@engineer_features sample_numpy (new None) inverse_volatility_wallet)
  = inl ZeroDivisionError.
Proof. vm_compute. reflexivity. Qed.

(** A transaction count that numpy cannot convert makes [np.log1p]
    raise, and a percentage whose squared share leaves the doubles makes
    [p ** 2] raise. *)
Example huge_count_raises :
  result (@extract_onchain_features sample_numpy (new None) huge_count_wallet)
  = inl TypeError.
Proof. vm_compute. reflexivity. Qed.

Example huge_share_raises :
  result (@extract_onchain_features sample_numpy (new None) huge_share_wallet)
  = inl OverflowError.
Proof. vm_compute. reflexivity. Qed.

Lemma engineer_features_key_set_fitted :
  exists features,
    result (@engineer_features sample_numpy fitted_engineer sample_wallet_data)
    = inr features
    /\ dom features = all_feature_names.
Proof.
  destruct (@engineer_features_key_set sample_numpy fitted_engineer sample_wallet_data)
    as (Hret & Hdom & _).
  destruct Hret as [features Hres].
  - apply sample_wallet_in_range.
  - vm_compute. discriminate.
  - apply fitted_engineer_consistent.
  - exists features. split; [exact Hres | exact (Hdom features Hres)].
Defined.

(** The features of [{}] that the specification lists. *)
Example empty_record_values :
  let outcome := @engineer_features sample_numpy (new None) empty_record in
  returned_feature outcome "tx_count" = Some 0%Q
  /\ returned_feature outcome "contract_interaction_ratio" = Some 0%Q
  /\ returned_feature outcome "token_concentration" = Some 1%Q
  /\ returned_feature outcome "token_diversity" = Some 0%Q
  /\ returned_feature outcome "social_presence" = Some 0%Q.
Proof. repeat split; vm_compute; reflexivity. Qed.

(** The features of the sample record that the specification lists. *)
Example sample_record_values :
  let outcome := @engineer_features sample_numpy (new None) sample_wallet_data in
  returned_feature outcome "token_concentration" = Some (Qred 0.46%Q)
  /\ returned_feature outcome "token_diversity" = Some (Qred 0.54%Q)
  /\ returned_feature outcome "contract_interaction_ratio" = Some (Qred 0.3%Q)
  /\ returned_feature outcome "social_presence" = Some 1%Q.
Proof. repeat split; vm_compute; reflexivity. Qed.

(** On a fitted engineer the sample's transaction count, 150, is clipped
    to [mean + 3 std = 16]. *)
Example sample_record_clipped :
  returned_feature
    (@engineer_features sample_numpy fitted_engineer sample_wallet_data) "tx_count"
  = Some 16%Q.
Proof. vm_compute. reflexivity. Qed.

Lemma handle_outliers_clips_sample :
  exists out v',
    result (_handle_outliers fitted_engineer
              (<["tx_count" := 100%Q]> {[ "has_ens" := 1%Q ]})) = inr out
    /\ out !! "has_ens" = Some 1%Q
    /\ out !! "tx_count" = Some v' /\ (v' == 16)%Q.
Proof.
  destruct (handle_outliers_frame fitted_engineer
              (<["tx_count" := 100%Q]> {[ "has_ens" := 1%Q ]}))
    as (_ & Htotal & Hframe).
  destruct Htotal as [out Hout].
  { intros _ name [mean Hmean]. simpl in Hmean |- *.
    apply lookup_singleton_Some in Hmean as [<- _].
    exists 2%Q. reflexivity. }
  destruct (Hframe out Hout) as (Hother & _ & Hclip).
  destruct (Hclip "tx_count" 100%Q) as (v' & Hv' & _ & Hval).
  { vm_compute. repeat constructor. }
  { reflexivity. }
  exists out, v'. split; [exact Hout |].
  split; [rewrite Hother; [reflexivity | compute_done] |].
  split; [exact Hv' |].
  rewrite (Hval 10%Q 2%Q); reflexivity.
Defined.





End FeatureEngineeringFacts.

(** ** Explanations *)

Module ExplainFacts.
Import FeatureEngineering Explain.

(** *** Confidence *)

Lemma Qlen_nonneg {A} (xs : list A) : (0 <= Qlen xs)%Q.
Proof.
  unfold Qlen. change 0%Q with (inject_Z 0). rewrite <- Zle_Qle. lia.
Qed.

Lemma Qlen_pos {A} (xs : list A) : xs <> [] -> (0 < Qlen xs)%Q.
Proof.
  intros Hne. unfold Qlen. change 0%Q with (inject_Z 0). rewrite <- Zlt_Qlt.
  destruct xs; [contradiction | simpl; lia].
Qed.

Lemma Qlen_filter_le {A} (P : A -> Prop) `{forall x, Decision (P x)} (xs : list A) :
  (Qlen (filter P xs) <= Qlen xs)%Q.
Proof.
  unfold Qlen. rewrite <- Zle_Qle. pose proof (length_filter P xs). lia.
Qed.

Lemma Qlen_cons {A} (x : A) (xs : list A) : (Qlen (x :: xs) == 1 + Qlen xs)%Q.
Proof.
  unfold Qlen. simpl length. rewrite Nat2Z.inj_succ, <- Z.add_1_l, inject_Z_plus.
  reflexivity.
Qed.

(** [sum(1 for _ in xs)] is [len(xs)]. *)
Lemma py_sum_ones {A} (xs : list A) :
  (py_sum (map (fun _ => 1%Q) xs) == Qlen xs)%Q.
Proof.
  induction xs as [| x xs IH].
  - reflexivity.
  - cbn [map]. rewrite py_sum_cons, IH, Qlen_cons. reflexivity.
Qed.

Lemma fraction_of_bounds (test : Q -> bool) (scaled_features : gmap string Q)
    (names : list string) :
  names <> [] ->
  (0 <= fraction_of test scaled_features names <= 1)%Q.
Proof.
  intros Hne. unfold fraction_of.
  pose proof (Qlen_pos names Hne) as Hpos.
  pose proof (Qlen_nonneg
    (filter (fun name => Is_true (test (get (scaled_features !! name) 0%Q))) names)).
  pose proof (Qlen_filter_le
    (fun name => Is_true (test (get (scaled_features !! name) 0%Q))) names).
  split; [apply Qle_shift_div_l | apply Qle_shift_div_r]; lra.
Qed.

Lemma magnitude_component_bounds (contributions : list FeatureContribution) :
  (0 <= magnitude_component contributions <= 30)%Q.
Proof.
  unfold magnitude_component.
  destruct (Qgtb _ _) eqn:Hgt; [| lra].
  apply Qgtb_true in Hgt.
  set (total := py_sum (map importance contributions)) in *.
  destruct (Q.min_spec (total / 20) 1.0) as [[Hlt ->] | [_ ->]]; [| lra].
  assert (0 <= total / 20)%Q by (apply Qle_shift_div_l; lra).
  lra.
Qed.

Section Confidence.
Variable self : TrustScoreExplainer.
Variable scaled_features : gmap string Q.
Variable contributions : list FeatureContribution.

(** C6.  With at least one declared feature name, the confidence is the
    sum of the availability, magnitude and quality components, capped
    at 100; the components lie in [0, 40], [0, 30] and [0, 30], and the
    confidence in [0, 100]. *)
Theorem calculate_confidence_components :
  feature_names self <> [] ->
  exists confidence,
    _calculate_confidence self scaled_features contributions = ret confidence
    /\ (confidence ==
         Qmin (availability_component (feature_names self) scaled_features
               + magnitude_component contributions
               + quality_component scaled_features) 100)%Q
    /\ (0 <= availability_component (feature_names self) scaled_features <= 40)%Q
    /\ (0 <= magnitude_component contributions <= 30)%Q
    /\ (0 <= quality_component scaled_features <= 30)%Q
    /\ (0 <= confidence <= 100)%Q.
Proof.
  intros Hne.
  pose proof (fraction_of_bounds (fun v => Qneb v 0) scaled_features
                (feature_names self) Hne) as Ha.
  pose proof (fraction_of_bounds (fun v => Qgtb v 0) scaled_features
                quality_features ltac:(discriminate)) as Hq.
  pose proof (magnitude_component_bounds contributions) as Hm.
  assert (Hab : (0 <= availability_component (feature_names self) scaled_features
                 <= 40)%Q)
    by (unfold availability_component; lra).
  assert (Hqb : (0 <= quality_component scaled_features <= 30)%Q)
    by (unfold quality_component; fold quality_features; lra).
  unfold _calculate_confidence.
  rewrite py_div_nonzero, bind_ret_l
    by (pose proof (Qlen_pos (feature_names self) Hne); lra).
  eexists. split; [reflexivity |].
  assert (Heq :
    (0.0 + count_features (fun v => Qneb v 0) scaled_features (feature_names self)
           / Qlen (feature_names self) * 40
     == availability_component (feature_names self) scaled_features)%Q).
  { unfold availability_component, fraction_of, count_features.
    rewrite py_sum_ones. ring. }
  assert (Heq' :
    (count_features (fun v => Qgtb v 0) scaled_features quality_features
       / Qlen quality_features * 30
     == quality_component scaled_features)%Q).
  { unfold quality_component, fraction_of, count_features.
    fold quality_features. rewrite py_sum_ones. reflexivity. }
  assert (Hsum :
    ((if Qgtb (py_sum (map importance contributions)) 0
      then (0.0 + count_features (fun v => Qneb v 0) scaled_features
                    (feature_names self) / Qlen (feature_names self) * 40
            + Qmin (py_sum (map importance contributions) / 20) 1.0 * 30)%Q
      else (0.0 + count_features (fun v => Qneb v 0) scaled_features
                    (feature_names self) / Qlen (feature_names self) * 40)%Q)
     + count_features (fun v => Qgtb v 0) scaled_features quality_features
       / Qlen quality_features * 30
     == availability_component (feature_names self) scaled_features
        + magnitude_component contributions
        + quality_component scaled_features)%Q).
  { rewrite Heq'. unfold magnitude_component.
    destruct (Qgtb _ _); rewrite Heq; ring. }
  split; [| split; [exact Hab | split; [exact Hm | split; [exact Hqb |]]]].
  - rewrite Hsum. apply Q.min_compat; reflexivity.
  - rewrite Hsum.
    destruct (Q.min_spec
                (availability_component (feature_names self) scaled_features
                 + magnitude_component contributions
                 + quality_component scaled_features) 100.0)
      as [[_ ->] | [_ ->]]; lra.
Qed.

End Confidence.

Lemma calculate_confidence_sample :
  exists confidence,
    _calculate_confidence fallback_explainer
      (<["has_ens" := 1%Q]> {[ "risk_indicators" := 1%Q ]}) []
    = ret confidence
    /\ (0 <= confidence <= 100)%Q.
Proof.
  destruct (calculate_confidence_components fallback_explainer
              (<["has_ens" := 1%Q]> {[ "risk_indicators" := 1%Q ]}) [])
    as (confidence & Hret & _ & _ & _ & _ & Hbounds).
  - discriminate.
  - exists confidence. split; [exact Hret | exact Hbounds].
Defined.

(** *** The deterministic attribution *)

Section Deterministic.
Variable self : TrustScoreExplainer.
Variable scaled_features : gmap string Q.

Let raws := map (raw_entry self scaled_features) (feature_names self).
Let base := normalization_base self scaled_features.

Lemma fold_weigh (names : list string) :
  forall contributions total,
    fold_left (weigh (get_feature_importance_weights (feature_engineer self))
                 scaled_features) names (contributions, total)
    = (contributions ++ map (raw_entry self scaled_features) names,
       fold_left Qplus
         (map (fun name => Qabs (raw_contribution self scaled_features name)) names)
         total).
Proof.
  induction names as [| name names IH]; intros contributions total.
  - simpl. rewrite app_nil_r. reflexivity.
  - cbn [fold_left map]. unfold weigh at 2. rewrite IH, <- app_assoc. reflexivity.
Qed.

Lemma deterministic_contributions_unfold (predicted_score : Q) :
  _get_deterministic_contributions self scaled_features predicted_score
  = if Qgtb base 0
    then map (scale_contribution
                (if Qneb base 0 then ((predicted_score - 50.0) / base)%Q else 1%Q))
           raws
    else raws.
Proof.
  unfold _get_deterministic_contributions. rewrite fold_weigh. reflexivity.
Qed.

(** With a zero base nothing is rescaled: the entries keep
    [value * weight * 100]. *)
Lemma deterministic_contributions_zero_base (predicted_score : Q) :
  ~ (0 < base)%Q ->
  _get_deterministic_contributions self scaled_features predicted_score = raws.
Proof.
  intros Hbase. rewrite deterministic_contributions_unfold.
  destruct (Qgtb base 0) eqn:Hgt; [| reflexivity].
  apply Qgtb_true in Hgt. contradiction.
Qed.

Lemma deterministic_contributions_positive_base (predicted_score : Q) :
  (0 < base)%Q ->
  _get_deterministic_contributions self scaled_features predicted_score
  = map (scale_contribution ((predicted_score - 50.0) / base)) raws.
Proof.
  intros Hbase. rewrite deterministic_contributions_unfold.
  destruct (Qgtb base 0) eqn:Hgt.
  - destruct (Qneb base 0) eqn:Hne; [reflexivity |].
    apply not_true_iff_false in Hne. elim Hne. apply Qneb_true. lra.
  - apply Qgtb_false in Hgt. lra.
Qed.

Lemma sum_contributions_scaled (factor : Q) (cs : list FeatureContribution) :
  (sum_contributions (map (scale_contribution factor) cs)
   == factor * sum_contributions cs)%Q.
Proof.
  unfold sum_contributions. induction cs as [| c cs IH].
  - cbn [map]. rewrite py_sum_nil. ring.
  - cbn [map]. rewrite !py_sum_cons, IH. cbn [scale_contribution contribution]. ring.
Qed.

Lemma sum_abs_scaled (factor : Q) (cs : list FeatureContribution) :
  (py_sum (map (fun c => Qabs (contribution c)) (map (scale_contribution factor) cs))
   == Qabs factor * py_sum (map (fun c => Qabs (contribution c)) cs))%Q.
Proof.
  induction cs as [| c cs IH].
  - cbn [map]. rewrite py_sum_nil. ring.
  - cbn [map]. rewrite !py_sum_cons, IH.
    cbn [scale_contribution contribution]. rewrite Qabs_Qmult. ring.
Qed.

Lemma sum_abs_raws :
  py_sum (map (fun c => Qabs (contribution c)) raws) = base.
Proof.
  unfold raws, base, normalization_base. rewrite map_map. reflexivity.
Qed.

(** What the rescaling does achieve: the absolute contributions add up
    to the absolute deviation of the score from 50. *)
Lemma deterministic_contributions_abs_sum (predicted_score : Q) :
  (0 < base)%Q ->
  (py_sum (map (fun c => Qabs (contribution c))
             (_get_deterministic_contributions self scaled_features predicted_score))
   == Qabs (predicted_score - 50.0))%Q.
Proof.
  intros Hbase. rewrite deterministic_contributions_positive_base by exact Hbase.
  rewrite sum_abs_scaled, sum_abs_raws.
  unfold Qdiv. rewrite Qabs_Qmult, (Qabs_pos (/ base)).
  - field. lra.
  - apply Qlt_le_weak, Qinv_lt_0_compat, Hbase.
Qed.

(** The signed sum is the deviation times [sum raw / sum |raw|]. *)
Lemma deterministic_contributions_signed_sum (predicted_score : Q) :
  (0 < base)%Q ->
  (sum_contributions
     (_get_deterministic_contributions self scaled_features predicted_score)
   == (predicted_score - 50.0) * (sum_contributions raws / base))%Q.
Proof.
  intros Hbase. rewrite deterministic_contributions_positive_base by exact Hbase.
  rewrite sum_contributions_scaled. field. lra.
Qed.

End Deterministic.

(** C1.  The rescaled contributions of the deterministic path do not add
    up to the deviation when raw contributions differ in sign: for scaled
    values 1 of [has_ens] (weight 0.05) and [risk_indicators] (weight
    -0.03) and a predicted score of 60 the base is 8, the contributions
    are 25/4 and -15/4, and their sum is 5/2, not 10. *)
Theorem deterministic_contributions_sum_mismatch :
  let scaled_features : gmap string Q :=
    <["has_ens" := 1%Q]> {[ "risk_indicators" := 1%Q ]} in
  let contributions :=
    _get_deterministic_contributions fallback_explainer scaled_features 60 in
  (normalization_base fallback_explainer scaled_features == 8)%Q
  /\ map (fun c => Qred (contribution c)) contributions = [ (25 # 4)%Q; (-15 # 4)%Q ]
  /\ (sum_contributions contributions == 5 / 2)%Q
  /\ ~ (sum_contributions contributions == 60 - 50.0)%Q.
Proof.
  cbv zeta. split; [vm_compute; reflexivity |].
  split; [vm_compute; reflexivity |].
  split; [vm_compute; reflexivity |].
  intros Heq. vm_compute in Heq. discriminate.
Qed.

(** The scaled values above are the ones [explain_prediction] derives
    from a wallet record. *)
Example volatile_ens_wallet_contributions :
  let outcome :=
    @explain_prediction sample_numpy fallback_explainer volatile_ens_wallet in
  (fun e => (Qred (predicted_score e),
             map (fun c => (Qred (value c), Qred (contribution c)))
               (feature_contributions e))) <$> returned outcome
  = Some (60%Q, [ (1%Q, (25 # 4)%Q); (1%Q, (-15 # 4)%Q) ]).
Proof. vm_compute. reflexivity. Qed.

(** *** The SHAP path *)

Section Shap.
Context `{Numpy}.
Variable self : TrustScoreExplainer.
Variable feature_vector : list Q.
Variable scaled_features : gmap string Q.

(** Whatever the [try] block raises is caught, and the deterministic
    path is run with the constant 50. *)
Lemma shap_contributions_on_failure l e :
  shap_attempt self feature_vector scaled_features = (l, inl e) ->
  _get_shap_contributions self feature_vector scaled_features
  = (l ++ [ {| lvl := WARNING; what := ShapFailed e |} ],
     inr (_get_deterministic_contributions self scaled_features 50.0)).
Proof.
  intros Hfail. unfold _get_shap_contributions, try_except. rewrite Hfail.
  reflexivity.
Qed.

(** With the constant 50 the deviation is zero, so every rescaled
    contribution is zero. *)
Lemma fallback_contributions_vanish :
  (0 < normalization_base self scaled_features)%Q ->
  Forall (fun c => (contribution c == 0)%Q)
    (_get_deterministic_contributions self scaled_features 50.0).
Proof.
  intros Hbase.
  rewrite deterministic_contributions_positive_base by exact Hbase.
  apply Forall_map, Forall_forall. intros c _.
  cbn [scale_contribution contribution]. field. lra.
Qed.

End Shap.

(** C3.  When the SHAP explainer raises, [explain_prediction] does return,
    but the fallback is run with the constant 50 instead of the predicted
    score: for an ENS holder and a predicted score of 60 the returned
    contribution of [has_ens] is 0, where the deterministic path on the
    same scaled features and the score 60 gives 10. *)
Theorem shap_failure_ignores_predicted_score :
  let outcome :=
    @explain_prediction sample_numpy failing_explainer volatile_ens_wallet in
  let scaled :=
    @scaled_features_of sample_numpy failing_explainer volatile_ens_wallet in
  (fun e => (Qred (predicted_score e),
             map (fun c => Qred (contribution c)) (feature_contributions e)))
    <$> returned outcome
  = Some (60%Q, [ 0%Q ])
  /\ (fun scaled_features =>
        map (fun c => Qred (contribution c))
          (_get_deterministic_contributions failing_explainer scaled_features 60))
     <$> returned scaled
     = Some [ 10%Q ]
  /\ (fun scaled_features =>
        map (fun c => Qred (contribution c))
          (_get_deterministic_contributions failing_explainer scaled_features 50.0))
     <$> returned scaled
     = Some [ 0%Q ].
Proof. cbv zeta. repeat split; vm_compute; reflexivity. Qed.

End ExplainFacts.

(** ** Feature engineering: the remaining methods *)

Module FeatureEngineeringMore.
Import FeatureEngineering FeatureVector FeatureEngineeringFacts.

Ltac lookup_insert_now :=
  repeat (rewrite lookup_insert_ne by discriminate); rewrite lookup_insert_eq.

(** *** Offchain extraction *)

Section Offchain.
Context `{Numpy}.
Variable self : FeatureEngineer.
Variable w : WalletData.

Let ens := get (has_ens w) false.
Let followers := as_Q (get (farcaster_followers w) (int 0)).
Let contributions := as_Q (get (github_contributions w) (int 0)).

Lemma extract_offchain_lookup :
  let features := extract_offchain_features self w in
  features !! "has_ens" = Some (if ens then 1.0 else 0.0)%Q
  /\ features !! "has_farcaster" = Some (if Qgtb followers 0 then 1.0 else 0.0)%Q
  /\ features !! "has_github" = Some (if Qgtb contributions 0 then 1.0 else 0.0)%Q
  /\ features !! "social_signal_count"
       = Some (Qof_bool (Qgtb followers 0) + Qof_bool (Qgtb contributions 0)
               + Qof_bool ens)%Q
  /\ features !! "social_presence"
       = Some ((Qof_bool (Qgtb followers 0) + Qof_bool (Qgtb contributions 0)
                + Qof_bool ens) / 3.0)%Q.
Proof.
  unfold extract_offchain_features. cbv zeta.
  repeat split; lookup_insert_now; reflexivity.
Qed.

Lemma social_presence_range (a b c : bool) :
  (0 <= (Qof_bool a + Qof_bool b + Qof_bool c) / 3.0 <= 1)%Q.
Proof.
  destruct a, b, c; split; intros Hcmp; vm_compute in Hcmp; discriminate.
Qed.

(** X1.  The three presence flags are 0 or 1, set exactly when the wallet
    has an ENS name, a positive follower count and a positive
    contribution count; [social_signal_count] is their sum and
    [social_presence] a third of it, between 0 and 1. *)
Theorem offchain_flags_and_presence :
  exists flag_ens flag_farcaster flag_github count presence : Q,
    extract_offchain_features self w !! "has_ens" = Some flag_ens
    /\ extract_offchain_features self w !! "has_farcaster" = Some flag_farcaster
    /\ extract_offchain_features self w !! "has_github" = Some flag_github
    /\ extract_offchain_features self w !! "social_signal_count" = Some count
    /\ extract_offchain_features self w !! "social_presence" = Some presence
    /\ (flag_ens == if ens then 1 else 0)%Q
    /\ (flag_farcaster == if Qlt_le_dec 0 followers then 1 else 0)%Q
    /\ (flag_github == if Qlt_le_dec 0 contributions then 1 else 0)%Q
    /\ (count == flag_farcaster + flag_github + flag_ens)%Q
    /\ (presence == count / 3)%Q
    /\ (0 <= presence <= 1)%Q.
Proof.
  destruct extract_offchain_lookup as (He & Hf & Hg & Hc & Hp).
  do 5 eexists.
  split; [exact He |]. split; [exact Hf |]. split; [exact Hg |].
  split; [exact Hc |]. split; [exact Hp |].
  split; [destruct ens; vm_compute; reflexivity |].
  split.
  { destruct (Qgtb followers 0) eqn:E, (Qlt_le_dec 0 followers) as [Hlt | Hle];
      try (vm_compute; reflexivity).
    - apply Qgtb_true in E. lra.
    - apply Qgtb_false in E. lra. }
  split.
  { destruct (Qgtb contributions 0) eqn:E, (Qlt_le_dec 0 contributions) as [Hlt | Hle];
      try (vm_compute; reflexivity).
    - apply Qgtb_true in E. lra.
    - apply Qgtb_false in E. lra. }
  split; [destruct (Qgtb followers 0), (Qgtb contributions 0), ens;
          vm_compute; reflexivity |].
  split; [apply Qmult_comp; [reflexivity | vm_compute; reflexivity] |].
  apply social_presence_range.
Qed.

End Offchain.

(** *** Composite features *)

Lemma capped_share_le (x : Q) : (Qmin x 1.0 <= 1)%Q.
Proof. destruct (Q.min_spec x 1.0) as [[Hlt ->] | [_ ->]]; lra. Qed.

Lemma capped_share_nonneg (x : Q) : (0 <= x)%Q -> (0 <= Qmin x 1.0)%Q.
Proof. intros Hx. destruct (Q.min_spec x 1.0) as [[_ ->] | [_ ->]]; lra. Qed.

Lemma Qdiv_nonneg (x d : Q) : (0 <= x)%Q -> (0 < d)%Q -> (0 <= x / d)%Q.
Proof. intros Hx Hd. apply Qle_shift_div_l; lra. Qed.

Lemma trust_formula_range (ens diversity age : Q) :
  (0 <= ens <= 1)%Q -> (0 <= diversity)%Q -> (0 <= age)%Q ->
  (0 <= ens * 0.3 + Qmin diversity 1.0 * 0.4 + Qmin (age / 365) 1.0 * 0.3 <= 1)%Q.
Proof.
  intros He Hd Ha.
  pose proof (capped_share_le diversity). pose proof (capped_share_nonneg _ Hd).
  pose proof (capped_share_le (age / 365)).
  pose proof (capped_share_nonneg _ (Qdiv_nonneg age 365 Ha ltac:(lra))).
  lra.
Qed.

Lemma risk_formula_range (tx_per_day volatility : Q) :
  ((if Qgtb tx_per_day 10 then 1.0 else 0.0) * 0.6
   + Qmin (volatility / 2.0) 1.0 * 0.4 <= 1)%Q
  /\ ((0 <= volatility)%Q ->
      (0 <= (if Qgtb tx_per_day 10 then 1.0 else 0.0) * 0.6
            + Qmin (volatility / 2.0) 1.0 * 0.4)%Q).
Proof.
  pose proof (capped_share_le (volatility / 2.0)).
  split.
  - destruct (Qgtb tx_per_day 10); lra.
  - intros Hv.
    pose proof (capped_share_nonneg _ (Qdiv_nonneg volatility 2.0 Hv ltac:(lra))).
    destruct (Qgtb tx_per_day 10); lra.
Qed.

Section Composite.
Context `{Numpy}.
Variable self : FeatureEngineer.
Variables onchain offchain : gmap string Q.

Let ens := get (offchain !! "has_ens") 0%Q.
Let diversity := get (onchain !! "contract_diversity") 0%Q.
Let age := get (onchain !! "account_age") 0%Q.
Let volatility := get (onchain !! "portfolio_volatility") 0%Q.
Let tx_per_day := get (onchain !! "tx_per_day") 0%Q.

Lemma create_composite_lookup :
  create_composite_features self onchain offchain !! "trust_indicators"
    = Some (ens * 0.3 + Qmin diversity 1.0 * 0.4 + Qmin (age / 365) 1.0 * 0.3)%Q
  /\ create_composite_features self onchain offchain !! "risk_indicators"
    = Some ((if Qgtb tx_per_day 10 then 1.0 else 0.0) * 0.6
            + Qmin (volatility / 2.0) 1.0 * 0.4)%Q
  /\ create_composite_features self onchain offchain !! "activity_social_score"
    = Some (sqrt (get (onchain !! "tx_count") 0)
            * (1 + get (offchain !! "social_presence") 0))%Q.
Proof.
  unfold create_composite_features. cbv zeta.
  repeat split; lookup_insert_now; reflexivity.
Qed.

(** X2.  Whatever the two dictionaries hold (a missing key reads as 0),
    [risk_indicators] is at most 1, and not negative when the volatility
    is not; [trust_indicators] lies in [0, 1] when the ENS flag does and
    the diversity and the account age are not negative. *)
Theorem composite_indicator_ranges :
  exists trust risk : Q,
    create_composite_features self onchain offchain !! "trust_indicators" = Some trust
    /\ create_composite_features self onchain offchain !! "risk_indicators" = Some risk
    /\ (risk <= 1)%Q
    /\ ((0 <= volatility)%Q -> (0 <= risk)%Q)
    /\ ((0 <= ens <= 1)%Q -> (0 <= diversity)%Q -> (0 <= age)%Q ->
        (0 <= trust <= 1)%Q).
Proof.
  destruct create_composite_lookup as (Ht & Hr & _).
  do 2 eexists. split; [exact Ht |]. split; [exact Hr |].
  destruct (risk_formula_range tx_per_day volatility) as [Hle Hge].
  split; [exact Hle |]. split; [exact Hge |].
  apply trust_formula_range.
Qed.

End Composite.

Lemma composite_indicator_ranges_sample :
  exists trust risk : Q,
    @create_composite_features sample_numpy (new None)
      (<["portfolio_volatility" := 5%Q]> {[ "contract_diversity" := 3%Q ]})
      {[ "has_ens" := 1%Q ]} !! "trust_indicators" = Some trust
    /\ @create_composite_features sample_numpy (new None)
      (<["portfolio_volatility" := 5%Q]> {[ "contract_diversity" := 3%Q ]})
      {[ "has_ens" := 1%Q ]} !! "risk_indicators" = Some risk
    /\ (0 <= trust <= 1)%Q /\ (0 <= risk <= 1)%Q.
Proof.
  destruct (@composite_indicator_ranges sample_numpy (new None)
              (<["portfolio_volatility" := 5%Q]> {[ "contract_diversity" := 3%Q ]})
              {[ "has_ens" := 1%Q ]})
    as (trust & risk & Ht & Hr & Hle & Hge & Htrust).
  exists trust, risk. split; [exact Ht |]. split; [exact Hr |].
  split.
  - apply Htrust; vm_compute; try split; discriminate.
  - split; [apply Hge; vm_compute; discriminate | exact Hle].
Defined.

(** *** Onchain extraction: values and failure *)

Section OnchainValues.
Context `{Numpy}.
Variable self : FeatureEngineer.
Variable w : WalletData.

Let tx_count := as_Q (get (total_transactions w) (int 0)).
Let unique := as_Q (get (unique_contracts_interacted w) (int 0)).
Let volatility := as_Q (get (portfolio_volatility w) (int 0)).
Let age := as_Q (get (account_age w) (int 0)).

Lemma onchain_values_lookup :
  let d := onchain_dictionary self w in
  d !! "tx_count" = Some tx_count
  /\ d !! "contract_diversity"
     = Some (unique / floored (get (contract_interactions w) (int 0)))%Q
  /\ d !! "portfolio_volatility" = Some volatility
  /\ d !! "portfolio_stability"
     = Some (1 / as_Q (sum_of (int 1) (get (portfolio_volatility w) (int 0))))%Q
  /\ d !! "account_age" = Some age
  /\ d !! "tx_per_day" = Some (tx_count / floored (get (account_age w) (int 0)))%Q.
Proof.
  cbv zeta. unfold onchain_dictionary. cbv zeta.
  repeat split; lookup_insert_now; reflexivity.
Qed.

(** X3.  On a record in range, onchain extraction fails exactly when
    [portfolio_volatility] is -1, and what it raises then is
    [ZeroDivisionError]; on every other record in range it returns. *)
Theorem extract_onchain_fails_iff (e : exn) :
  in_range w ->
  result (extract_onchain_features self w) = inl e
  <-> (volatility == -1)%Q /\ e = ZeroDivisionError.
Proof.
  intros Hrange. split.
  - intros Hres. destruct (Qeq_dec volatility (-1)) as [Hv | Hv].
    + rewrite (extract_onchain_raises self w Hrange Hv) in Hres.
      injection Hres as <-. split; [exact Hv | reflexivity].
    + rewrite (extract_onchain_returns self w Hrange Hv) in Hres. discriminate.
  - intros [Hv ->]. rewrite (extract_onchain_raises self w Hrange Hv). reflexivity.
Qed.

(** X22.  With the log transform on, a [total_transactions] that is an
    [int] below [-2^63] or from [2^64] on makes extraction raise
    [TypeError] in its first [np.log1p], whatever else the record
    holds. *)
Theorem extract_onchain_type_error (n : Z) :
  use_log_transform (config self) = true ->
  total_transactions w = Some (int n) ->
  (n < - 2 ^ 63 \/ 2 ^ 64 <= n)%Z ->
  extract_onchain_features self w = raise TypeError.
Proof.
  intros Hlog Htx Hn.
  unfold extract_onchain_features. cbv zeta.
  unfold log_transform at 1. rewrite Hlog, Htx. cbn [get].
  unfold np_log1p, np_float64.
  replace ((- 2 ^ 63 <=? n) && (n <? 2 ^ 64))%Z with false; [reflexivity |].
  symmetry. apply andb_false_iff.
  destruct Hn as [Hn | Hn].
  - left. apply Z.leb_gt. exact Hn.
  - right. apply Z.ltb_ge. exact Hn.
Qed.

End OnchainValues.

Lemma extract_onchain_fails_iff_sample :
  result (@extract_onchain_features sample_numpy fitted_engineer
            inverse_volatility_wallet)
  = inl ZeroDivisionError.
Proof.
  apply (@extract_onchain_fails_iff sample_numpy fitted_engineer
           inverse_volatility_wallet).
  - apply inverse_volatility_in_range.
  - split; reflexivity.
Defined.

Lemma extract_onchain_type_error_sample :
  @extract_onchain_features sample_numpy (new None) huge_count_wallet
  = raise TypeError.
Proof.
  apply (@extract_onchain_type_error sample_numpy (new None) huge_count_wallet
           (2 ^ 64)).
  - reflexivity.
  - reflexivity.
  - right. apply Z.le_refl.
Defined.

(** *** The pipeline *)

Section Pipeline.
Context `{Numpy}.
Variable self : FeatureEngineer.
Variable w : WalletData.

(** What [engineer_features] returns in range, up to the eight clipped
    entries. *)
Lemma engineer_features_shape :
  in_range w ->
  ~ (as_Q (get (portfolio_volatility w) (int 0)) == -1)%Q ->
  stats_consistent self ->
  exists l out,
    engineer_features self w = (l, inr out)
    /\ dom out = all_feature_names
    /\ forall name,
         name ∉ continuous_features ->
         out !! name = combined_features self w !! name.
Proof.
  intros Hrange Hv Hcons.
  rewrite (engineer_features_in_range self w Hrange Hv).
  destruct (handle_outliers (config self)).
  - unfold _handle_outliers.
    destruct (for_each_clip_total self continuous_features Hcons
                (combined_features self w)) as [l Hrun].
    rewrite Hrun. do 2 eexists. split; [reflexivity |].
    split; [rewrite clip_all_dom; apply combined_features_dom |].
    intros name Hout.
    rewrite (clip_all_lookup self continuous_features continuous_features_NoDup).
    rewrite decide_False by exact Hout. reflexivity.
  - do 2 eexists. split; [reflexivity |].
    split; [apply combined_features_dom | reflexivity].
Qed.

Lemma offchain_lacks (name : string) :
  name ∉ offchain_feature_names ->
  extract_offchain_features self w !! name = None.
Proof.
  intros Hout. apply not_elem_of_dom. rewrite extract_offchain_dom. exact Hout.
Qed.

Lemma composite_lacks (onchain offchain : gmap string Q) (name : string) :
  name ∉ composite_feature_names ->
  create_composite_features self onchain offchain !! name = None.
Proof.
  intros Hout. apply not_elem_of_dom. rewrite create_composite_dom. exact Hout.
Qed.

(** X4.  On a record in range whose numeric signals are all non-negative
    (and an engineer whose statistics hold a standard deviation for every
    mean), [engineer_features] returns, and in its result
    [trust_indicators], [risk_indicators] and [social_presence] lie in
    [0, 1] and [portfolio_stability] in (0, 1]. *)
Theorem engineered_indicator_ranges :
  nonneg_signals w ->
  in_range w ->
  stats_consistent self ->
  exists features trust risk presence stability,
    result (engineer_features self w) = inr features
    /\ features !! "trust_indicators" = Some trust
    /\ features !! "risk_indicators" = Some risk
    /\ features !! "social_presence" = Some presence
    /\ features !! "portfolio_stability" = Some stability
    /\ (0 <= trust <= 1)%Q
    /\ (0 <= risk <= 1)%Q
    /\ (0 <= presence <= 1)%Q
    /\ (0 < stability <= 1)%Q.
Proof.
  intros (Htx & Hci & Huc & _ & _ & _ & Hvol & Hage & _) Hrange Hcons.
  apply nonneg_signal_get in Htx, Hci, Huc, Hvol, Hage.
  assert (Hv : ~ (as_Q (get (portfolio_volatility w) (int 0)) == -1)%Q) by lra.
  destruct (engineer_features_shape Hrange Hv Hcons) as (l & out & Hrun & _ & Hframe).
  destruct (onchain_values_lookup self w) as (_ & Hdiv & Hvl & Hst & Hag & Htpd).
  destruct (extract_offchain_lookup self w) as (Hens & _ & _ & _ & Hpres).
  destruct (create_composite_lookup self (onchain_dictionary self w)
              (extract_offchain_features self w)) as (Htrust & Hrisk & _).
  rewrite Hdiv, Hag, Hens in Htrust. rewrite Hvl, Htpd in Hrisk.
  cbn [get] in Htrust, Hrisk.
  pose proof (as_Q_sum_of_one (get (portfolio_volatility w) (int 0))) as Hone.
  exists out. do 4 eexists.
  split; [rewrite Hrun; reflexivity |].
  split.
  { rewrite Hframe by compute_done. apply lookup_union_Some_l. exact Htrust. }
  split.
  { rewrite Hframe by compute_done. apply lookup_union_Some_l. exact Hrisk. }
  split.
  { rewrite Hframe by compute_done. unfold combined_features.
    rewrite lookup_union_r by (apply composite_lacks; compute_done).
    apply lookup_union_Some_l. exact Hpres. }
  split.
  { rewrite Hframe by compute_done. unfold combined_features.
    rewrite lookup_union_r by (apply composite_lacks; compute_done).
    rewrite lookup_union_r by (apply offchain_lacks; compute_done).
    exact Hst. }
  split.
  { apply trust_formula_range.
    - destruct (get (has_ens w) false); lra.
    - apply floored_ratio_bounds. exact Huc.
    - exact Hage. }
  split.
  { destruct (risk_formula_range
                (as_Q (get (total_transactions w) (int 0))
                 / floored (get (account_age w) (int 0)))%Q
                (as_Q (get (portfolio_volatility w) (int 0)))) as [Hle Hge].
    split; [apply Hge; exact Hvol | exact Hle]. }
  split; [apply social_presence_range |].
  split.
  - apply Qlt_shift_div_l; lra.
  - apply Qle_shift_div_r; lra.
Qed.

(** X5.  On an unfitted engineer the [handle_outliers] option changes
    nothing: [engineer_features] gives the same outcome with the option
    on or off, and it emits no log record. *)
Theorem engineer_features_unfitted (b : bool) :
  is_fitted self = false ->
  engineer_features (with_handle_outliers b self) w = engineer_features self w
  /\ emitted (engineer_features self w) = [].
Proof.
  intros Hfit.
  assert (Hplain : forall fe,
            is_fitted fe = false ->
            extract_onchain_features fe w = extract_onchain_features self w ->
            offchain_log_transforms fe w = offchain_log_transforms self w ->
            extract_offchain_features fe w = extract_offchain_features self w ->
            (forall onchain offchain,
               create_composite_features fe onchain offchain
               = create_composite_features self onchain offchain) ->
            exists r,
              engineer_features fe w = ([], r)
              /\ engineer_features self w = ([], r)).
  { intros fe Hfe Hon Hlog Hoff Hcomp. unfold engineer_features.
    rewrite Hon, Hlog, Hoff.
    destruct (extract_onchain_settles self w) as [-> | [e ->]];
      [| eexists; split; reflexivity].
    rewrite !bind_ret_l.
    destruct (offchain_log_transforms_settles self w) as [-> | [e ->]];
      [| eexists; split; reflexivity].
    rewrite !bind_ret_l.
    destruct (composite_conversions_settles w) as [-> | [e ->]];
      [| eexists; split; reflexivity].
    rewrite !bind_ret_l, Hcomp.
    unfold _handle_outliers.
    rewrite (for_each_clip_unfitted fe), (for_each_clip_unfitted self)
      by assumption.
    eexists. destruct (handle_outliers (config fe)),
      (handle_outliers (config self)); split; reflexivity. }
  destruct (Hplain (with_handle_outliers b self) Hfit eq_refl eq_refl eq_refl
              (fun _ _ => eq_refl))
    as (r & Hb & Hself).
  rewrite Hb, Hself. split; reflexivity.
Qed.

End Pipeline.

Lemma engineered_indicator_ranges_sample :
  exists features trust risk,
    result (@engineer_features sample_numpy fitted_engineer sample_wallet_data)
    = inr features
    /\ features !! "trust_indicators" = Some trust
    /\ features !! "risk_indicators" = Some risk
    /\ (0 <= trust <= 1)%Q /\ (0 <= risk <= 1)%Q.
Proof.
  destruct (@engineered_indicator_ranges sample_numpy fitted_engineer
              sample_wallet_data sample_wallet_nonneg sample_wallet_in_range
              fitted_engineer_consistent)
    as (features & trust & risk & presence & stability & Hres & Ht & Hr & _ & _
        & Htrust & Hrisk & _).
  exists features, trust, risk.
  split; [exact Hres |]. split; [exact Ht |]. split; [exact Hr |].
  split; [exact Htrust | exact Hrisk].
Defined.

Lemma engineer_features_unfitted_sample :
  @engineer_features sample_numpy (with_handle_outliers false (new None))
    sample_wallet_data
  = @engineer_features sample_numpy (new None) sample_wallet_data
  /\ emitted (@engineer_features sample_numpy (new None) sample_wallet_data) = [].
Proof.
  apply (@engineer_features_unfitted sample_numpy (new None) sample_wallet_data false).
  reflexivity.
Defined.

(** *** Scaling *)

Section Scaling.
Variable self : FeatureEngineer.
Variable features : gmap string Q.

Let scaled_value (name : string) (value : Q) : Q :=
  match scalers self !! name with
  | Some scaler => scaler_transform scaler value
  | None => value
  end.

Lemma transform_features_returns :
  exists l out,
    transform_features self features = (l, inr out)
    /\ dom out = dom features
    /\ forall name, out !! name = (if is_fitted self then scaled_value name else id)
                                  <$> features !! name.
Proof.
  unfold transform_features. destruct (is_fitted self); cbn [negb].
  - do 2 eexists. split; [reflexivity |].
    assert (Hlook : forall name,
              map_imap (fun feature_name value =>
                  match scalers self !! feature_name with
                  | Some scaler => Some (scaler_transform scaler value)
                  | None => Some value
                  end) features !! name
              = scaled_value name <$> features !! name).
    { intros name. rewrite map_lookup_imap. unfold scaled_value.
      destruct (features !! name) as [v |]; cbn; [| reflexivity].
      destruct (scalers self !! name); reflexivity. }
    split; [| exact Hlook].
    apply set_eq. intros name. rewrite !elem_of_dom, Hlook.
    destruct (features !! name); cbn; split; intros [x Hx]; eauto; discriminate.
  - do 2 eexists. split; [reflexivity |]. split; [reflexivity |].
    intros name. destruct (features !! name); reflexivity.
Qed.

(** X6.  On a fitted engineer [transform_features] returns without a log
    record a dictionary with the same keys; a feature that has a scaler
    becomes [(value - center_) / scale_], every other feature keeps its
    value. *)
Theorem transform_features_fitted :
  is_fitted self = true ->
  exists out,
    transform_features self features = ret out
    /\ dom out = dom features
    /\ (forall name value scaler,
          features !! name = Some value ->
          scalers self !! name = Some scaler ->
          out !! name = Some ((value - center_ scaler) / scale_ scaler)%Q)
    /\ (forall name value,
          features !! name = Some value ->
          scalers self !! name = None ->
          out !! name = Some value).
Proof.
  intros Hfit.
  destruct transform_features_returns as (l & out & Hrun & Hdom & Hlook).
  rewrite Hfit in Hlook.
  exists out. split.
  { rewrite Hrun. unfold transform_features in Hrun. rewrite Hfit in Hrun.
    injection Hrun as <- _. reflexivity. }
  split; [exact Hdom |].
  split.
  - intros name value scaler Hv Hs. rewrite Hlook, Hv. cbn.
    unfold scaled_value. rewrite Hs. reflexivity.
  - intros name value Hv Hs. rewrite Hlook, Hv. cbn.
    unfold scaled_value. rewrite Hs. reflexivity.
Qed.

End Scaling.

Lemma transform_features_fitted_sample :
  exists out,
    transform_features scaling_engineer
      (<["tx_count" := 16%Q]> {[ "has_ens" := 1%Q ]}) = ret out
    /\ out !! "tx_count" = Some ((16 - 10) / 2)%Q
    /\ out !! "has_ens" = Some 1%Q.
Proof.
  destruct (transform_features_fitted scaling_engineer
              (<["tx_count" := 16%Q]> {[ "has_ens" := 1%Q ]}))
    as (out & Hrun & _ & Hscaled & Hkept); [reflexivity |].
  exists out. split; [exact Hrun |]. split.
  - apply (Hscaled "tx_count" 16%Q {| center_ := 10%Q; scale_ := 2%Q |}); reflexivity.
  - apply Hkept; reflexivity.
Defined.

(** *** Fitting *)

Section Fit.
Context `{Fitting}.
Variable self : FeatureEngineer.

Lemma fold_insert_lookup {V} (g : string -> V) (columns : list string) :
  forall (m : gmap string V) (name : string),
    fold_left (fun acc column => <[column := g column]> acc) columns m !! name
    = if decide (name ∈ columns) then Some (g name) else m !! name.
Proof.
  induction columns as [| column columns IH]; intros m name; cbn [fold_left].
  - destruct (decide (name ∈ [])) as [Hin |]; [inversion Hin | reflexivity].
  - rewrite IH.
    destruct (decide (name ∈ columns)) as [Hin | Hnin].
    + destruct (decide (name ∈ column :: columns)) as [_ | Hn];
        [reflexivity | elim Hn; apply elem_of_cons; auto].
    + destruct (decide (column = name)) as [-> | Hne].
      * rewrite lookup_insert_eq.
        destruct (decide (name ∈ name :: columns)) as [_ | Hn];
          [reflexivity | elim Hn; apply elem_of_cons; auto].
      * rewrite lookup_insert_ne by exact Hne.
        destruct (decide (name ∈ column :: columns)) as [Hmem | _]; [| reflexivity].
        apply elem_of_cons in Hmem as [-> | Hmem]; [elim Hne; reflexivity | contradiction].
Qed.

(** X7.  Fitting on a non-empty batch succeeds: the engineer becomes
    fitted, keeps its configuration, takes the statistics of the batch,
    holds a freshly fitted scaler for every column of the batch and keeps
    the scalers it had under other names; one INFO record is emitted. *)
Theorem fit_scalers_nonempty_batch (row : gmap string Q) (rows : list (gmap string Q)) :
  exists fitted,
    fit_scalers self (row :: rows)
    = (fitted, ([ {| lvl := INFO; what := FittedScalers (size (scalers fitted)) |} ],
                inr tt))
    /\ is_fitted fitted = true
    /\ config fitted = config self
    /\ feature_stats fitted = df_stats (row :: rows)
    /\ (forall column,
          column ∈ df_columns (row :: rows) ->
          scalers fitted !! column
          = Some (scaler_fit (use_robust_scaling (config self))
                    (df_column (row :: rows) column)))
    /\ (forall name,
          name ∉ df_columns (row :: rows) ->
          scalers fitted !! name = scalers self !! name).
Proof.
  exists (fst (fit_scalers self (row :: rows))).
  split; [reflexivity |].
  cbn [fit_scalers fst is_fitted config feature_stats scalers].
  repeat split.
  - intros column Hin.
    rewrite (fold_insert_lookup
               (fun column => scaler_fit (use_robust_scaling (config self))
                                (df_column (row :: rows) column))).
    rewrite decide_True by exact Hin. reflexivity.
  - intros name Hout.
    rewrite (fold_insert_lookup
               (fun column => scaler_fit (use_robust_scaling (config self))
                                (df_column (row :: rows) column))).
    rewrite decide_False by exact Hout. reflexivity.
Qed.

End Fit.

Lemma fit_scalers_nonempty_batch_sample :
  exists fitted,
    fst (@fit_scalers first_row_fitting scaling_engineer
           [ {[ "has_ens" := 1%Q ]}; {[ "has_ens" := 0%Q ]} ]) = fitted
    /\ is_fitted fitted = true
    /\ scalers fitted !! "has_ens" = Some {| center_ := 1%Q; scale_ := 1%Q |}
    /\ scalers fitted !! "tx_count" = Some {| center_ := 10%Q; scale_ := 2%Q |}.
Proof.
  destruct (@fit_scalers_nonempty_batch first_row_fitting scaling_engineer
              {[ "has_ens" := 1%Q ]} [ {[ "has_ens" := 0%Q ]} ])
    as (fitted & Hrun & Hfit & _ & _ & Hnew & Hold).
  exists fitted. split; [rewrite Hrun; reflexivity |]. split; [exact Hfit |].
  split.
  - rewrite (Hnew "has_ens"); [reflexivity | compute_done].
  - rewrite (Hold "tx_count"); [reflexivity | compute_done].
Defined.

(** *** Persistence *)

Section Persistence.
Variable self : FeatureEngineer.
Variable filepath : string.
Variable files : gmap string Dump.

(** X8.  What a fitted engineer saves, any engineer loads back: after
    [save_scalers] then [load_scalers] on the same path the loading
    engineer equals the saving one, and no other file was touched. *)
Theorem save_then_load (other : FeatureEngineer) :
  is_fitted self = true ->
  fst (load_scalers other filepath (fst (save_scalers self filepath files))) = self
  /\ result (snd (load_scalers other filepath (fst (save_scalers self filepath files))))
     = inr tt
  /\ forall path, path <> filepath ->
       fst (save_scalers self filepath files) !! path = files !! path.
Proof.
  intros Hfit. unfold save_scalers. rewrite Hfit. cbn [fst].
  unfold load_scalers. rewrite lookup_insert_eq. cbn.
  split; [| split; [reflexivity |]].
  - destruct self as [cfg sc st fitted]. cbn in Hfit |- *. subst fitted. reflexivity.
  - intros path Hne. apply lookup_insert_ne. congruence.
Qed.

(** X9.  Loading a path that holds no file raises [FileNotFoundError] and
    leaves the engineer as it was; this is what follows a [save_scalers]
    that an unfitted engineer skipped. *)
Theorem load_scalers_missing (other : FeatureEngineer) :
  files !! filepath = None ->
  load_scalers other filepath files = (other, ([], inl (FileNotFoundError filepath)))
  /\ (is_fitted self = false ->
      load_scalers other filepath (fst (save_scalers self filepath files))
      = (other, ([], inl (FileNotFoundError filepath)))).
Proof.
  intros Hnone. split.
  - unfold load_scalers. rewrite Hnone. reflexivity.
  - intros Hfit. unfold save_scalers. rewrite Hfit. cbn [fst].
    unfold load_scalers. rewrite Hnone. reflexivity.
Qed.

End Persistence.

Lemma save_then_load_sample :
  fst (load_scalers (new None) "scalers.pkl"
         (fst (save_scalers fitted_engineer "scalers.pkl" ∅)))
  = fitted_engineer.
Proof.
  apply (save_then_load fitted_engineer "scalers.pkl" ∅ (new None)). reflexivity.
Defined.

Lemma load_scalers_missing_sample :
  load_scalers fitted_engineer "scalers.pkl"
    (fst (save_scalers (new None) "scalers.pkl" ∅))
  = (fitted_engineer, ([], inl (FileNotFoundError "scalers.pkl"))).
Proof.
  apply (load_scalers_missing (new None) "scalers.pkl" ∅ fitted_engineer);
    reflexivity.
Defined.

(** *** Outlier handling: bounds and a second pass *)

Lemma Qabs_sign_scaled (x c : Q) :
  (0 <= c)%Q -> ~ (x == 0)%Q -> (Qabs (Qsign x * c) == c)%Q.
Proof.
  intros Hc Hx. destruct (Q_dec x 0) as [[Hneg | Hpos] | Hzero]; [| | contradiction].
  - rewrite (Qsign_neg x Hneg). rewrite Qabs_neg by lra. ring.
  - rewrite (Qsign_pos x Hpos). rewrite Qabs_pos by lra. ring.
Qed.

Section Clipping.
Variable self : FeatureEngineer.
Hypothesis Hspread : nonneg_spread self.

Lemma clip_value_within (name : string) (v mean std : Q) :
  is_fitted self = true ->
  stats_mean (feature_stats self) !! name = Some mean ->
  stats_std (feature_stats self) !! name = Some std ->
  (Qabs (clip_value self name v - mean) <= outlier_threshold (config self) * std)%Q.
Proof.
  intros Hfit Hm Hs. unfold clip_value. rewrite Hm, Hs, Hfit. cbn [andb].
  pose proof (Hspread name std Hs) as Hnn.
  destruct (Qgtb _ _) eqn:Hgt.
  - apply Qgtb_true in Hgt.
    assert (Hne : ~ (v - mean == 0)%Q).
    { intros E. rewrite E in Hgt. change (Qabs 0) with 0%Q in Hgt. lra. }
    assert (Heq : (mean + Qsign (v - mean) * outlier_threshold (config self) * std
                   - mean
                   == Qsign (v - mean) * (outlier_threshold (config self) * std))%Q)
      by ring.
    rewrite Heq, (Qabs_sign_scaled _ _ Hnn Hne). lra.
  - apply Qgtb_false in Hgt. exact Hgt.
Qed.

Lemma clip_value_idempotent (name : string) (v : Q) :
  clip_value self name (clip_value self name v) = clip_value self name v.
Proof.
  destruct (stats_mean (feature_stats self) !! name) as [mean |] eqn:Hm;
    [| unfold clip_value; rewrite Hm; reflexivity].
  destruct (stats_std (feature_stats self) !! name) as [std |] eqn:Hs;
    [| unfold clip_value; rewrite Hm, Hs; reflexivity].
  destruct (is_fitted self) eqn:Hfit;
    [| unfold clip_value; rewrite Hm, Hs, Hfit; reflexivity].
  pose proof (clip_value_within name v mean std Hfit Hm Hs) as Hin.
  apply Qgtb_false in Hin.
  unfold clip_value at 1. rewrite Hm, Hs, Hfit. cbn [andb]. rewrite Hin. reflexivity.
Qed.


End Clipping.

Lemma fitted_engineer_spread : nonneg_spread fitted_engineer.
Proof.
  intros name std Hs. cbn in Hs.
  apply lookup_singleton_Some in Hs as [_ <-]. vm_compute. discriminate.
Qed.


(** *** The feature vector *)

Lemma bind_returned {A B} (m : M A) (k : A -> M B) l a l' r :
  m = (l, inr a) -> k a = (l', r) -> bind m k = (l ++ l', r).
Proof. intros -> Hk. unfold bind. rewrite Hk. reflexivity. Qed.

Lemma collect_values (m : gmap string Q) (names : list string) :
  (forall name, name ∈ names -> is_Some (m !! name)) ->
  forall vector,
    exists values,
      for_each (fun vector name =>
          do v <- subscript m name;
          ret (vector ++ [v])) names vector
      = ret (vector ++ values)
      /\ Forall2 (fun name v => m !! name = Some v) names values.
Proof.
  induction names as [| name names IH]; intros Hall vector.
  - exists []. rewrite app_nil_r. split; [reflexivity | constructor].
  - destruct (Hall name) as [v Hv]; [apply elem_of_cons; auto |].
    destruct (IH (fun n Hn => Hall n (proj2 (elem_of_cons _ _ _) (or_intror Hn)))
                (vector ++ [v])) as (values & Hrun & Hrel).
    exists (v :: values). split.
    + cbn [for_each]. unfold subscript at 1. rewrite Hv, !bind_ret_l, Hrun.
      rewrite <- app_assoc. reflexivity.
    + constructor; assumption.
Qed.

Lemma sorted_keys_all (d : gmap string Q) :
  dom d = all_feature_names -> sorted_keys d = feature_order.
Proof. intros Hdom. unfold sorted_keys. rewrite Hdom. vm_compute. reflexivity. Qed.

Section Vector.
Context `{Numpy}.
Variable feature_engineer : FeatureEngineer.
Variable w : WalletData.

(** X11.  For every record in range whose [portfolio_volatility] is not
    -1 (and an engineer whose statistics hold a standard deviation for
    every mean), [create_feature_vector] returns the thirty-two feature
    names in ascending order, the same list for every record, and the
    vector of the scaled values of these names, in that order. *)
Theorem create_feature_vector_order :
  in_range w ->
  ~ (as_Q (get (portfolio_volatility w) (int 0)) == -1)%Q ->
  stats_consistent feature_engineer ->
  exists l scaled_features feature_vector,
    scaled_features_for feature_engineer w = (l, inr scaled_features)
    /\ create_feature_vector w feature_engineer
       = (l, inr (feature_vector, feature_order))
    /\ Forall2 (fun name v => scaled_features !! name = Some v)
         feature_order feature_vector.
Proof.
  intros Hrange Hv Hcons.
  destruct (engineer_features_shape feature_engineer w Hrange Hv Hcons)
    as (l1 & features & Hrun & Hdom & _).
  destruct (transform_features_returns feature_engineer features)
    as (l2 & scaled & Hscale & Hdom' & _).
  assert (Hkeys : sorted_keys scaled = feature_order).
  { apply sorted_keys_all. rewrite Hdom'. exact Hdom. }
  destruct (collect_values scaled feature_order) with (vector := @nil Q)
    as (values & Hcollect & Hrel).
  { intros name Hin. apply elem_of_dom. rewrite Hdom', Hdom.
    revert name Hin. apply Forall_forall. compute_done. }
  exists (l1 ++ l2), scaled, values.
  split; [| split; [| exact Hrel]].
  - unfold scaled_features_for. exact (bind_returned _ _ _ _ _ _ Hrun Hscale).
  - unfold create_feature_vector.
    apply (bind_returned _ _ _ _ _ _ Hrun).
    rewrite <- (app_nil_r l2).
    apply (bind_returned _ _ _ _ _ _ Hscale).
    cbv zeta. rewrite Hkeys, Hcollect, bind_ret_l. reflexivity.
Qed.

End Vector.

Lemma create_feature_vector_order_sample :
  exists l feature_vector,
    @create_feature_vector sample_numpy sample_wallet_data trained_engineer
    = (l, inr (feature_vector, feature_order))
    /\ length feature_vector = 32.
Proof.
  destruct (@create_feature_vector_order sample_numpy trained_engineer
              sample_wallet_data sample_wallet_in_range)
    as (l & scaled & vector & _ & Hrun & Hrel).
  - vm_compute. discriminate.
  - apply trained_engineer_consistent.
  - exists l, vector. split; [exact Hrun |].
    apply Forall2_length in Hrel. rewrite <- Hrel. reflexivity.
Defined.

(** On the trained engineer the sample's transaction count is clipped to
    16 and scaled to [(16 - 10) / 2 = 3]. *)
Example sample_vector_tx_count :
  returned_feature
    (@scaled_features_for sample_numpy trained_engineer sample_wallet_data)
    "tx_count"
  = Some 3%Q.
Proof. vm_compute. reflexivity. Qed.

End FeatureEngineeringMore.

(** ** Explanations: the remaining methods *)

Module ExplainMore.
Import FeatureEngineering Explain ExplainText FeatureEngineeringFacts ExplainFacts
  FeatureEngineeringMore.

(** *** The deterministic attribution *)

Section Deterministic.
Variable self : TrustScoreExplainer.
Variable scaled_features : gmap string Q.
Variable predicted_score : Q.

Let contributions :=
  _get_deterministic_contributions self scaled_features predicted_score.
Let base := normalization_base self scaled_features.
Let raws := map (raw_entry self scaled_features) (feature_names self).

Lemma deterministic_contributions_cases :
  contributions = raws
  \/ contributions
     = map (scale_contribution ((predicted_score - 50.0) / base)) raws.
Proof.
  unfold contributions, base, raws.
  destruct (Qlt_le_dec 0 (normalization_base self scaled_features)) as [Hpos | Hle].
  - right. apply deterministic_contributions_positive_base. exact Hpos.
  - left. apply deterministic_contributions_zero_base. lra.
Qed.

Lemma deterministic_contributions_names :
  map feature_name contributions = feature_names self.
Proof.
  assert (Hraw_names : map feature_name raws = feature_names self).
  { unfold raws. rewrite map_map. apply map_id. }
  destruct deterministic_contributions_cases as [-> | ->];
    [exact Hraw_names | rewrite map_map; exact Hraw_names].
Qed.

(** X12.  The deterministic path returns one entry per declared feature
    name, in the order of the names; each entry holds the scaled value (0
    for a missing feature), the description of the name (the name itself
    when it has none), and as importance the magnitude of
    [value * weight * 100], whether or not the contribution was rescaled. *)
Theorem deterministic_contributions_entries :
  map feature_name contributions = feature_names self
  /\ length contributions = length (feature_names self)
  /\ Forall (fun c =>
        value c = get (scaled_features !! feature_name c) 0%Q
        /\ importance c = Qabs (raw_contribution self scaled_features (feature_name c))
        /\ description c
           = get (feature_descriptions !! feature_name c) (feature_name c))
      contributions.
Proof.
  assert (Hraw_names : map feature_name raws = feature_names self).
  { unfold raws. rewrite map_map. apply map_id. }
  assert (Hraw_all : Forall (fun c =>
             value c = get (scaled_features !! feature_name c) 0%Q
             /\ importance c
                = Qabs (raw_contribution self scaled_features (feature_name c))
             /\ description c
                = get (feature_descriptions !! feature_name c) (feature_name c))
           raws).
  { unfold raws. apply Forall_map, Forall_forall. intros name _.
    repeat split. }
  destruct deterministic_contributions_cases as [-> | ->].
  - split; [exact Hraw_names |]. split; [| exact Hraw_all].
    rewrite <- Hraw_names, length_map. reflexivity.
  - split; [rewrite map_map; exact Hraw_names |].
    split; [rewrite length_map, <- Hraw_names, length_map; reflexivity |].
    apply Forall_map. eapply Forall_impl; [exact Hraw_all |].
    intros c Hc. exact Hc.
Qed.

Lemma sum_raws_nonneg :
  (forall name, name ∈ feature_names self ->
                (0 <= raw_contribution self scaled_features name)%Q) ->
  (sum_contributions raws == base)%Q.
Proof.
  unfold raws, base, normalization_base, sum_contributions.
  induction (feature_names self) as [| name names IH]; intros Hnn.
  - reflexivity.
  - cbn [map]. rewrite !py_sum_cons, IH.
    + cbn [raw_entry contribution].
      rewrite Qabs_pos by (apply Hnn; apply elem_of_cons; auto). reflexivity.
    + intros n Hn. apply Hnn. apply elem_of_cons. auto.
Qed.

(** X13.  With a positive base the absolute contributions add up to the
    absolute deviation of the score from 50, and each contribution is the
    raw one times [(score - 50) / base]. *)
Theorem deterministic_contributions_normalised :
  (0 < base)%Q ->
  (py_sum (map (fun c => Qabs (contribution c)) contributions)
   == Qabs (predicted_score - 50))%Q
  /\ Forall (fun c =>
        (contribution c
         == raw_contribution self scaled_features (feature_name c)
            * ((predicted_score - 50) / base))%Q)
      contributions.
Proof.
  intros Hbase. split.
  - unfold contributions.
    rewrite (deterministic_contributions_abs_sum self scaled_features predicted_score)
      by exact Hbase.
    apply Qabs_wd. ring.
  - unfold contributions.
    rewrite deterministic_contributions_positive_base by exact Hbase.
    apply Forall_map, Forall_map, Forall_forall. intros name _.
    cbn [scale_contribution contribution feature_name raw_entry].
    apply Qmult_comp; [reflexivity |].
    apply Qmult_comp; [ring | reflexivity].
Qed.

(** X14.  With a positive base, a score above 50 gives every contribution
    the sign of its raw value (positive, negative or zero with it), a
    score below 50 the opposite sign, and the score 50 makes every
    contribution zero. *)
Theorem deterministic_contribution_signs :
  (0 < base)%Q ->
  Forall (fun c =>
      let raw := raw_contribution self scaled_features (feature_name c) in
      ((50 < predicted_score)%Q ->
         ((0 < raw)%Q -> (0 < contribution c)%Q)
         /\ ((raw < 0)%Q -> (contribution c < 0)%Q)
         /\ ((raw == 0)%Q -> (contribution c == 0)%Q))
      /\ ((predicted_score < 50)%Q ->
         ((0 < raw)%Q -> (contribution c < 0)%Q)
         /\ ((raw < 0)%Q -> (0 < contribution c)%Q)
         /\ ((raw == 0)%Q -> (contribution c == 0)%Q))
      /\ ((predicted_score == 50)%Q -> (contribution c == 0)%Q))
    contributions.
Proof.
  intros Hbase. unfold contributions.
  rewrite deterministic_contributions_positive_base by exact Hbase.
  apply Forall_map, Forall_map, Forall_forall. intros name _.
  cbn [scale_contribution contribution feature_name raw_entry].
  set (raw := raw_contribution self scaled_features name).
  fold base.
  set (factor := ((predicted_score - 50.0) / base)%Q).
  assert (Hup : (50 < predicted_score)%Q -> (0 < factor)%Q).
  { intros Hs. apply Qlt_shift_div_l; lra. }
  assert (Hdown : (predicted_score < 50)%Q -> (factor < 0)%Q).
  { intros Hs. apply Qlt_shift_div_r; lra. }
  assert (Hflat : (predicted_score == 50)%Q -> (factor == 0)%Q).
  { intros Hs. unfold factor. rewrite Hs. field. lra. }
  split; [| split].
  - intros Hs. specialize (Hup Hs). repeat split; intros Hraw; nra.
  - intros Hs. specialize (Hdown Hs). repeat split; intros Hraw; nra.
  - intros Hs. rewrite (Hflat Hs). ring.
Qed.

(** X15.  With a positive base and no negative raw contribution the
    rescaled contributions do add up to the deviation of the score
    from 50. *)
Theorem deterministic_contributions_sum_nonneg :
  (0 < base)%Q ->
  (forall name, name ∈ feature_names self ->
                (0 <= raw_contribution self scaled_features name)%Q) ->
  (sum_contributions contributions == predicted_score - 50)%Q.
Proof.
  intros Hbase Hnn. unfold contributions.
  rewrite (deterministic_contributions_signed_sum self scaled_features predicted_score)
    by exact Hbase.
  fold raws. rewrite (sum_raws_nonneg Hnn). fold base. field. lra.
Qed.

End Deterministic.

Lemma deterministic_contributions_normalised_sample :
  (py_sum (map (fun c => Qabs (contribution c))
             (_get_deterministic_contributions fallback_explainer
                (<["has_ens" := 1%Q]> {[ "risk_indicators" := 1%Q ]}) 60))
   == Qabs (60 - 50))%Q.
Proof.
  apply (deterministic_contributions_normalised fallback_explainer
           (<["has_ens" := 1%Q]> {[ "risk_indicators" := 1%Q ]}) 60).
  vm_compute. reflexivity.
Defined.

Lemma deterministic_contribution_signs_sample :
  Forall (fun c =>
      let raw := raw_contribution fallback_explainer
                   (<["has_ens" := 1%Q]> {[ "risk_indicators" := 1%Q ]})
                   (feature_name c) in
      ((0 < raw)%Q -> (0 < contribution c)%Q)
      /\ ((raw < 0)%Q -> (contribution c < 0)%Q))
    (_get_deterministic_contributions fallback_explainer
       (<["has_ens" := 1%Q]> {[ "risk_indicators" := 1%Q ]}) 60).
Proof.
  assert (Hbase : (0 < normalization_base fallback_explainer
                         (<["has_ens" := 1%Q]> {[ "risk_indicators" := 1%Q ]}))%Q)
    by (vm_compute; reflexivity).
  pose proof (deterministic_contribution_signs fallback_explainer
                (<["has_ens" := 1%Q]> {[ "risk_indicators" := 1%Q ]}) 60 Hbase)
    as Hsigns.
  eapply Forall_impl; [exact Hsigns |].
  cbv beta zeta. intros c (Hup & _ & _).
  destruct Hup as (Hpos & Hneg & _); [vm_compute; reflexivity |].
  split; assumption.
Defined.

Lemma deterministic_contributions_sum_nonneg_sample :
  (sum_contributions
     (_get_deterministic_contributions social_explainer
        (<["has_ens" := 1%Q]> {[ "social_presence" := 1%Q ]}) 40)
   == 40 - 50)%Q.
Proof.
  apply (deterministic_contributions_sum_nonneg social_explainer
           (<["has_ens" := 1%Q]> {[ "social_presence" := 1%Q ]}) 40).
  - vm_compute. reflexivity.
  - intros name Hin. cbn in Hin.
    apply elem_of_cons in Hin as [-> | Hin];
      [| apply elem_of_cons in Hin as [-> | Hin]; [| inversion Hin]];
      vm_compute; discriminate.
Defined.

(** *** The SHAP path *)

Section ShapLoop.
Variable scaled_features : gmap string Q.
Variable row : list Q.

Let body (contributions : list FeatureContribution) (entry : nat * string) :=
  let '(i, feature_name) := entry in
  do contribution <- index row i;
  let value := get (scaled_features !! feature_name) 0%Q in
  ret (contributions ++
         [ {| feature_name := feature_name;
              value := value;
              contribution := contribution;
              importance := Qabs contribution;
              description :=
                get (feature_descriptions !! feature_name) feature_name |} ]).

Lemma shap_loop_returns (names : list string) :
  forall start acc,
    (start + length names <= length row)%nat ->
    exists values,
      for_each body (zip (seq start (length names)) names) acc
      = ret (acc ++ zip_with (shap_entry scaled_features) names values)
      /\ values = take (length names) (drop start row).
Proof.
  induction names as [| name names IH]; intros start acc Hlen.
  - exists []. split; [cbn; rewrite app_nil_r; reflexivity | reflexivity].
  - cbn [length] in Hlen.
    assert (Hstart : (start < length row)%nat) by lia.
    destruct (lookup_lt_is_Some_2 row start Hstart) as [x Hx].
    assert (Hrest : (S start + length names <= length row)%nat) by lia.
    destruct (IH (S start) (acc ++ [shap_entry scaled_features name x]) Hrest)
      as (values & Hrun & Hvals).
    exists (x :: values). split.
    + cbn [length seq zip zip_with for_each]. unfold body at 1, index.
      rewrite Hx, !bind_ret_l. fold body. unfold shap_entry at 1 in Hrun.
      rewrite Hrun, <- app_assoc. reflexivity.
    + subst values. cbn [length].
      rewrite (drop_S row x start Hx). reflexivity.
Qed.

Lemma shap_loop_raises (names : list string) :
  forall start acc,
    (start <= length row)%nat ->
    (length row < start + length names)%nat ->
    for_each body (zip (seq start (length names)) names) acc = raise IndexError.
Proof.
  induction names as [| name names IH]; intros start acc Hstart Hlen.
  - cbn [length] in Hlen. lia.
  - cbn [length seq zip zip_with for_each]. unfold body at 1, index.
    destruct (row !! start) as [x |] eqn:Hx.
    + rewrite !bind_ret_l. fold body.
      apply lookup_lt_Some in Hx. cbn [length] in Hlen. apply IH; lia.
    + reflexivity.
Qed.

End ShapLoop.

Section Shap.
Variable self : TrustScoreExplainer.
Variable feature_vector : list Q.
Variable scaled_features : gmap string Q.

Lemma zip_with_shap_entry_names (names : list string) (values : list Q) :
  length names = length values ->
  map feature_name (zip_with (shap_entry scaled_features) names values) = names
  /\ map contribution (zip_with (shap_entry scaled_features) names values) = values.
Proof.
  revert values. induction names as [| name names IH]; intros [| v values] Hlen;
    try discriminate; [split; reflexivity |].
  injection Hlen as Hlen. destruct (IH values Hlen) as [Hn Hc].
  cbn. rewrite Hn, Hc. split; reflexivity.
Qed.

(** The [try] block emits nothing; it raises, or returns one entry per
    name. *)
Lemma shap_loop_cases (row : list Q) :
  ((length (feature_names self) <= length row)%nat
   /\ for_each
        (fun contributions '(i, feature_name) =>
           do contribution <- index row i;
           let value := get (scaled_features !! feature_name) 0%Q in
           ret (contributions ++
                  [ {| feature_name := feature_name;
                       value := value;
                       contribution := contribution;
                       importance := Qabs contribution;
                       description :=
                         get (feature_descriptions !! feature_name) feature_name |} ]))
        (zip (seq 0 (length (feature_names self))) (feature_names self)) []
      = ret (zip_with (shap_entry scaled_features) (feature_names self)
               (take (length (feature_names self)) row)))
  \/ ((length row < length (feature_names self))%nat
      /\ for_each
           (fun contributions '(i, feature_name) =>
              do contribution <- index row i;
              let value := get (scaled_features !! feature_name) 0%Q in
              ret (contributions ++
                     [ {| feature_name := feature_name;
                          value := value;
                          contribution := contribution;
                          importance := Qabs contribution;
                          description :=
                            get (feature_descriptions !! feature_name)
                              feature_name |} ]))
           (zip (seq 0 (length (feature_names self))) (feature_names self)) []
         = raise IndexError).
Proof.
  destruct (le_lt_dec (length (feature_names self)) (length row)) as [Hle | Hlt].
  - left. split; [exact Hle |].
    destruct (shap_loop_returns scaled_features row (feature_names self) 0 [] Hle)
      as (vals & Hrun & ->).
    rewrite drop_0 in Hrun. exact Hrun.
  - right. split; [exact Hlt |].
    apply (shap_loop_raises scaled_features row (feature_names self) 0 []); lia.
Qed.

(** The [try] block with an explainer that answered. *)
Lemma shap_attempt_answered shap values :
  explainer self = Some shap ->
  shap feature_vector = inr values ->
  shap_attempt self feature_vector scaled_features
  = match first_sample values with
    | None => raise IndexError
    | Some row =>
        for_each
          (fun contributions '(i, feature_name) =>
             do contribution <- index row i;
             let value := get (scaled_features !! feature_name) 0%Q in
             ret (contributions ++
                    [ {| feature_name := feature_name;
                         value := value;
                         contribution := contribution;
                         importance := Qabs contribution;
                         description :=
                           get (feature_descriptions !! feature_name)
                             feature_name |} ]))
          (zip (seq 0 (length (feature_names self))) (feature_names self)) []
    end.
Proof.
  intros Hex Hshap. unfold shap_attempt. rewrite Hex, Hshap.
  change (@pair (list LogRecord) (exn + ShapValues) [] (inr values))
    with (ret values).
  rewrite bind_ret_l.
  destruct values as [row | [| row rows]]; cbn [first_sample].
  - rewrite bind_ret_l. reflexivity.
  - reflexivity.
  - rewrite bind_ret_l. reflexivity.
Qed.

(** The [try] block emits nothing; it raises, or returns one entry per
    name. *)
Lemma shap_attempt_cases :
  (exists e, shap_attempt self feature_vector scaled_features = raise e
             /\ forall shap values row,
                  explainer self = Some shap ->
                  shap feature_vector = inr values ->
                  first_sample values = Some row ->
                  (length row < length (feature_names self))%nat /\ e = IndexError)
  \/ (exists row,
        (length (feature_names self) <= length row)%nat
        /\ (forall shap values row',
              explainer self = Some shap ->
              shap feature_vector = inr values ->
              first_sample values = Some row' -> row' = row)
        /\ shap_attempt self feature_vector scaled_features
           = ret (zip_with (shap_entry scaled_features) (feature_names self)
                    (take (length (feature_names self)) row))).
Proof.
  destruct (explainer self) as [shap |] eqn:Hex.
  2:{ left. exists AttributeError. split.
      - unfold shap_attempt. rewrite Hex. reflexivity.
      - intros shap values row Hsome. discriminate. }
  destruct (shap feature_vector) as [e | values] eqn:Hshap.
  { left. exists e. split.
    - unfold shap_attempt. rewrite Hex, Hshap. reflexivity.
    - intros shap' values row [= <-] Hans. rewrite Hshap in Hans. discriminate. }
  rewrite (shap_attempt_answered shap values Hex Hshap).
  destruct (first_sample values) as [row |] eqn:Hfirst.
  - destruct (shap_loop_cases row) as [[Hle Hrun] | [Hlt Hrun]].
    + right. exists row. split; [exact Hle |]. split; [| exact Hrun].
      intros shap' values' row' [= <-] Hans Hfirst'.
      rewrite Hshap in Hans. injection Hans as <-.
      rewrite Hfirst in Hfirst'. injection Hfirst' as <-. reflexivity.
    + left. exists IndexError. split; [exact Hrun |].
      intros shap' values' row' [= <-] Hans Hfirst'.
      rewrite Hshap in Hans. injection Hans as <-.
      rewrite Hfirst in Hfirst'. injection Hfirst' as <-. auto.
  - left. exists IndexError. split; [reflexivity |].
    intros shap' values' row' [= <-] Hans Hfirst'.
    rewrite Hshap in Hans. injection Hans as <-.
    rewrite Hfirst in Hfirst'. discriminate.
Qed.

(** X16.  When the explainer answers with a sample at least as long as the
    list of feature names, the SHAP path returns, without a log record, one
    entry per name in order: its contribution is the SHAP value at the
    position of the name, its importance the magnitude of that value, its
    value the scaled feature (0 when missing). *)
Theorem shap_contributions_success shap values row :
  explainer self = Some shap ->
  shap feature_vector = inr values ->
  first_sample values = Some row ->
  (length (feature_names self) <= length row)%nat ->
  exists contributions,
    _get_shap_contributions self feature_vector scaled_features = ret contributions
    /\ map feature_name contributions = feature_names self
    /\ map contribution contributions = take (length (feature_names self)) row
    /\ Forall (fun c =>
          importance c = Qabs (contribution c)
          /\ value c = get (scaled_features !! feature_name c) 0%Q)
        contributions.
Proof.
  intros Hex Hshap Hfirst Hlen.
  destruct shap_attempt_cases as [(e & _ & Hshort) | (row' & _ & Hsame & Hret)].
  - destruct (Hshort shap values row Hex Hshap Hfirst) as [Hlt _]. lia.
  - rewrite <- (Hsame shap values row Hex Hshap Hfirst) in Hret.
    eexists. split.
    { unfold _get_shap_contributions, try_except. rewrite Hret. reflexivity. }
    destruct (zip_with_shap_entry_names (feature_names self)
                (take (length (feature_names self)) row)) as [Hn Hc].
    { rewrite length_take. lia. }
    split; [exact Hn |]. split; [exact Hc |].
    apply Forall_forall. intros c Hin.
    apply elem_of_lookup_zip_with in Hin as (i & name & v & -> & _ & _).
    split; reflexivity.
Qed.

(** X17.  The SHAP path never raises.  It returns one entry per feature
    name, in order; when the [try] block fails, and only then, it emits a
    warning and returns the deterministic contributions for the score 50.
    A sample shorter than the list of names is such a failure. *)
Theorem shap_contributions_total :
  exists l contributions,
    _get_shap_contributions self feature_vector scaled_features
    = (l, inr contributions)
    /\ map feature_name contributions = feature_names self
    /\ (l = []
        \/ exists e,
             l = [ {| lvl := WARNING; what := ShapFailed e |} ]
             /\ contributions
                = _get_deterministic_contributions self scaled_features 50.0)
    /\ (forall shap values row,
          explainer self = Some shap ->
          shap feature_vector = inr values ->
          first_sample values = Some row ->
          (length row < length (feature_names self))%nat ->
          l = [ {| lvl := WARNING; what := ShapFailed IndexError |} ]).
Proof.
  destruct shap_attempt_cases as [(e & Hraise & Hshort) | (row & Hlen & Hsame & Hret)].
  - do 2 eexists. split.
    { apply shap_contributions_on_failure. exact Hraise. }
    split.
    { apply (deterministic_contributions_names self scaled_features 50.0). }
    split; [right; exists e; split; reflexivity |].
    intros shap values row Hex Hshap Hfirst _.
    destruct (Hshort shap values row Hex Hshap Hfirst) as [_ ->]. reflexivity.
  - do 2 eexists. split.
    { unfold _get_shap_contributions, try_except. rewrite Hret. reflexivity. }
    destruct (zip_with_shap_entry_names (feature_names self)
                (take (length (feature_names self)) row)) as [Hn _].
    { rewrite length_take. lia. }
    split; [exact Hn |]. split; [left; reflexivity |].
    intros shap values row' Hex Hshap Hfirst Hshort. exfalso.
    rewrite (Hsame shap values row' Hex Hshap Hfirst) in Hshort. lia.
Qed.

End Shap.

Lemma shap_contributions_success_sample :
  exists contributions,
    _get_shap_contributions
      (constant_shap_explainer (Shap2D [ [ 1%Q; (-2)%Q; 7%Q ] ])) [ 1%Q; 1%Q ]
      (<["has_ens" := 1%Q]> {[ "risk_indicators" := 1%Q ]})
    = ret contributions
    /\ map contribution contributions = [ 1%Q; (-2)%Q ].
Proof.
  destruct (shap_contributions_success
              (constant_shap_explainer (Shap2D [ [ 1%Q; (-2)%Q; 7%Q ] ])) [ 1%Q; 1%Q ]
              (<["has_ens" := 1%Q]> {[ "risk_indicators" := 1%Q ]})
              (fun _ => inr (Shap2D [ [ 1%Q; (-2)%Q; 7%Q ] ]))
              (Shap2D [ [ 1%Q; (-2)%Q; 7%Q ] ]) [ 1%Q; (-2)%Q; 7%Q ])
    as (contributions & Hrun & _ & Hvalues & _);
    try reflexivity; [cbn; lia |].
  exists contributions. split; [exact Hrun | exact Hvalues].
Defined.

Lemma shap_contributions_total_sample :
  exists contributions,
    _get_shap_contributions (constant_shap_explainer (Shap1D [ 1%Q ])) [ 1%Q; 1%Q ]
      (<["has_ens" := 1%Q]> {[ "risk_indicators" := 1%Q ]})
    = ([ {| lvl := WARNING; what := ShapFailed IndexError |} ], inr contributions)
    /\ map feature_name contributions = [ "has_ens"; "risk_indicators" ].
Proof.
  destruct (shap_contributions_total (constant_shap_explainer (Shap1D [ 1%Q ]))
              [ 1%Q; 1%Q ] (<["has_ens" := 1%Q]> {[ "risk_indicators" := 1%Q ]}))
    as (l & contributions & Hrun & Hnames & _ & Hshort).
  rewrite (Hshort (fun _ => inr (Shap1D [ 1%Q ])) (Shap1D [ 1%Q ]) [ 1%Q ]) in Hrun;
    try reflexivity; [| cbn; lia].
  exists contributions. split; [exact Hrun | exact Hnames].
Defined.

(** *** Sorting *)

Section Sorting.
Context {A : Type}.
Variable before : A -> A -> bool.
Hypothesis before_total : forall x y, before x y = true \/ before y x = true.
Hypothesis before_trans :
  forall x y z, before x y = true -> before y z = true -> before x z = true.

Lemma insert_sorted_perm (x : A) (l : list A) :
  insert_sorted before x l ≡ₚ x :: l.
Proof.
  induction l as [| y l IH]; cbn; [reflexivity |].
  destruct (before x y); [reflexivity |].
  rewrite IH. apply Permutation_swap.
Qed.

Lemma sort_by_perm (l : list A) : sort_by before l ≡ₚ l.
Proof.
  unfold sort_by. induction l as [| x l IH]; cbn; [reflexivity |].
  rewrite insert_sorted_perm, IH. reflexivity.
Qed.

Lemma insert_sorted_strongly (x : A) (l : list A) :
  StronglySorted (fun a b => before a b = true) l ->
  StronglySorted (fun a b => before a b = true) (insert_sorted before x l).
Proof.
  induction l as [| y l IH]; intros Hsorted; cbn.
  - repeat constructor.
  - apply StronglySorted_cons in Hsorted as [Hall Hrest].
    destruct (before x y) eqn:Hxy.
    + apply StronglySorted_cons. split.
      * constructor; [exact Hxy |].
        eapply Forall_impl; [exact Hall |]. intros z Hyz.
        exact (before_trans x y z Hxy Hyz).
      * apply StronglySorted_cons. auto.
    + apply StronglySorted_cons. split; [| auto].
      rewrite insert_sorted_perm. constructor; [| exact Hall].
      destruct (before_total x y) as [Hc | Hc]; [congruence | exact Hc].
Qed.

Lemma sort_by_strongly (l : list A) :
  StronglySorted (fun a b => before a b = true) (sort_by before l).
Proof.
  unfold sort_by. induction l as [| x l IH]; cbn; [constructor |].
  apply insert_sorted_strongly, IH.
Qed.

(** The first [n] entries of a sorted list, against the ones left out. *)
Lemma sort_by_take (n : nat) (l : list A) :
  StronglySorted (fun a b => before a b = true) (take n (sort_by before l))
  /\ take n (sort_by before l) ++ drop n (sort_by before l) ≡ₚ l
  /\ (forall x y, x ∈ take n (sort_by before l) ->
                  y ∈ drop n (sort_by before l) -> before x y = true)
  /\ (length (take n (sort_by before l)) <= n)%nat
  /\ (drop n (sort_by before l) <> [] -> length (take n (sort_by before l)) = n).
Proof.
  pose proof (sort_by_strongly l) as Hsorted.
  rewrite <- (take_drop n (sort_by before l)) in Hsorted.
  apply StronglySorted_app in Hsorted as (Hcross & Htake & _).
  split; [exact Htake |].
  split; [rewrite take_drop; apply sort_by_perm |].
  split; [exact Hcross |].
  split; [rewrite length_take; lia |].
  intros Hrest. rewrite length_take.
  destruct (le_lt_dec (length (sort_by before l)) n) as [Hle | Hlt]; [| lia].
  elim Hrest. apply drop_ge. exact Hle.
Qed.

End Sorting.

Lemma strongly_sorted_weaken {A} (R R' : A -> A -> Prop) (l : list A) :
  (forall x y, R x y -> R' x y) -> StronglySorted R l -> StronglySorted R' l.
Proof.
  intros Himp. induction 1 as [| x l Hsorted IH Hall]; constructor.
  - exact IH.
  - eapply Forall_impl; [exact Hall |]. intros y. apply Himp.
Qed.

(** *** The explanation *)

Section Explanation.
Context `{Numpy}.
Variable self : TrustScoreExplainer.
Variable w : WalletData.

Lemma explain_prediction_inr l e :
  explain_prediction self w = (l, inr e) ->
  exists scaled_features,
    result (scaled_features_of self w) = inr scaled_features
    /\ predicted_score e
       = model self (map (fun name => get (scaled_features !! name) 0%Q)
                       (feature_names self))
    /\ base_score e = 50.0%Q
    /\ top_positive_factors e
       = take 5 (sort_by (fun x y => Qle_bool (contribution y) (contribution x))
                   (positive_entries (feature_contributions e)))
    /\ top_negative_factors e
       = take 5 (sort_by (fun x y => Qle_bool (contribution x) (contribution y))
                   (negative_entries (feature_contributions e)))
    /\ result (_calculate_confidence self scaled_features (feature_contributions e))
       = inr (confidence e)
    /\ match explainer self with
       | Some _ =>
           result (_get_shap_contributions self
                     (map (fun name => get (scaled_features !! name) 0%Q)
                        (feature_names self)) scaled_features)
           = inr (feature_contributions e)
       | None =>
           feature_contributions e
           = _get_deterministic_contributions self scaled_features (predicted_score e)
       end.
Proof.
  unfold explain_prediction. intros Hrun.
  apply bind_inr in Hrun as (l1 & features & l1' & Hf & Hrun & _).
  apply bind_inr in Hrun as (l2 & scaled & l2' & Hs & Hrun & _).
  apply bind_inr in Hrun as (l3 & contributions & l3' & Hc & Hrun & _).
  apply bind_inr in Hrun as (l4 & conf & l4' & Hconf & Hrun & _).
  injection Hrun as _ <-. cbn.
  exists scaled. split.
  { unfold scaled_features_of. rewrite Hf. cbn. rewrite Hs. reflexivity. }
  repeat split.
  - rewrite Hconf. reflexivity.
  - destruct (explainer self).
    + rewrite Hc. reflexivity.
    + injection Hc as _ <-. reflexivity.
Qed.

(** X18.  In a returned explanation the top positive factors are at most
    five entries of positive contribution, in descending order; together
    with the positive entries left out they are the positive entries of
    [feature_contributions], and no entry left out has a larger
    contribution than one kept.  The top negative factors are the same
    with negative contributions in ascending order. *)
Theorem top_factors_ranked l e :
  explain_prediction self w = (l, inr e) ->
  (exists rest,
     top_positive_factors e ++ rest ≡ₚ positive_entries (feature_contributions e)
     /\ StronglySorted descending (top_positive_factors e)
     /\ (forall x y, x ∈ top_positive_factors e -> y ∈ rest -> descending x y)
     /\ Forall (fun c => (0 < contribution c)%Q) (top_positive_factors e)
     /\ (length (top_positive_factors e) <= 5)%nat
     /\ (rest <> [] -> length (top_positive_factors e) = 5%nat))
  /\ (exists rest,
       top_negative_factors e ++ rest ≡ₚ negative_entries (feature_contributions e)
       /\ StronglySorted ascending (top_negative_factors e)
       /\ (forall x y, x ∈ top_negative_factors e -> y ∈ rest -> ascending x y)
       /\ Forall (fun c => (contribution c < 0)%Q) (top_negative_factors e)
       /\ (length (top_negative_factors e) <= 5)%nat
       /\ (rest <> [] -> length (top_negative_factors e) = 5%nat)).
Proof.
  intros Hrun.
  destruct (explain_prediction_inr l e Hrun) as (scaled & _ & _ & _ & Hpos & Hneg & _).
  rewrite Hpos, Hneg. split.
  - destruct (sort_by_take (fun x y => Qle_bool (contribution y) (contribution x))
                ltac:(intros x y; rewrite !Qle_bool_iff;
                      destruct (Qlt_le_dec (contribution x) (contribution y));
                      [right | left]; lra)
                ltac:(intros x y z; rewrite !Qle_bool_iff; lra)
                5 (positive_entries (feature_contributions e)))
      as (Hsorted & Hperm & Hcross & Hlen & Hfull).
    eexists. split; [exact Hperm |].
    split.
    { eapply strongly_sorted_weaken; [| exact Hsorted].
      intros x y Hxy. apply Qle_bool_iff in Hxy. exact Hxy. }
    split.
    { intros x y Hx Hy. apply Qle_bool_iff. exact (Hcross x y Hx Hy). }
    split; [| split; [exact Hlen | exact Hfull]].
    apply Forall_forall. intros c Hin.
    assert (Hmem : c ∈ positive_entries (feature_contributions e)).
    { rewrite <- Hperm. apply elem_of_app. left. exact Hin. }
    apply list_elem_of_filter in Hmem as [Hgt _].
    apply Is_true_true, Qgtb_true in Hgt. exact Hgt.
  - destruct (sort_by_take (fun x y => Qle_bool (contribution x) (contribution y))
                ltac:(intros x y; rewrite !Qle_bool_iff;
                      destruct (Qlt_le_dec (contribution x) (contribution y));
                      [left | right]; lra)
                ltac:(intros x y z; rewrite !Qle_bool_iff; lra)
                5 (negative_entries (feature_contributions e)))
      as (Hsorted & Hperm & Hcross & Hlen & Hfull).
    eexists. split; [exact Hperm |].
    split.
    { eapply strongly_sorted_weaken; [| exact Hsorted].
      intros x y Hxy. apply Qle_bool_iff in Hxy. exact Hxy. }
    split.
    { intros x y Hx Hy. apply Qle_bool_iff. exact (Hcross x y Hx Hy). }
    split; [| split; [exact Hlen | exact Hfull]].
    apply Forall_forall. intros c Hin.
    assert (Hmem : c ∈ negative_entries (feature_contributions e)).
    { rewrite <- Hperm. apply elem_of_app. left. exact Hin. }
    apply list_elem_of_filter in Hmem as [Hgt _].
    apply Is_true_true, Qgtb_true in Hgt. exact Hgt.
Qed.

Lemma contributions_step (scaled_features : gmap string Q) (score : Q) :
  exists l contributions,
    match explainer self with
    | Some _ =>
        _get_shap_contributions self
          (map (fun name => get (scaled_features !! name) 0%Q) (feature_names self))
          scaled_features
    | None => ret (_get_deterministic_contributions self scaled_features score)
    end = (l, inr contributions)
    /\ map feature_name contributions = feature_names self.
Proof.
  destruct (explainer self) eqn:Hex.
  - destruct (shap_attempt_cases self
                (map (fun name => get (scaled_features !! name) 0%Q)
                   (feature_names self)) scaled_features)
      as [(e & Hraise & _) | (row & Hlen & _ & Hret)].
    + do 2 eexists. split.
      * apply shap_contributions_on_failure. exact Hraise.
      * apply (deterministic_contributions_names self scaled_features 50.0).
    + do 2 eexists. split.
      * unfold _get_shap_contributions, try_except. rewrite Hret. reflexivity.
      * apply zip_with_shap_entry_names. rewrite length_take. lia.
  - do 2 eexists. split; [reflexivity |].
    apply (deterministic_contributions_names self scaled_features score).
Qed.

Lemma calculate_confidence_outcome (scaled_features : gmap string Q)
    (contributions : list FeatureContribution) :
  (feature_names self <> [] ->
   exists confidence,
     _calculate_confidence self scaled_features contributions = ret confidence)
  /\ (feature_names self = [] ->
      _calculate_confidence self scaled_features contributions
      = raise ZeroDivisionError).
Proof.
  unfold _calculate_confidence. split.
  - intros Hne. rewrite py_div_nonzero, bind_ret_l
      by (pose proof (Qlen_pos (feature_names self) Hne); lra).
    eexists. reflexivity.
  - intros ->. rewrite py_div_zero by reflexivity. reflexivity.
Qed.

(** X19.  On a record in range, [explain_prediction] raises
    [ZeroDivisionError] when [portfolio_volatility] is -1, and, when it is
    not, on an explainer with no declared feature name; on every other
    record in range (the engineer's statistics holding a standard
    deviation for every mean) it returns an explanation whose base score
    is 50 and whose contributions are one per declared feature name, in
    order. *)
Theorem explain_prediction_outcome :
  in_range w ->
  ((as_Q (get (portfolio_volatility w) (int 0)) == -1)%Q ->
   result (explain_prediction self w) = inl ZeroDivisionError)
  /\ (~ (as_Q (get (portfolio_volatility w) (int 0)) == -1)%Q ->
      stats_consistent (feature_engineer self) ->
      feature_names self = [] ->
      result (explain_prediction self w) = inl ZeroDivisionError)
  /\ (~ (as_Q (get (portfolio_volatility w) (int 0)) == -1)%Q ->
      stats_consistent (feature_engineer self) ->
      feature_names self <> [] ->
      exists l e,
        explain_prediction self w = (l, inr e)
        /\ base_score e = 50.0%Q
        /\ map feature_name (feature_contributions e) = feature_names self).
Proof.
  intros Hrange. split; [| split].
  - intros Hv. unfold explain_prediction.
    rewrite (engineer_features_volatility (feature_engineer self) w Hrange Hv).
    reflexivity.
  - intros Hv Hcons Hnames.
    destruct (engineer_features_shape (feature_engineer self) w Hrange Hv Hcons)
      as (l1 & features & Hrun & _).
    destruct (transform_features_returns (feature_engineer self) features)
      as (l2 & scaled & Hscale & _).
    destruct (contributions_step scaled
                (model self (map (fun name => get (scaled !! name) 0%Q)
                               (feature_names self))))
      as (l3 & contributions & Hc & _).
    destruct (calculate_confidence_outcome scaled contributions) as [_ Hraise].
    unfold explain_prediction.
    erewrite bind_returned; [| exact Hrun |].
    2:{ eapply bind_returned; [exact Hscale |]. cbv zeta.
        eapply bind_returned; [exact Hc |].
        rewrite (Hraise Hnames). reflexivity. }
    reflexivity.
  - intros Hv Hcons Hnames.
    destruct (engineer_features_shape (feature_engineer self) w Hrange Hv Hcons)
      as (l1 & features & Hrun & _).
    destruct (transform_features_returns (feature_engineer self) features)
      as (l2 & scaled & Hscale & _).
    destruct (contributions_step scaled
                (model self (map (fun name => get (scaled !! name) 0%Q)
                               (feature_names self))))
      as (l3 & contributions & Hc & Hcn).
    destruct (calculate_confidence_outcome scaled contributions) as [Hret _].
    destruct (Hret Hnames) as [conf Hconf].
    do 2 eexists. split; [| split].
    + unfold explain_prediction.
      eapply bind_returned; [exact Hrun |].
      eapply bind_returned; [exact Hscale |]. cbv zeta.
      eapply bind_returned; [exact Hc |].
      rewrite Hconf, bind_ret_l. reflexivity.
    + reflexivity.
    + exact Hcn.
Qed.

(** *** Batches *)

Lemma batch_loop_inr (ws : list WalletData) :
  forall acc l es,
    for_each (fun explanations wallet_data =>
        do explanation <- explain_prediction self wallet_data;
        ret (explanations ++ [explanation])) ws acc = (l, inr es) ->
    exists es',
      es = acc ++ es'
      /\ Forall2 (fun wd e => result (explain_prediction self wd) = inr e) ws es'.
Proof.
  induction ws as [| wd ws IH]; intros acc l es Hrun.
  - injection Hrun as _ <-. exists []. rewrite app_nil_r. split; constructor.
  - cbn [for_each] in Hrun.
    apply bind_inr in Hrun as (l1 & acc' & l2 & Hstep & Hrest & _).
    apply bind_inr in Hstep as (l3 & e & l4 & He & Hret & _).
    injection Hret as _ <-.
    apply IH in Hrest as (es' & -> & Hall).
    exists (e :: es'). split; [rewrite <- app_assoc; reflexivity |].
    constructor; [rewrite He; reflexivity | exact Hall].
Qed.

Lemma batch_loop_returns (ws : list WalletData) (es : list TrustScoreExplanation) :
  Forall2 (fun wd e => result (explain_prediction self wd) = inr e) ws es ->
  forall acc, exists l,
    for_each (fun explanations wallet_data =>
        do explanation <- explain_prediction self wallet_data;
        ret (explanations ++ [explanation])) ws acc = (l, inr (acc ++ es)).
Proof.
  induction 1 as [| wd e ws es He _ IH]; intros acc.
  - exists []. rewrite app_nil_r. reflexivity.
  - destruct (explain_prediction self wd) as [l1 r] eqn:Hrun.
    cbn in He. subst r.
    destruct (IH (acc ++ [e])) as [l2 Hrest].
    exists ((l1 ++ []) ++ l2). cbn [for_each]. rewrite Hrun. cbn [bind ret].
    rewrite Hrest. rewrite <- (app_assoc acc [e] es). reflexivity.
Qed.

Lemma batch_loop_raises (ws1 ws2 : list WalletData) (wd : WalletData)
    (es : list TrustScoreExplanation) (e : exn) :
  Forall2 (fun wd e => result (explain_prediction self wd) = inr e) ws1 es ->
  result (explain_prediction self wd) = inl e ->
  forall acc,
    result (for_each (fun explanations wallet_data =>
                do explanation <- explain_prediction self wallet_data;
                ret (explanations ++ [explanation]))
              (ws1 ++ wd :: ws2) acc) = inl e.
Proof.
  induction 1 as [| wd1 e1 ws1 es He1 _ IH]; intros Hfail acc.
  - cbn [app for_each].
    destruct (explain_prediction self wd) as [l1 r]. cbn in Hfail. subst r.
    reflexivity.
  - cbn [app for_each].
    destruct (explain_prediction self wd1) as [l1 r] eqn:Hrun.
    cbn in He1. subst r.
    cbn [bind ret].
    specialize (IH Hfail (acc ++ [e1])).
    destruct (for_each _ (ws1 ++ wd :: ws2) (acc ++ [e1])) as [l2 r2].
    exact IH.
Qed.

(** X20.  [batch_explain] returns exactly when every record can be
    explained, and then the explanations are those of the single records,
    in order; otherwise it raises what the first record that cannot be
    explained raises. *)
Theorem batch_explain_pointwise (ws : list WalletData) :
  (forall es,
     result (batch_explain self ws) = inr es
     <-> Forall2 (fun wd e => result (explain_prediction self wd) = inr e) ws es)
  /\ (forall ws1 wd ws2 es e,
        ws = ws1 ++ wd :: ws2 ->
        Forall2 (fun wd e => result (explain_prediction self wd) = inr e) ws1 es ->
        result (explain_prediction self wd) = inl e ->
        result (batch_explain self ws) = inl e).
Proof.
  unfold batch_explain. split.
  - intros es. split.
    + intros Hres.
      destruct (for_each _ ws []) as [l [ex | es0]] eqn:Hrun; [discriminate |].
      injection Hres as ->.
      apply batch_loop_inr in Hrun as (es' & -> & Hall). exact Hall.
    + intros Hall. destruct (batch_loop_returns ws es Hall []) as [l Hrun].
      rewrite Hrun. reflexivity.
  - intros ws1 wd ws2 es e -> Hall Hfail.
    exact (batch_loop_raises ws1 ws2 wd es e Hall Hfail []).
Qed.

End Explanation.

Lemma explain_prediction_outcome_sample :
  result (@explain_prediction sample_numpy trained_explainer inverse_volatility_wallet)
  = inl ZeroDivisionError
  /\ result (@explain_prediction sample_numpy trained_nameless_explainer
               sample_wallet_data)
     = inl ZeroDivisionError
  /\ exists l e,
       @explain_prediction sample_numpy trained_explainer sample_wallet_data
       = (l, inr e)
       /\ map feature_name (feature_contributions e) = [ "has_ens"; "risk_indicators" ].
Proof.
  split; [| split].
  - destruct (@explain_prediction_outcome sample_numpy trained_explainer
                inverse_volatility_wallet inverse_volatility_in_range)
      as (Hraise & _ & _).
    apply Hraise. reflexivity.
  - destruct (@explain_prediction_outcome sample_numpy trained_nameless_explainer
                sample_wallet_data sample_wallet_in_range) as (_ & Hnameless & _).
    apply Hnameless.
    + vm_compute. discriminate.
    + apply trained_engineer_consistent.
    + reflexivity.
  - destruct (@explain_prediction_outcome sample_numpy trained_explainer
                sample_wallet_data sample_wallet_in_range) as (_ & _ & Hreturns).
    destruct Hreturns as (l & e & Hrun & _ & Hnames).
    + vm_compute. discriminate.
    + apply trained_engineer_consistent.
    + discriminate.
    + exists l, e. split; [exact Hrun | exact Hnames].
Defined.

Lemma top_factors_ranked_sample :
  exists l e,
    @explain_prediction sample_numpy fallback_explainer volatile_ens_wallet = (l, inr e)
    /\ Forall (fun c => (0 < contribution c)%Q) (top_positive_factors e)
    /\ Forall (fun c => (contribution c < 0)%Q) (top_negative_factors e).
Proof.
  destruct (@explain_prediction sample_numpy fallback_explainer volatile_ens_wallet)
    as [l [ex | e]] eqn:Hrun.
  { vm_compute in Hrun. discriminate. }
  destruct (@top_factors_ranked sample_numpy fallback_explainer volatile_ens_wallet
              l e Hrun)
    as ((rest & _ & _ & _ & Hpos & _) & (rest' & _ & _ & _ & Hneg & _)).
  exists l, e. split; [reflexivity |]. split; [exact Hpos | exact Hneg].
Defined.

Lemma batch_explain_pointwise_sample :
  exists e,
    result (@batch_explain sample_numpy fallback_explainer
              [ volatile_ens_wallet; volatile_ens_wallet ]) = inr [ e; e ].
Proof.
  destruct (@explain_prediction sample_numpy fallback_explainer volatile_ens_wallet)
    as [l [ex | e]] eqn:Hrun.
  { vm_compute in Hrun. discriminate. }
  exists e.
  apply (@batch_explain_pointwise sample_numpy fallback_explainer
           [ volatile_ens_wallet; volatile_ens_wallet ]).
  repeat constructor; rewrite Hrun; reflexivity.
Defined.

(** *** The explanation text *)

Lemma append_nil_r (s : string) : String.append s "" = s.
Proof.
  induction s as [| a s IH]; [reflexivity |].
  change (String a (String.append s "") = String a s). f_equal. exact IH.
Qed.

Lemma append_assoc (s1 s2 s3 : string) :
  String.append (String.append s1 s2) s3 = String.append s1 (String.append s2 s3).
Proof.
  induction s1 as [| a s1 IH]; [reflexivity |].
  change (String a (String.append (String.append s1 s2) s3)
          = String a (String.append s1 (String.append s2 s3))).
  f_equal. exact IH.
Qed.

Lemma score_category_bands (predicted_score : Q) :
  ((80 <= predicted_score)%Q ->
   score_category predicted_score = ("excellent", "highly trusted"))
  /\ ((60 <= predicted_score < 80)%Q ->
      score_category predicted_score = ("good", "trusted"))
  /\ ((40 <= predicted_score < 60)%Q ->
      score_category predicted_score = ("moderate", "moderately trusted"))
  /\ ((predicted_score < 40)%Q ->
      score_category predicted_score = ("low", "low trust")).
Proof.
  unfold score_category.
  destruct (Qle_bool 80 predicted_score) eqn:E80;
    destruct (Qle_bool 60 predicted_score) eqn:E60;
    destruct (Qle_bool 40 predicted_score) eqn:E40;
    try apply Qle_bool_iff in E80; try apply Qle_bool_iff in E60;
    try apply Qle_bool_iff in E40;
    try (apply not_true_iff_false in E80; rewrite Qle_bool_iff in E80);
    try (apply not_true_iff_false in E60; rewrite Qle_bool_iff in E60);
    try (apply not_true_iff_false in E40; rewrite Qle_bool_iff in E40);
    (split; [| split; [| split]]); intros Hband; try reflexivity; exfalso; lra.
Qed.

Section Text.
Context `{PyStr}.

(** X21.  The explanation text always opens with the sentence naming the
    category, the rendered score and the trust level; the category is
    excellent from 80 on, good from 60, moderate from 40 and low below,
    each lower bound included; with no factor of either sign the sentence
    is the whole text. *)
Theorem explanation_text_opening (predicted_score : Q)
    (top_positive top_negative : list FeatureContribution) :
  exists category level clauses,
    _generate_explanation_text predicted_score top_positive top_negative
    = String.append
        (String.concat ""
           [ "This wallet has a "; category; " trust score of ";
             format_0f predicted_score; "/100, indicating it is "; level; ". " ])
        clauses
    /\ (top_positive = [] -> top_negative = [] -> clauses = "")
    /\ ((80 <= predicted_score)%Q ->
        category = "excellent" /\ level = "highly trusted")
    /\ ((60 <= predicted_score < 80)%Q -> category = "good" /\ level = "trusted")
    /\ ((40 <= predicted_score < 60)%Q ->
        category = "moderate" /\ level = "moderately trusted")
    /\ ((predicted_score < 40)%Q -> category = "low" /\ level = "low trust").
Proof.
  destruct (score_category_bands predicted_score) as (B80 & B60 & B40 & B0).
  unfold _generate_explanation_text.
  destruct (score_category predicted_score) as [category level].
  exists category, level.
  assert (Hbands :
    ((80 <= predicted_score)%Q -> category = "excellent" /\ level = "highly trusted")
    /\ ((60 <= predicted_score < 80)%Q -> category = "good" /\ level = "trusted")
    /\ ((40 <= predicted_score < 60)%Q ->
        category = "moderate" /\ level = "moderately trusted")
    /\ ((predicted_score < 40)%Q -> category = "low" /\ level = "low trust")).
  { split; [| split; [| split]]; intros Hband;
      [ specialize (B80 Hband) | specialize (B60 Hband)
      | specialize (B40 Hband) | specialize (B0 Hband) ];
      split; congruence. }
  set (opening := String.concat "" _).
  destruct top_positive as [| p1 [| p2 [| p3 ps]]];
    destruct top_negative as [| n1 [| n2 [| n3 ns]]];
    cbv zeta; cbn [map];
    eexists;
    (split;
     [ first [ symmetry; apply append_nil_r | reflexivity | apply append_assoc ]
     | split; [ intros Hp Hn; first [ reflexivity | discriminate ]
              | exact Hbands ] ]).
Qed.

End Text.

Lemma explanation_text_opening_sample :
  exists clauses,
    @_generate_explanation_text plain_strings 80 [] []
    = String.append
        "This wallet has a excellent trust score of 80/100, indicating it is highly trusted. "
        clauses
    /\ clauses = "".
Proof.
  destruct (@explanation_text_opening plain_strings 80 [] [])
    as (category & level & clauses & Htext & Hempty & H80 & _).
  destruct H80 as [-> ->]; [vm_compute; discriminate |].
  exists clauses. split; [exact Htext | apply Hempty; reflexivity].
Defined.

End ExplainMore.
